(** * SIP.js user agent core: Rocq model and verified properties

    A shallow embedding of the protocol-critical pieces of the SIP user
    agent library (digest authentication, the WebSocket transport state
    machine, the PUBLISH client and the user agent's shutdown and inbound
    dispatch paths), followed by the properties established about them.
    Further modules cover the Authorization header, the transport's
    sending, receiving and keep-alives, the restart of the user agent,
    the option tags given to the core, and the mock session description
    handler of the test support.

    JavaScript values are modelled as the code uses them: [undefined] as
    [None], strings as [string], numbers as exact rationals extended with
    NaN and the two infinities, thrown exceptions and rejected promises as
    explicit results. *)

From Stdlib Require Import ZArith NArith QArith List String Ascii Bool Lia.
From stdpp Require Import base option list strings gmap.
Import ListNotations.

Local Open Scope string_scope.

(** ** JavaScript primitives shared by the models *)

Module JS.

(** [String(x)] of a possibly undefined string, as produced by [x + ":"]. *)
Definition show (s : option string) : string :=
  match s with
  | Some v => v
  | None => "undefined"
  end.

(** Truthiness of [string | undefined]: the empty string is falsy. *)
Definition truthy (s : option string) : bool :=
  match s with
  | Some v => negb (String.eqb v "")
  | None => false
  end.

(** IEEE numbers, idealised: finite values are exact rationals. *)
Inductive number : Type :=
| NaN
| NegInfinity
| Fin (q : Q)
| PosInfinity.

Definition Qltb (a b : Q) : bool := negb (Qle_bool b a).

(** [a < b] *)
Definition lt (a b : number) : bool :=
  match a, b with
  | NaN, _ | _, NaN => false
  | _, NegInfinity => false
  | NegInfinity, _ => true
  | PosInfinity, _ => false
  | Fin _, PosInfinity => true
  | Fin x, Fin y => Qltb x y
  end.

(** [a <= b] *)
Definition le (a b : number) : bool :=
  match a, b with
  | NaN, _ | _, NaN => false
  | NegInfinity, _ => true
  | _, PosInfinity => true
  | _, NegInfinity => false
  | PosInfinity, _ => false
  | Fin x, Fin y => Qle_bool x y
  end.

(** [a >= b] *)
Definition ge (a b : number) : bool := le b a.

(** [a === b] on numbers. *)
Definition strict_eq (a b : number) : bool :=
  match a, b with
  | NegInfinity, NegInfinity => true
  | PosInfinity, PosInfinity => true
  | Fin x, Fin y => Qeq_bool x y
  | _, _ => false
  end.

(** [a * k] for a finite non-zero positive constant [k]. *)
Definition scale (a : number) (k : Q) : number :=
  match a with
  | Fin x => Fin (x * k)
  | other => other
  end.

Definition of_Z (z : Z) : number := Fin (inject_Z z).

(** A decimal reader used to instantiate [Number(...)] on the header
    values of the examples: digit strings denote their value, anything
    else is [NaN]. *)
Definition digit_of (c : ascii) : option Z :=
  let n := Z.of_nat (nat_of_ascii c) in
  if ((48 <=? n) && (n <=? 57))%Z then Some (n - 48)%Z else None.

Fixpoint decimal_aux (acc : Z) (s : string) : option Z :=
  match s with
  | EmptyString => Some acc
  | String c rest =>
      match digit_of c with
      | Some d => decimal_aux (10 * acc + d) rest
      | None => None
      end
  end.

Definition NumberDec (s : string) : number :=
  match s with
  | EmptyString => of_Z 0
  | _ => match decimal_aux 0 s with
         | Some z => of_Z z
         | None => NaN
         end
  end.

End JS.

(** ** Effects: exceptions, mutable state and an event trace *)

Module Eff.

(** Exceptions: [StateTransitionError] and plain [Error]. *)
Inductive Exn : Type :=
| StateTransitionError (message : string)
| Error (message : string).

(** How a call completes; [OutOfFuel] is the recursion bound of a model
    and is shown never to arise where it is used. *)
Inductive Completion (A : Type) : Type :=
| Normal (a : A)
| Throw (e : Exn)
| OutOfFuel.
Arguments Normal {A} a.
Arguments Throw {A} e.
Arguments OutOfFuel {A}.

(** Computations on an object of type [S]: a result, the object
    afterwards (mutations survive a throw) and the events emitted, in
    the order they happen. *)
Definition M (S E A : Type) : Type := S -> Completion A * S * list E.

Section Operations.
Context {S E : Type}.

Definition ret {A} (a : A) : M S E A := fun s => (Normal a, s, []).

Definition bind {A B} (m : M S E A) (k : A -> M S E B) : M S E B :=
  fun s =>
    match m s with
    | (Normal a, s1, ev1) =>
        match k a s1 with
        | (r, s2, ev2) => (r, s2, (ev1 ++ ev2)%list)
        end
    | (Throw e, s1, ev1) => (Throw e, s1, ev1)
    | (OutOfFuel, s1, ev1) => (OutOfFuel, s1, ev1)
    end.

Definition throw {A} (e : Exn) : M S E A := fun s => (Throw e, s, []).
Definition get : M S E S := fun s => (Normal s, s, []).
Definition modify (f : S -> S) : M S E unit := fun s => (Normal tt, f s, []).
Definition emit (e : S -> E) : M S E unit := fun s => (Normal tt, s, [e s]).
Definition when (b : bool) (m : M S E unit) : M S E unit :=
  if b then m else ret tt.
End Operations.

Declare Scope eff_scope.
Delimit Scope eff_scope with eff.
Notation "x <- m ;; k" := (bind m (fun x => k))
  (at level 100, m at next level, k at level 200, right associativity)
  : eff_scope.
Notation "m ;; k" := (bind m (fun _ => k))
  (at level 100, k at level 200, right associativity) : eff_scope.

Definition isSome {A} (o : option A) : bool :=
  match o with Some _ => true | None => false end.

(** A specification of a computation started on [s]: if it returns, [Q]
    holds of the value and the object; if it throws, [X] holds of the
    object; it does not run out of fuel; every event it emits
    satisfies [G]. *)
Definition wp {S E A : Type} (m : M S E A) (Q : A -> S -> Prop)
    (X : S -> Prop) (G : E -> Prop) (s : S) : Prop :=
  match m s with
  | (Normal a, s1, evs) => Forall G evs /\ Q a s1
  | (Throw _, s1, evs) => Forall G evs /\ X s1
  | (OutOfFuel, _, _) => False
  end.

End Eff.

(** ** Digest authentication ([core/messages/digest-authentication.ts]) *)

Module Digest.

(** [challenge.qop] is typed [any]: the grammar yields an array of
    values, other callers may pass a single string. *)
Inductive QopValue : Type :=
| QopString (s : string)
| QopArray (l : list string).

Record Challenge : Type := mkChallenge {
  ch_algorithm : option string;
  ch_realm : option string;
  ch_nonce : option string;
  ch_opaque : option string;
  ch_stale : option bool;
  ch_qop : option QopValue
}.

Record OutgoingRequestMessage : Type := mkRequest {
  req_method : string;
  req_ruri : string
}.

Record DigestAuthentication : Type := mkDigest {
  stale : option bool;
  username : option string;
  password : option string;
  cnonce : option string;
  nc : N;
  ncHex : string;
  response : option string;
  algorithm : option string;
  realm : option string;
  nonce : option string;
  opaque : option string;
  qop : option string;
  method : option string;
  uri : option string
}.

Definition constructor (user pass : option string) : DigestAuthentication :=
  {| stale := None; username := user; password := pass; cnonce := None;
     nc := 0; ncHex := "00000000"; response := None; algorithm := None;
     realm := None; nonce := None; opaque := None; qop := None;
     method := None; uri := None |}.

(** Field assignments. *)
Definition set_challenge (c : Challenge) (d : DigestAuthentication) :=
  {| stale := ch_stale c; username := username d; password := password d;
     cnonce := cnonce d; nc := nc d; ncHex := ncHex d;
     response := response d; algorithm := ch_algorithm c;
     realm := ch_realm c; nonce := ch_nonce c; opaque := ch_opaque c;
     qop := qop d; method := method d; uri := uri d |}.

Definition set_algorithm (v : option string) (d : DigestAuthentication) :=
  {| stale := stale d; username := username d; password := password d;
     cnonce := cnonce d; nc := nc d; ncHex := ncHex d;
     response := response d; algorithm := v; realm := realm d;
     nonce := nonce d; opaque := opaque d; qop := qop d;
     method := method d; uri := uri d |}.

Definition set_qop (v : option string) (d : DigestAuthentication) :=
  {| stale := stale d; username := username d; password := password d;
     cnonce := cnonce d; nc := nc d; ncHex := ncHex d;
     response := response d; algorithm := algorithm d; realm := realm d;
     nonce := nonce d; opaque := opaque d; qop := v;
     method := method d; uri := uri d |}.

Definition set_request (r : OutgoingRequestMessage) (token : string)
    (d : DigestAuthentication) :=
  {| stale := stale d; username := username d; password := password d;
     cnonce := Some token; nc := nc d; ncHex := ncHex d;
     response := response d; algorithm := algorithm d; realm := realm d;
     nonce := nonce d; opaque := opaque d; qop := qop d;
     method := Some (req_method r); uri := Some (req_ruri r) |}.

Definition set_nc (v : N) (d : DigestAuthentication) :=
  {| stale := stale d; username := username d; password := password d;
     cnonce := cnonce d; nc := v; ncHex := ncHex d;
     response := response d; algorithm := algorithm d; realm := realm d;
     nonce := nonce d; opaque := opaque d; qop := qop d;
     method := method d; uri := uri d |}.

Definition set_ncHex (v : string) (d : DigestAuthentication) :=
  {| stale := stale d; username := username d; password := password d;
     cnonce := cnonce d; nc := nc d; ncHex := v;
     response := response d; algorithm := algorithm d; realm := realm d;
     nonce := nonce d; opaque := opaque d; qop := qop d;
     method := method d; uri := uri d |}.

Definition set_response (v : option string) (d : DigestAuthentication) :=
  {| stale := stale d; username := username d; password := password d;
     cnonce := cnonce d; nc := nc d; ncHex := ncHex d;
     response := v; algorithm := algorithm d; realm := realm d;
     nonce := nonce d; opaque := opaque d; qop := qop d;
     method := method d; uri := uri d |}.

(** [Number.prototype.toString(16)] on a non-negative integer. *)
Definition hexDigit (d : N) : ascii :=
  match d with
  | 0%N => "0" | 1%N => "1" | 2%N => "2" | 3%N => "3"
  | 4%N => "4" | 5%N => "5" | 6%N => "6" | 7%N => "7"
  | 8%N => "8" | 9%N => "9" | 10%N => "a" | 11%N => "b"
  | 12%N => "c" | 13%N => "d" | 14%N => "e" | _ => "f"
  end%char.

Fixpoint toString16_aux (fuel : nat) (n : N) : string :=
  match fuel with
  | O => ""
  | S f =>
      if (n <? 16)%N then String (hexDigit n) ""
      else toString16_aux f (n / 16)%N ++ String (hexDigit (n mod 16)%N) ""
  end.

Definition toString16 (n : N) : string :=
  toString16_aux (S (N.to_nat (N.log2 n))) n.

(** The value denoted by a string of hexadecimal digits. *)
Definition hexDigitValue (c : ascii) : option N :=
  let n := N_of_ascii c in
  if ((48 <=? n) && (n <=? 57))%N then Some (n - 48)%N
  else if ((97 <=? n) && (n <=? 102))%N then Some (n - 87)%N
  else None.

Fixpoint hexValue_aux (acc : N) (s : string) : option N :=
  match s with
  | EmptyString => Some acc
  | String c rest =>
      match hexDigitValue c with
      | Some d => hexValue_aux (16 * acc + d)%N rest
      | None => None
      end
  end.

Definition hexValue (s : string) : option N := hexValue_aux 0 s.

(** [updateNcHex]: ["00000000".substr(0, 8 - hex.length) + hex]; a
    negative length makes [substr] return the empty string. *)
Definition updateNcHex (d : DigestAuthentication) : DigestAuthentication :=
  let hex := toString16 (nc d) in
  set_ncHex (String.substring 0 (8 - String.length hex) "00000000" ++ hex) d.

(** [x.indexOf(v) > -1] for a string (substring search) or an array
    (element search). *)
Definition qop_contains (q : QopValue) (v : string) : bool :=
  match q with
  | QopString s => match String.index 0 v s with Some _ => true | None => false end
  | QopArray l => existsb (String.eqb v) l
  end.

(** Truthiness of [challenge.qop]: arrays are always truthy. *)
Definition qop_present (q : option QopValue) : bool :=
  match q with
  | None => false
  | Some (QopString s) => negb (String.eqb s "")
  | Some (QopArray _) => true
  end.

Section WithMD5.

(** The MD5 digest of [crypto-js], rendered as it is when concatenated
    into a string (lower-case hexadecimal). *)
Variable MD5 : string -> string.

Definition calculateResponse (body : option string)
    (d : DigestAuthentication) : DigestAuthentication :=
  let ha1 := MD5 (JS.show (username d) ++ ":" ++ JS.show (realm d) ++ ":"
                  ++ JS.show (password d)) in
  match qop d with
  | Some q =>
      if String.eqb q "auth" then
        let ha2 := MD5 (JS.show (method d) ++ ":" ++ JS.show (uri d)) in
        set_response
          (Some (MD5 (ha1 ++ ":" ++ JS.show (nonce d) ++ ":" ++ ncHex d ++ ":"
                      ++ JS.show (cnonce d) ++ ":auth:" ++ ha2))) d
      else if String.eqb q "auth-int" then
        let ha2 := MD5 (JS.show (method d) ++ ":" ++ JS.show (uri d) ++ ":"
                        ++ MD5 (if JS.truthy body then JS.show body else "")) in
        set_response
          (Some (MD5 (ha1 ++ ":" ++ JS.show (nonce d) ++ ":" ++ ncHex d ++ ":"
                      ++ JS.show (cnonce d) ++ ":auth-int:" ++ ha2))) d
      else d
  | None =>
      let ha2 := MD5 (JS.show (method d) ++ ":" ++ JS.show (uri d)) in
      set_response (Some (MD5 (ha1 ++ ":" ++ JS.show (nonce d) ++ ":" ++ ha2))) d
  end.

(** [authenticate(request, challenge, body)]; [token] is the value
    returned by [createRandomToken(12)]. *)
Definition authenticate (d : DigestAuthentication)
    (request : OutgoingRequestMessage) (challenge : Challenge)
    (body : option string) (token : string)
    : bool * DigestAuthentication :=
  let d := set_challenge challenge d in
  if JS.truthy (algorithm d) && negb (String.eqb (JS.show (algorithm d)) "MD5")
  then (false, d)
  else
    let d := if JS.truthy (algorithm d) then d else set_algorithm (Some "MD5") d in
    if negb (JS.truthy (realm d)) then (false, d)
    else if negb (JS.truthy (nonce d)) then (false, d)
    else
      let selected :=
        match ch_qop challenge with
        | Some q =>
            if qop_present (Some q) then
              if qop_contains q "auth" then Some (set_qop (Some "auth") d)
              else if qop_contains q "auth-int" then Some (set_qop (Some "auth-int") d)
              else None
            else Some (set_qop None d)
        | None => Some (set_qop None d)
        end in
      match selected with
      | None => (false, d)
      | Some d =>
          let d := set_request request token d in
          let d := set_nc (nc d + 1)%N d in
          let d := updateNcHex d in
          let d := if (nc d =? 4294967296)%N
                   then set_ncHex "00000001" (set_nc 1%N d) else d in
          (true, calculateResponse body d)
      end.

End WithMD5.

End Digest.

(** ** WebSocket transport state machine ([platform/web/transport])

    The connection life cycle: [connect], [disconnect], the WebSocket
    open and close events and [transitionState].  Calls to the logger are
    left out; sending and receiving messages are modelled apart, in
    [TransportIO]. *)

Module Transport.

Import Eff.

Inductive TransportState : Type :=
| Connecting
| Connected
| Disconnecting
| Disconnected.

Definition state_eqb (a b : TransportState) : bool :=
  match a, b with
  | Connecting, Connecting | Connected, Connected
  | Disconnecting, Disconnecting | Disconnected, Disconnected => true
  | _, _ => false
  end.

Definition show_state (s : TransportState) : string :=
  match s with
  | Connecting => "Connecting"
  | Connected => "Connected"
  | Disconnecting => "Disconnecting"
  | Disconnected => "Disconnected"
  end.

(** The promise handed back by [connect()] / [disconnect()]. *)
Inductive PromiseRef : Type :=
| Resolved                       (* Promise.resolve() *)
| Rejected (e : Exn)             (* Promise.reject(e) *)
| Handle (id : nat)              (* a promise made with new Promise *)
| FailsLater (e : Exn).          (* Promise.resolve().then(() => { ...; throw e }) *)

Inductive PromiseState : Type :=
| Pending
| Fulfilled
| RejectedWith (e : Exn).

(** What an observer (state-change listener, [onConnect],
    [onDisconnect], legacy event listener) does when it is called. *)
Inductive Action : Type :=
| CallConnect
| CallDisconnect
| Raise (e : Exn).

Record Transport : Type := mkTransport {
  _state : TransportState;
  transitioningState : bool;
  _ws : option nat;
  connectPromise : option nat;
  connectResolve : option nat;
  connectReject : option nat;
  connectTimeout : option nat;
  disconnectPromise : option nat;
  disconnectResolve : option nat;
  disconnectReject : option nat;
  keepAliveInterval : bool;
  keepAliveDebounceTimeout : bool;
  (* heap: promises made by the transport and the count of sockets *)
  promises : list PromiseState;
  sockets : nat
}.

Definition constructor : Transport :=
  {| _state := Disconnected; transitioningState := false; _ws := None;
     connectPromise := None; connectResolve := None; connectReject := None;
     connectTimeout := None;
     disconnectPromise := None; disconnectResolve := None;
     disconnectReject := None;
     keepAliveInterval := false; keepAliveDebounceTimeout := false;
     promises := []; sockets := 0 |}.

(** Field assignments. *)
Definition set_state (v : TransportState) (t : Transport) : Transport :=
  {| _state := v; transitioningState := transitioningState t; _ws := _ws t;
     connectPromise := connectPromise t; connectResolve := connectResolve t;
     connectReject := connectReject t; connectTimeout := connectTimeout t;
     disconnectPromise := disconnectPromise t;
     disconnectResolve := disconnectResolve t;
     disconnectReject := disconnectReject t;
     keepAliveInterval := keepAliveInterval t;
     keepAliveDebounceTimeout := keepAliveDebounceTimeout t;
     promises := promises t; sockets := sockets t |}.

Definition set_transitioningState (v : bool) (t : Transport) : Transport :=
  {| _state := _state t; transitioningState := v; _ws := _ws t;
     connectPromise := connectPromise t; connectResolve := connectResolve t;
     connectReject := connectReject t; connectTimeout := connectTimeout t;
     disconnectPromise := disconnectPromise t;
     disconnectResolve := disconnectResolve t;
     disconnectReject := disconnectReject t;
     keepAliveInterval := keepAliveInterval t;
     keepAliveDebounceTimeout := keepAliveDebounceTimeout t;
     promises := promises t; sockets := sockets t |}.

Definition set_ws (v : option nat) (n : nat) (t : Transport) : Transport :=
  {| _state := _state t; transitioningState := transitioningState t; _ws := v;
     connectPromise := connectPromise t; connectResolve := connectResolve t;
     connectReject := connectReject t; connectTimeout := connectTimeout t;
     disconnectPromise := disconnectPromise t;
     disconnectResolve := disconnectResolve t;
     disconnectReject := disconnectReject t;
     keepAliveInterval := keepAliveInterval t;
     keepAliveDebounceTimeout := keepAliveDebounceTimeout t;
     promises := promises t; sockets := n |}.

(** [connectPromise], [connectResolve] and [connectReject] together. *)
Definition set_connect (p r j : option nat) (t : Transport) : Transport :=
  {| _state := _state t; transitioningState := transitioningState t; _ws := _ws t;
     connectPromise := p; connectResolve := r; connectReject := j;
     connectTimeout := connectTimeout t;
     disconnectPromise := disconnectPromise t;
     disconnectResolve := disconnectResolve t;
     disconnectReject := disconnectReject t;
     keepAliveInterval := keepAliveInterval t;
     keepAliveDebounceTimeout := keepAliveDebounceTimeout t;
     promises := promises t; sockets := sockets t |}.

Definition set_connectTimeout (v : option nat) (t : Transport) : Transport :=
  {| _state := _state t; transitioningState := transitioningState t; _ws := _ws t;
     connectPromise := connectPromise t; connectResolve := connectResolve t;
     connectReject := connectReject t; connectTimeout := v;
     disconnectPromise := disconnectPromise t;
     disconnectResolve := disconnectResolve t;
     disconnectReject := disconnectReject t;
     keepAliveInterval := keepAliveInterval t;
     keepAliveDebounceTimeout := keepAliveDebounceTimeout t;
     promises := promises t; sockets := sockets t |}.

(** [disconnectPromise], [disconnectResolve] and [disconnectReject]. *)
Definition set_disconnect (p r j : option nat) (t : Transport) : Transport :=
  {| _state := _state t; transitioningState := transitioningState t; _ws := _ws t;
     connectPromise := connectPromise t; connectResolve := connectResolve t;
     connectReject := connectReject t; connectTimeout := connectTimeout t;
     disconnectPromise := p; disconnectResolve := r; disconnectReject := j;
     keepAliveInterval := keepAliveInterval t;
     keepAliveDebounceTimeout := keepAliveDebounceTimeout t;
     promises := promises t; sockets := sockets t |}.

Definition set_keepAlive (interval debounce : bool) (t : Transport) : Transport :=
  {| _state := _state t; transitioningState := transitioningState t; _ws := _ws t;
     connectPromise := connectPromise t; connectResolve := connectResolve t;
     connectReject := connectReject t; connectTimeout := connectTimeout t;
     disconnectPromise := disconnectPromise t;
     disconnectResolve := disconnectResolve t;
     disconnectReject := disconnectReject t;
     keepAliveInterval := interval; keepAliveDebounceTimeout := debounce;
     promises := promises t; sockets := sockets t |}.

Definition set_promises (v : list PromiseState) (t : Transport) : Transport :=
  {| _state := _state t; transitioningState := transitioningState t; _ws := _ws t;
     connectPromise := connectPromise t; connectResolve := connectResolve t;
     connectReject := connectReject t; connectTimeout := connectTimeout t;
     disconnectPromise := disconnectPromise t;
     disconnectResolve := disconnectResolve t;
     disconnectReject := disconnectReject t;
     keepAliveInterval := keepAliveInterval t;
     keepAliveDebounceTimeout := keepAliveDebounceTimeout t;
     promises := v; sockets := sockets t |}.

(** Observable events, in the order they happen.  Notifications and
    promise completions record the value of [transitioningState] at the
    moment they are made. *)
Inductive Event : Type :=
| StateChangeEmitted (s : TransportState) (inTransition : bool)
| OnConnectCalled (inTransition : bool)
| OnDisconnectCalled (error : option Exn) (inTransition : bool)
| LegacyEmitted (s : TransportState) (inTransition : bool)
| ConnectCompleted (outcome : PromiseState) (inTransition : bool)
| DisconnectCompleted (outcome : PromiseState) (inTransition : bool)
| ObserverCalled (a : Action) (answer : Completion PromiseRef)
| WebSocketCreated (id : nat)
| WebSocketCloseCalled (id : nat).

(** Computations on the transport. *)
Abbreviation M := (Eff.M Transport Event).
Local Open Scope eff_scope.

(** The switch at the head of [transitionState]. *)
Definition validTransition (from to : TransportState) : bool :=
  match from with
  | Connecting =>
      negb (negb (state_eqb to Connected) && negb (state_eqb to Disconnecting)
            && negb (state_eqb to Disconnected))
  | Connected =>
      negb (negb (state_eqb to Disconnecting) && negb (state_eqb to Disconnected))
  | Disconnecting =>
      negb (negb (state_eqb to Connecting) && negb (state_eqb to Disconnected))
  | Disconnected =>
      negb (negb (state_eqb to Connecting))
  end.

(** The legal transitions as the specification lists them. *)
Inductive legal : TransportState -> TransportState -> Prop :=
| legal_connect : legal Disconnected Connecting
| legal_handshake : legal Connecting Connected
| legal_disconnect_mid_connect : legal Connecting Disconnecting
| legal_connect_failed : legal Connecting Disconnected
| legal_disconnect : legal Connected Disconnecting
| legal_unsolicited_close : legal Connected Disconnected
| legal_close_complete : legal Disconnecting Disconnected
| legal_connect_during_disconnect : legal Disconnecting Connecting.

Definition loopDetected : Exn := StateTransitionError "Loop detected.".

(** [transitionLoopDetectedError]: logs and builds the error. *)
Definition transitionLoopDetectedError (state : TransportState) : Exn :=
  loopDetected.

(** Settling a promise of the heap; a settled promise stays as it is. *)
Definition settle (id : nat) (outcome : PromiseState) (t : Transport) : Transport :=
  match promises t !! id with
  | Some Pending => set_promises (<[id := outcome]> (promises t)) t
  | _ => t
  end.

Definition orElse (error : option Exn) (message : string) : Exn :=
  match error with
  | Some e => e
  | None => Error message
  end.

(** [startSendingKeepAlives] / [stopSendingKeepAlives]: only the timer
    handles are tracked. *)
Definition startSendingKeepAlives (configured : bool) (t : Transport) : Transport :=
  if configured && negb (keepAliveInterval t)
  then set_keepAlive true (keepAliveDebounceTimeout t) t
  else t.

Definition stopSendingKeepAlives (t : Transport) : Transport :=
  set_keepAlive false false t.

Section WithEnvironment.

(** Configuration: whether [keepAliveInterval] is set, and the
    exception thrown by [new WebSocket(server, "sip")], if any. *)
Variable keepAliveConfigured : bool.
Variable webSocketThrows : option Exn.

(** The code registered by the transport's user. *)
Variable stateChangeListener : TransportState -> list Action.
Variable onConnect : option (list Action).
Variable onDisconnect : option (option Exn -> list Action).
Variable legacyListener : TransportState -> list Action.

Section WithNestedCalls.

(** [transitionState] as seen by a call made from an observer. *)
Variable nested : TransportState -> option Exn -> M unit.

(** [try { transitionState(s) } catch (e) { if (e instanceof
    StateTransitionError) return Promise.reject(e); throw e; }]:
    [Some p] is the early return. *)
Definition tryTransition (s : TransportState) : M (option PromiseRef) :=
  fun t =>
    match nested s None t with
    | (Normal _, t1, ev) => (Normal None, t1, ev)
    | (Throw (StateTransitionError m), t1, ev) =>
        (Normal (Some (Rejected (StateTransitionError m))), t1, ev)
    | (Throw e, t1, ev) => (Throw e, t1, ev)
    | (OutOfFuel, t1, ev) => (OutOfFuel, t1, ev)
    end.

(** The part of [_connect] after the switch. *)
Definition openWebSocket : M PromiseRef :=
  t <- get ;;
  match webSocketThrows with
  | Some error =>
      modify (set_ws None (sockets t)) ;;
      ret (FailsLater error)
  | None =>
      let ws := sockets t in
      modify (set_ws (Some ws) (S ws)) ;;
      emit (fun _ => WebSocketCreated ws) ;;
      t <- get ;;
      let p := length (promises t) in
      modify (set_promises (promises t ++ [Pending])%list) ;;
      modify (set_connect (Some p) (Some p) (Some p)) ;;
      modify (set_connectTimeout (Some ws)) ;;
      ret (Handle p)
  end.

Definition _connect : M PromiseRef :=
  t <- get ;;
  match _state t with
  | Connecting =>
      if transitioningState t
      then ret (Rejected (transitionLoopDetectedError Connecting))
      else match connectPromise t with
           | None => throw (Error "Connect promise must be defined.")
           | Some p => ret (Handle p)
           end
  | Connected =>
      if transitioningState t
      then ret (Rejected (transitionLoopDetectedError Connecting))
      else if isSome (connectPromise t)
           then throw (Error "Connect promise must not be defined.")
           else ret Resolved
  | Disconnecting =>
      if isSome (connectPromise t)
      then throw (Error "Connect promise must not be defined.")
      else
        early <- tryTransition Connecting ;;
        match early with
        | Some p => ret p
        | None => openWebSocket
        end
  | Disconnected =>
      if isSome (connectPromise t)
      then throw (Error "Connect promise must not be defined.")
      else
        early <- tryTransition Connecting ;;
        match early with
        | Some p => ret p
        | None => openWebSocket
        end
  end.

(** The part of [_disconnect] after the switch. *)
Definition closeWebSocket : M PromiseRef :=
  t <- get ;;
  match _ws t with
  | None => throw (Error "WebSocket must be defined.")
  | Some ws =>
      let p := length (promises t) in
      modify (set_promises (promises t ++ [Pending])%list) ;;
      modify (set_disconnect (Some p) (Some p) (Some p)) ;;
      emit (fun _ => WebSocketCloseCalled ws) ;;
      ret (Handle p)
  end.

Definition _disconnect : M PromiseRef :=
  t <- get ;;
  match _state t with
  | Connecting =>
      if isSome (disconnectPromise t)
      then throw (Error "Disconnect promise must not be defined.")
      else
        early <- tryTransition Disconnecting ;;
        match early with
        | Some p => ret p
        | None => closeWebSocket
        end
  | Connected =>
      if isSome (disconnectPromise t)
      then throw (Error "Disconnect promise must not be defined.")
      else
        early <- tryTransition Disconnecting ;;
        match early with
        | Some p => ret p
        | None => closeWebSocket
        end
  | Disconnecting =>
      if transitioningState t
      then ret (Rejected (transitionLoopDetectedError Disconnecting))
      else match disconnectPromise t with
           | None => throw (Error "Disconnect promise must be defined.")
           | Some p => ret (Handle p)
           end
  | Disconnected =>
      if transitioningState t
      then ret (Rejected (transitionLoopDetectedError Disconnecting))
      else if isSome (disconnectPromise t)
           then throw (Error "Disconnect promise must not be defined.")
           else ret Resolved
  end.

(** Running an observer: each call it makes goes to the public
    [connect()] / [disconnect()], whose answer is recorded; an
    exception leaves the observer and whatever called it. *)
Definition perform (a : Action) : M unit :=
  fun t =>
    match a with
    | CallConnect =>
        match _connect t with
        | (r, t1, ev) =>
            (match r with
             | Normal _ => Normal tt
             | Throw e => Throw e
             | OutOfFuel => OutOfFuel
             end, t1, (ev ++ [ObserverCalled a r])%list)
        end
    | CallDisconnect =>
        match _disconnect t with
        | (r, t1, ev) =>
            (match r with
             | Normal _ => Normal tt
             | Throw e => Throw e
             | OutOfFuel => OutOfFuel
             end, t1, (ev ++ [ObserverCalled a r])%list)
        end
    | Raise e => (Throw e, t, [])
    end.

Fixpoint runObserver (script : list Action) : M unit :=
  match script with
  | [] => ret tt
  | a :: rest => perform a ;; runObserver rest
  end.

(** The body of [transitionState(newState, error)]. *)
Definition transitionStateBody (newState : TransportState)
    (error : option Exn) : M unit :=
  t <- get ;;
  if transitioningState t then throw (transitionLoopDetectedError newState)
  else
    modify (set_transitioningState true) ;;
    (* Validate state transition *)
    if negb (validTransition (_state t) newState)
    then throw (Error ("Invalid state transition from " ++ show_state (_state t)
                       ++ " to " ++ show_state newState))
    else
      (* Update state *)
      let oldState := _state t in
      modify (set_state newState) ;;
      (* Local copies of the connect promise, then reset *)
      let connectResolve' := connectResolve t in
      let connectReject' := connectReject t in
      when (state_eqb oldState Connecting) (modify (set_connect None None None)) ;;
      (* Local copies of the disconnect promise, then reset *)
      let disconnectResolve' := disconnectResolve t in
      let disconnectReject' := disconnectReject t in
      when (state_eqb oldState Disconnecting)
           (modify (set_disconnect None None None)) ;;
      (* Clear any outstanding connect timeout *)
      modify (set_connectTimeout None) ;;
      (* this._stateEventEmitter.emit("event", this._state) *)
      emit (fun t => StateChangeEmitted newState (transitioningState t)) ;;
      runObserver (stateChangeListener newState) ;;
      (* Transition to Connected *)
      when (state_eqb newState Connected)
           (modify (startSendingKeepAlives keepAliveConfigured) ;;
            match onConnect with
            | Some callback =>
                emit (fun t => OnConnectCalled (transitioningState t)) ;;
                runObserver callback
            | None => ret tt
            end) ;;
      (* Transition from Connected *)
      when (state_eqb oldState Connected)
           (modify stopSendingKeepAlives ;;
            match onDisconnect with
            | Some callback =>
                emit (fun t => OnDisconnectCalled error (transitioningState t)) ;;
                runObserver (callback error)
            | None => ret tt
            end) ;;
      (* Legacy transport events *)
      emit (fun t => LegacyEmitted newState (transitioningState t)) ;;
      runObserver (legacyListener newState) ;;
      (* Complete connect promise *)
      when (state_eqb oldState Connecting)
           (match connectResolve', connectReject' with
            | None, _ => throw (Error "Connect resolve undefined.")
            | Some _, None => throw (Error "Connect reject undefined.")
            | Some res, Some rej =>
                if state_eqb newState Connected
                then modify (settle res Fulfilled) ;;
                     emit (fun t => ConnectCompleted Fulfilled (transitioningState t))
                else let outcome := RejectedWith (orElse error "Connect aborted.") in
                     modify (settle rej outcome) ;;
                     emit (fun t => ConnectCompleted outcome (transitioningState t))
            end) ;;
      (* Complete disconnect promise *)
      when (state_eqb oldState Disconnecting)
           (match disconnectResolve', disconnectReject' with
            | None, _ => throw (Error "Disconnect resolve undefined.")
            | Some _, None => throw (Error "Disconnect reject undefined.")
            | Some res, Some rej =>
                if state_eqb newState Disconnected
                then modify (settle res Fulfilled) ;;
                     emit (fun t => DisconnectCompleted Fulfilled (transitioningState t))
                else let outcome := RejectedWith (orElse error "Disconnect aborted.") in
                     modify (settle rej outcome) ;;
                     emit (fun t => DisconnectCompleted outcome (transitioningState t))
            end) ;;
      modify (set_transitioningState false).

End WithNestedCalls.

(** [transitionState]: calls made by observers re-enter it; [fuel]
    bounds the depth of that re-entry. *)
Fixpoint transitionState (fuel : nat) : TransportState -> option Exn -> M unit :=
  match fuel with
  | O => fun _ _ t => (OutOfFuel, t, [])
  | S n => transitionStateBody (transitionState n)
  end.

(** The public [connect()] and [disconnect()]. *)
Definition connect (fuel : nat) : M PromiseRef := _connect (transitionState fuel).
Definition disconnect (fuel : nat) : M PromiseRef := _disconnect (transitionState fuel).

(** [onWebSocketOpen(ev, ws)] *)
Definition onWebSocketOpen (fuel : nat) (ws : nat) : M unit :=
  t <- get ;;
  if negb (bool_decide (Some ws = _ws t)) then ret tt
  else if state_eqb (_state t) Connecting
       then transitionState fuel Connected None
       else ret tt.

(** [onWebSocketClose(ev, ws)]; [message] is the text built from the
    close code. *)
Definition onWebSocketClose (fuel : nat) (message : string) (ws : nat) : M unit :=
  t <- get ;;
  if negb (bool_decide (Some ws = _ws t)) then ret tt
  else
    let error := if isSome (disconnectPromise t) then None
                 else Some (Error message) in
    modify (set_ws None (sockets t)) ;;
    transitionState fuel Disconnected error.

(** The continuation attached when the WebSocket constructor threw:
    the transition to Disconnected, then the rethrow. *)
Definition constructionFailed (fuel : nat) (error : Exn) : M unit :=
  transitionState fuel Disconnected (Some error) ;;
  throw error.

End WithEnvironment.

End Transport.

(** ** PUBLISH client ([api/publisher.ts]) *)

Module Publisher.

Import Eff.

Inductive PublisherState : Type :=
| Initial
| Published
| Unpublished
| Terminated.

Definition state_eqb (a b : PublisherState) : bool :=
  match a, b with
  | Initial, Initial | Published, Published
  | Unpublished, Unpublished | Terminated, Terminated => true
  | _, _ => false
  end.

Definition show_state (s : PublisherState) : string :=
  match s with
  | Initial => "Initial"
  | Published => "Published"
  | Unpublished => "Unpublished"
  | Terminated => "Terminated"
  end.

(** The part of an incoming response the publisher reads. *)
Record IncomingResponseMessage : Type := mkResponse {
  statusCode : option Z;
  hasHeader : string -> bool;
  getHeader : string -> option string
}.

Record Publisher : Type := mkPublisher {
  _state : PublisherState;
  disposed : bool;
  pubRequestBody : option string;
  pubRequestExpires : JS.number;
  pubRequestEtag : option string;
  (* the delay, in milliseconds, of the armed refresh timer *)
  publishRefreshTimer : option JS.number;
  (* options *)
  options_body : option string;
  options_expires : JS.number;
  options_unpublishOnClose : bool
}.

(** The fields as the constructor leaves them; [expires] and
    [unpublishOnClose] are the options after their defaulting. *)
Definition constructor (body : option string) (expires : JS.number)
    (unpublishOnClose : bool) : Publisher :=
  {| _state := Initial; disposed := false; pubRequestBody := None;
     pubRequestExpires := expires; pubRequestEtag := None;
     publishRefreshTimer := None; options_body := body;
     options_expires := expires;
     options_unpublishOnClose := unpublishOnClose |}.

Definition set_state (v : PublisherState) (p : Publisher) : Publisher :=
  {| _state := v; disposed := disposed p; pubRequestBody := pubRequestBody p;
     pubRequestExpires := pubRequestExpires p; pubRequestEtag := pubRequestEtag p;
     publishRefreshTimer := publishRefreshTimer p; options_body := options_body p;
     options_expires := options_expires p;
     options_unpublishOnClose := options_unpublishOnClose p |}.

Definition set_disposed (v : bool) (p : Publisher) : Publisher :=
  {| _state := _state p; disposed := v; pubRequestBody := pubRequestBody p;
     pubRequestExpires := pubRequestExpires p; pubRequestEtag := pubRequestEtag p;
     publishRefreshTimer := publishRefreshTimer p; options_body := options_body p;
     options_expires := options_expires p;
     options_unpublishOnClose := options_unpublishOnClose p |}.

Definition set_pubRequestBody (v : option string) (p : Publisher) : Publisher :=
  {| _state := _state p; disposed := disposed p; pubRequestBody := v;
     pubRequestExpires := pubRequestExpires p; pubRequestEtag := pubRequestEtag p;
     publishRefreshTimer := publishRefreshTimer p; options_body := options_body p;
     options_expires := options_expires p;
     options_unpublishOnClose := options_unpublishOnClose p |}.

Definition set_pubRequestExpires (v : JS.number) (p : Publisher) : Publisher :=
  {| _state := _state p; disposed := disposed p; pubRequestBody := pubRequestBody p;
     pubRequestExpires := v; pubRequestEtag := pubRequestEtag p;
     publishRefreshTimer := publishRefreshTimer p; options_body := options_body p;
     options_expires := options_expires p;
     options_unpublishOnClose := options_unpublishOnClose p |}.

Definition set_pubRequestEtag (v : option string) (p : Publisher) : Publisher :=
  {| _state := _state p; disposed := disposed p; pubRequestBody := pubRequestBody p;
     pubRequestExpires := pubRequestExpires p; pubRequestEtag := v;
     publishRefreshTimer := publishRefreshTimer p; options_body := options_body p;
     options_expires := options_expires p;
     options_unpublishOnClose := options_unpublishOnClose p |}.

Definition set_publishRefreshTimer (v : option JS.number) (p : Publisher) : Publisher :=
  {| _state := _state p; disposed := disposed p; pubRequestBody := pubRequestBody p;
     pubRequestExpires := pubRequestExpires p; pubRequestEtag := pubRequestEtag p;
     publishRefreshTimer := v; options_body := options_body p;
     options_expires := options_expires p;
     options_unpublishOnClose := options_unpublishOnClose p |}.

Definition set_options_body (v : option string) (p : Publisher) : Publisher :=
  {| _state := _state p; disposed := disposed p; pubRequestBody := pubRequestBody p;
     pubRequestExpires := pubRequestExpires p; pubRequestEtag := pubRequestEtag p;
     publishRefreshTimer := publishRefreshTimer p; options_body := v;
     options_expires := options_expires p;
     options_unpublishOnClose := options_unpublishOnClose p |}.

(** What the publisher does to the outside, in order. *)
Inductive Event : Type :=
| Warned (message : string)
| Progress                                  (* this.emit("progress", ...) *)
| StateChangeEmitted (s : PublisherState)
| RemovedFromUserAgent                      (* delete userAgent._publishers[id] *)
| PublishSent (expires : JS.number) (ifMatch : option string) (body : option string).

Abbreviation M := (Eff.M Publisher Event).
Local Open Scope eff_scope.

(** The switch at the head of [stateTransition]. *)
Definition validTransition (from to : PublisherState) : bool :=
  match from with
  | Initial =>
      negb (negb (state_eqb to Published) && negb (state_eqb to Unpublished)
            && negb (state_eqb to Terminated))
  | Published =>
      negb (negb (state_eqb to Unpublished) && negb (state_eqb to Terminated))
  | Unpublished =>
      negb (negb (state_eqb to Published) && negb (state_eqb to Terminated))
  | Terminated => false
  end.

Definition clearRefreshTimer : M unit :=
  modify (set_publishRefreshTimer None).

(** [sendPublishRequest]: the request built from the current fields is
    handed to the user agent core. *)
Definition sendPublishRequest : M unit :=
  emit (fun p => PublishSent (pubRequestExpires p) (pubRequestEtag p) (pubRequestBody p)).

Definition unpublish : M unit :=
  clearRefreshTimer ;;
  modify (set_pubRequestBody None) ;;
  modify (set_pubRequestExpires (JS.of_Z 0)) ;;
  p <- get ;;
  when (isSome (pubRequestEtag p)) sendPublishRequest.

Definition publish (content : option string) : M unit :=
  clearRefreshTimer ;;
  modify (set_options_body content) ;;
  modify (set_pubRequestBody content) ;;
  p <- get ;;
  when (JS.strict_eq (pubRequestExpires p) (JS.of_Z 0))
       (modify (set_pubRequestExpires (options_expires p)) ;;
        modify (set_pubRequestEtag None)) ;;
  sendPublishRequest.

(** [refreshRequest], run by the refresh timer. *)
Definition refreshRequest : M unit :=
  clearRefreshTimer ;;
  modify (set_pubRequestBody None) ;;
  p <- get ;;
  if negb (isSome (pubRequestEtag p)) then throw (Error "Etag undefined")
  else if JS.strict_eq (pubRequestExpires p) (JS.of_Z 0)
  then throw (Error "Expires zero")
  else sendPublishRequest.

Definition dispose : M unit :=
  p <- get ;;
  if disposed p then ret tt
  else
    modify (set_disposed true) ;;
    emit (fun _ => RemovedFromUserAgent) ;;
    if options_unpublishOnClose p && state_eqb (_state p) Published
    then unpublish
    else
      clearRefreshTimer ;;
      modify (set_pubRequestBody None) ;;
      modify (set_pubRequestExpires (JS.of_Z 0)) ;;
      modify (set_pubRequestEtag None).

Definition stateTransition (newState : PublisherState) : M unit :=
  p <- get ;;
  if negb (validTransition (_state p) newState)
  then throw (Error ("Invalid state transition from " ++ show_state (_state p)
                     ++ " to " ++ show_state newState))
  else
    modify (set_state newState) ;;
    emit (fun _ => StateChangeEmitted newState) ;;
    when (state_eqb newState Terminated) dispose.

(** The status classes tested by the regular expressions of
    [receiveResponse]. *)
Definition is1xx (c : Z) : bool := ((100 <=? c) && (c <=? 199))%Z.
Definition is2xx (c : Z) : bool := ((200 <=? c) && (c <=? 299))%Z.

Section WithNumber.

(** [Number(s)] on a header value. *)
Variable Number : string -> JS.number.

Definition NumberOf (v : option string) : JS.number :=
  match v with
  | Some s => Number s
  | None => JS.NaN
  end.

Definition giveUp : M unit :=
  modify (set_pubRequestExpires (JS.of_Z 0)) ;;
  stateTransition Unpublished ;;
  stateTransition Terminated.

(** The 200-class case of [receiveResponse]. *)
Definition accepted (response : IncomingResponseMessage) : M unit :=
  (* Set SIP-Etag *)
  (if hasHeader response "SIP-ETag"
   then modify (set_pubRequestEtag (getHeader response "SIP-ETag"))
   else emit (fun _ => Warned "SIP-ETag header missing in a 200-class response to PUBLISH")) ;;
  (* Update Expire *)
  p <- get ;;
  (if hasHeader response "Expires"
   then
     let expires := NumberOf (getHeader response "Expires") in
     if JS.ge expires (JS.of_Z 0) && JS.le expires (pubRequestExpires p)
     then modify (set_pubRequestExpires expires)
     else emit (fun _ => Warned "Bad Expires header in a 200-class response to PUBLISH")
   else emit (fun _ => Warned "Expires header missing in a 200-class response to PUBLISH")) ;;
  p <- get ;;
  if negb (JS.strict_eq (pubRequestExpires p) (JS.of_Z 0))
  then
    (* Schedule refresh *)
    modify (set_publishRefreshTimer (Some (JS.scale (pubRequestExpires p) 900))) ;;
    stateTransition Published
  else stateTransition Unpublished.

(** The cleanup that ends [receiveResponse]. *)
Definition cleanup : M unit :=
  p <- get ;;
  when (JS.strict_eq (pubRequestExpires p) (JS.of_Z 0))
       (clearRefreshTimer ;;
        modify (set_pubRequestBody None) ;;
        modify (set_pubRequestEtag None)).

Definition receiveResponse (response : IncomingResponseMessage) : M unit :=
  let statusCode := match statusCode response with
                    | Some c => c
                    | None => 0%Z
                    end in
  (if is1xx statusCode then emit (fun _ => Progress)
   else if is2xx statusCode then accepted response
   else if (statusCode =? 412)%Z then
     p <- get ;;
     if isSome (pubRequestEtag p)
        && negb (JS.strict_eq (pubRequestExpires p) (JS.of_Z 0))
     then
       emit (fun _ => Warned "412 response to PUBLISH, recovering") ;;
       modify (set_pubRequestEtag None) ;;
       emit (fun _ => Progress) ;;
       publish (options_body p)
     else
       emit (fun _ => Warned "412 response to PUBLISH, recovery failed") ;;
       giveUp
   else if (statusCode =? 423)%Z then
     p <- get ;;
     if negb (JS.strict_eq (pubRequestExpires p) (JS.of_Z 0))
        && hasHeader response "Min-Expires"
     then
       (* typeof minExpires === "number" always holds *)
       let minExpires := NumberOf (getHeader response "Min-Expires") in
       emit (fun _ => Warned "423 code in response to PUBLISH, adjusting the Expires value and trying to recover") ;;
       modify (set_pubRequestExpires minExpires) ;;
       emit (fun _ => Progress) ;;
       publish (options_body p)
     else
       emit (fun _ => Warned "423 response to PUBLISH, recovery failed") ;;
       giveUp
   else giveUp) ;;
  (* Do the cleanup *)
  cleanup.

End WithNumber.

End Publisher.

(** ** User agent ([api/user-agent.ts]) *)

Module UserAgent.

Import Eff.

Inductive UserAgentState : Type :=
| Started
| Stopped.

Definition state_eqb (a b : UserAgentState) : bool :=
  match a, b with
  | Started, Started | Stopped, Stopped => true
  | _, _ => false
  end.

Definition show_state (s : UserAgentState) : string :=
  match s with
  | Started => "Started"
  | Stopped => "Stopped"
  end.

Inductive SIPExtension : Type :=
| Required
| Supported
| Unsupported.

Definition extension_eqb (a b : SIPExtension) : bool :=
  match a, b with
  | Required, Required | Supported, Supported | Unsupported, Unsupported => true
  | _, _ => false
  end.

(** A registerer, session, subscription or publisher held by the user
    agent.  Its [dispose()] returns a promise; [disposeRejects] is the
    error that promise rejects with, if it does.  What [dispose()] does
    inside the client is the client's own code and is not part of this
    model. *)
Record Client : Type := mkClient {
  disposeRejects : option Exn
}.

(** The four collections are objects keyed by id; the list gives the
    entries in the order [for ... in] enumerates them. *)
Abbreviation Collection := (list (string * Client)).

Fixpoint lookup (id : string) (c : Collection) : option Client :=
  match c with
  | [] => None
  | (k, v) :: rest => if String.eqb k id then Some v else lookup id rest
  end.

(** [delete collection[id]] *)
Definition delete (id : string) (c : Collection) : Collection :=
  filter (fun entry => negb (String.eqb (fst entry) id)) c.

Record Delegate : Type := mkDelegate {
  (* whether the delegate has an onInvite handler *)
  onInvite_defined : bool;
  (* the exception that handler throws when it is called, if it does *)
  onInvite_raises : option Exn
}.

(** A dialog of the user agent core, as far as the user agent reads it. *)
Record Dialog : Type := mkDialog {
  early : bool
}.

Record UserAgent : Type := mkUserAgent {
  _state : UserAgentState;
  delegate : option Delegate;
  _publishers : Collection;
  _registerers : Collection;
  _sessions : Collection;
  _subscriptions : Collection;
  (* options *)
  sipjsId : string;
  viaHost : string;
  sipExtensionReplaces : SIPExtension;
  (* the error [transport.dispose()] rejects with, if it does *)
  transportDisposeRejects : option Exn;
  (* userAgentCore.dialogs *)
  dialogs : gmap string Dialog
}.

Definition set_state (v : UserAgentState) (u : UserAgent) : UserAgent :=
  {| _state := v; delegate := delegate u; _publishers := _publishers u;
     _registerers := _registerers u; _sessions := _sessions u;
     _subscriptions := _subscriptions u; sipjsId := sipjsId u;
     viaHost := viaHost u; sipExtensionReplaces := sipExtensionReplaces u;
     transportDisposeRejects := transportDisposeRejects u;
     dialogs := dialogs u |}.

Definition set_publishers (v : Collection) (u : UserAgent) : UserAgent :=
  {| _state := _state u; delegate := delegate u; _publishers := v;
     _registerers := _registerers u; _sessions := _sessions u;
     _subscriptions := _subscriptions u; sipjsId := sipjsId u;
     viaHost := viaHost u; sipExtensionReplaces := sipExtensionReplaces u;
     transportDisposeRejects := transportDisposeRejects u;
     dialogs := dialogs u |}.

Definition set_registerers (v : Collection) (u : UserAgent) : UserAgent :=
  {| _state := _state u; delegate := delegate u; _publishers := _publishers u;
     _registerers := v; _sessions := _sessions u;
     _subscriptions := _subscriptions u; sipjsId := sipjsId u;
     viaHost := viaHost u; sipExtensionReplaces := sipExtensionReplaces u;
     transportDisposeRejects := transportDisposeRejects u;
     dialogs := dialogs u |}.

Definition set_sessions (v : Collection) (u : UserAgent) : UserAgent :=
  {| _state := _state u; delegate := delegate u; _publishers := _publishers u;
     _registerers := _registerers u; _sessions := v;
     _subscriptions := _subscriptions u; sipjsId := sipjsId u;
     viaHost := viaHost u; sipExtensionReplaces := sipExtensionReplaces u;
     transportDisposeRejects := transportDisposeRejects u;
     dialogs := dialogs u |}.

Definition set_subscriptions (v : Collection) (u : UserAgent) : UserAgent :=
  {| _state := _state u; delegate := delegate u; _publishers := _publishers u;
     _registerers := _registerers u; _sessions := _sessions u;
     _subscriptions := v; sipjsId := sipjsId u;
     viaHost := viaHost u; sipExtensionReplaces := sipExtensionReplaces u;
     transportDisposeRejects := transportDisposeRejects u;
     dialogs := dialogs u |}.

Inductive Kind : Type :=
| OfRegisterers
| OfSessions
| OfSubscriptions
| OfPublishers.

(** What the user agent does to its collaborators, in order. *)
Inductive Event : Type :=
| Warned (message : string)
| StateChangeEmitted (s : UserAgentState)
(* shutdown *)
| DisposeCalled (k : Kind) (id : string)
| DisposeSettled (k : Kind) (id : string) (rejected : option Exn)
| TransportDisposeCalled
| TransportDisposeSettled (rejected : option Exn)
| CoreDisposed
(* incoming INVITE *)
| InvitationConstructed
| TryingSent
| InvitationRejected (statusCode : Z)
| ReplaceeSet (session : Client)
| ProgressSent
| DelegateOnInvite.

Abbreviation M := (Eff.M UserAgent Event).
Local Open Scope eff_scope.

Definition validTransition (from to : UserAgentState) : bool :=
  match from with
  | Started => negb (negb (state_eqb to Stopped))
  | Stopped => negb (negb (state_eqb to Started))
  end.

Definition transitionState (newState : UserAgentState) : M unit :=
  u <- get ;;
  if negb (validTransition (_state u) newState)
  then throw (Error ("Invalid state transition from " ++ show_state (_state u)
                     ++ " to " ++ show_state newState))
  else
    modify (set_state newState) ;;
    emit (fun _ => StateChangeEmitted newState).

(** One of the four loops of [stop()]:
    [for (const id in snapshot) await snapshot[id].dispose().catch(...)].
    [forget id] is the [delete this._xs[id]] of the catch handler. *)
Fixpoint disposeEach (k : Kind) (forget : string -> UserAgent -> UserAgent)
    (snapshot : Collection) : M unit :=
  match snapshot with
  | [] => ret tt
  | (id, client) :: rest =>
      emit (fun _ => DisposeCalled k id) ;;
      emit (fun _ => DisposeSettled k id (disposeRejects client)) ;;
      match disposeRejects client with
      | Some error => modify (forget id) ;; throw error
      | None => disposeEach k forget rest
      end
  end.

(** [stop()]; a [Throw] is the rejection of the promise it returns. *)
Definition stop : M unit :=
  u <- get ;;
  if state_eqb (_state u) Stopped
  then emit (fun _ => Warned "User agent already stopped")
  else
    (* Transition state *)
    transitionState Stopped ;;
    (* local references *)
    u <- get ;;
    let publishers := _publishers u in
    let registerers := _registerers u in
    let sessions := _sessions u in
    let subscriptions := _subscriptions u in
    disposeEach OfRegisterers
      (fun id u => set_registerers (delete id (_registerers u)) u) registerers ;;
    disposeEach OfSessions
      (fun id u => set_sessions (delete id (_sessions u)) u) sessions ;;
    disposeEach OfSubscriptions
      (fun id u => set_subscriptions (delete id (_subscriptions u)) u) subscriptions ;;
    disposeEach OfPublishers
      (fun id u => set_publishers (delete id (_publishers u)) u) publishers ;;
    (* Dispose of the transport (disconnecting) *)
    emit (fun _ => TransportDisposeCalled) ;;
    emit (fun _ => TransportDisposeSettled (transportDisposeRejects u)) ;;
    match transportDisposeRejects u with
    | Some error => throw error
    | None =>
        (* Dispose of the user agent core (resetting) *)
        emit (fun _ => CoreDisposed)
    end.

(** *** Incoming messages *)

Record IncomingRequestMessage : Type := mkRequest {
  hasHeader : string -> bool;
  getHeader : string -> option string;
  toTag : option string;
  callId : string;
  body : string
}.

Record IncomingResponseMessage : Type := mkResponse {
  r_hasHeader : string -> bool;
  r_getHeader : string -> option string;
  (* getHeaders("via").length, via.host, via.port *)
  r_viaCount : nat;
  r_viaHost : string;
  r_viaPort : option Z;
  r_body : string
}.

Inductive IncomingMessage : Type :=
| Request (m : IncomingRequestMessage)
| Response (m : IncomingResponseMessage).

(** What [onTransportMessage] does with a message. *)
Inductive Handling : Type :=
| Dropped (why : string)
| RepliedStateless (statusCode : Z)
| RequestToCore      (* userAgentCore.receiveIncomingRequestFromTransport *)
| ResponseToCore.    (* userAgentCore.receiveIncomingResponseFromTransport *)

Definition mandatoryHeaders : list string :=
  ["from"; "to"; "call_id"; "cseq"; "via"].

(** Modelled from the spec: [str_utf8_length] of [core/messages/utils]
    is not among the sources; the specification gives it as the UTF-8
    byte length of the body.  Bodies are held as their UTF-8 bytes. *)
Definition str_utf8_length (body : string) : Z := Z.of_nat (String.length body).

Section WithNumber.

(** [Number(s)] on a header value. *)
Variable Number : string -> JS.number.

Definition lengthMismatch (body : string) (contentLength : option string) : bool :=
  match contentLength with
  | Some v =>
      JS.truthy contentLength
      && JS.lt (JS.of_Z (str_utf8_length body)) (Number v)
  | None => false
  end.

(** [onTransportMessage], from the result of [Parser.parseMessage]. *)
Definition onTransportMessage (u : UserAgent) (parsed : option IncomingMessage)
    : Handling :=
  match parsed with
  | None => Dropped "Failed to parse incoming message. Dropping."
  | Some (Request message) =>
      if state_eqb (_state u) Stopped
      then Dropped "Received request while stopped. Dropping."
      else if negb (forallb (hasHeader message) mandatoryHeaders)
      then Dropped "Request missing mandatory header field. Dropping."
      else if negb (JS.truthy (toTag message))
              && String.eqb (String.substring 0 5 (callId message)) (sipjsId u)
      then RepliedStateless 482
      else if lengthMismatch (body message) (getHeader message "content-length")
      then RepliedStateless 400
      else RequestToCore
  | Some (Response message) =>
      if negb (forallb (r_hasHeader message) mandatoryHeaders)
      then Dropped "Response missing mandatory header field. Dropping."
      else if (1 <? r_viaCount message)%nat
      then Dropped "More than one Via header field present in the response. Dropping."
      else if negb (String.eqb (r_viaHost message) (viaHost u))
              || isSome (r_viaPort message)
      then Dropped "Via sent-by in the response does not match UA Via host value. Dropping."
      else if lengthMismatch (r_body message) (r_getHeader message "content-length")
      then Dropped "Message body length is lower than the value in Content-Length header field. Dropping."
      else ResponseToCore
  end.

End WithNumber.

(** *** Incoming INVITE *)

(** The parsed Replaces header; a field the grammar did not fill is
    [undefined]. *)
Record Replaces : Type := mkReplaces {
  call_id : option string;
  replaces_to_tag : option string;
  replaces_from_tag : option string;
  early_only : option bool
}.

Record IncomingInviteRequest : Type := mkInvite {
  (* message.parseHeader("replaces") *)
  replaces : option Replaces;
  (* invitation.autoSendAnInitialProvisionalResponse *)
  autoSendAnInitialProvisionalResponse : bool;
  (* whether the promise of invitation.progress() resolves *)
  progressResolves : bool
}.

(** The Replaces block of [onInvite]: [Some code] is the early return
    after [invitation.reject({ statusCode: code })]. *)
Definition checkReplaces (header : Replaces) : M (option Z) :=
  match call_id header with
  | None => throw (Error "Type of call id is not string")
  | Some callId =>
      match replaces_to_tag header with
      | None => throw (Error "Type of to tag is not string")
      | Some toTag =>
          match replaces_from_tag header with
          | None => throw (Error "type of from tag is not string")
          | Some fromTag =>
              u <- get ;;
              let targetDialogId := callId ++ toTag ++ fromTag in
              match dialogs u !! targetDialogId with
              | None =>
                  emit (fun _ => InvitationRejected 481) ;;
                  ret (Some 481%Z)
              | Some targetDialog =>
                  if negb (early targetDialog)
                     && bool_decide (early_only header = Some true)
                  then emit (fun _ => InvitationRejected 486) ;;
                       ret (Some 486%Z)
                  else
                    let targetSession :=
                      match lookup (callId ++ fromTag) (_sessions u) with
                      | Some session => Some session
                      | None => lookup (callId ++ toTag) (_sessions u)
                      end in
                    match targetSession with
                    | None => throw (Error "Session does not exist.")
                    | Some session =>
                        emit (fun _ => ReplaceeSet session) ;;
                        ret None
                    end
              end
          end
      end
  end.

(** The Replaces checks as a whole: skipped when the extension is
    unsupported or the INVITE carries no Replaces header. *)
Definition replacesChecks (request : IncomingInviteRequest) : M (option Z) :=
  u <- get ;;
  if negb (extension_eqb (sipExtensionReplaces u) Unsupported)
  then match replaces request with
       | Some header => checkReplaces header
       | None => ret None
       end
  else ret None.

(** [userAgentCoreDelegate.onInvite].  [new Invitation], [trying()],
    [reject()] and [progress()] are calls into classes whose code is
    not part of this model: an event records that the call is made,
    and says nothing of what the call does inside those classes.  The
    delegate's handler is the user's code.  Called directly, it runs
    inside [onInvite] with no handler for exceptions around it: what
    it throws, [onInvite] throws.  Called from the continuation of
    [progress()], what it throws rejects the promise of [then], not
    [onInvite]. *)
Definition onInvite (request : IncomingInviteRequest) : M unit :=
  emit (fun _ => InvitationConstructed) ;;
  emit (fun _ => TryingSent) ;;
  rejected <- replacesChecks request ;;
  match rejected with
  | Some _ => ret tt
  | None =>
      u <- get ;;
      let handler := match delegate u with
                     | Some d => onInvite_defined d
                     | None => false
                     end in
      let raised := match delegate u with
                    | Some d => onInvite_raises d
                    | None => None
                    end in
      if negb handler
      then emit (fun _ => InvitationRejected 486)
      else if negb (autoSendAnInitialProvisionalResponse request)
      then
        emit (fun _ => DelegateOnInvite) ;;
        match raised with
        | Some e => throw e
        | None => ret tt
        end
      else
        emit (fun _ => ProgressSent) ;;
        when (progressResolves request) (emit (fun _ => DelegateOnInvite))
  end.

End UserAgent.

(** ** The Authorization header ([DigestAuthentication.toString]) *)

Module DigestHeader.

Import Eff Digest.

(** The double quote. *)
Definition dq : string := String "034"%char "".

(** [name + '="' + value + '"'] *)
Definition quoted (name : string) (value : option string) : string :=
  name ++ "=" ++ dq ++ JS.show value ++ dq.

(** The parameters pushed onto [authParams], in order.  [response]
    holds an object once it is set, [opaque] and [qop] are strings
    tested for truthiness. *)
Definition authParams (d : DigestAuthentication) : list string :=
  app [ "algorithm=" ++ JS.show (algorithm d);
        quoted "username" (username d);
        quoted "realm" (realm d);
        quoted "nonce" (nonce d);
        quoted "uri" (uri d);
        quoted "response" (response d) ]
    (app (if JS.truthy (opaque d) then [quoted "opaque" (opaque d)] else [])
         (if JS.truthy (qop d)
          then [ "qop=" ++ JS.show (qop d);
                 quoted "cnonce" (cnonce d);
                 "nc=" ++ ncHex d ]
          else [])).

(** [toString()]: the Proxy-Authorization or Authorization header
    value. *)
Definition toString (d : DigestAuthentication) : Completion string :=
  if negb (isSome (response d))
  then Throw (Error "response field does not exist, cannot generate Authorization header")
  else Normal ("Digest " ++ String.concat ", " (authParams d)).

End DigestHeader.

(** ** Predicates used in the statements, and sample inputs *)

Module DigestSpec.

Import Digest.

(** The checks [authenticate] makes before it selects a qop: the
    algorithm is absent or "MD5", realm and nonce are present. *)
Definition validated (c : Challenge) : bool :=
  negb (JS.truthy (ch_algorithm c) && negb (String.eqb (JS.show (ch_algorithm c)) "MD5"))
  && JS.truthy (ch_realm c) && JS.truthy (ch_nonce c).

(** The nonce count after one more successful call. *)
Definition next_nc (n : N) : N :=
  if (n + 1 =? 4294967296)%N then 1%N else (n + 1)%N.

(** The three statements of [authenticate] that follow the filling of
    the request fields: count, render, wrap. *)
Definition counted (d : DigestAuthentication) : DigestAuthentication :=
  let d := set_nc (nc d + 1)%N d in
  let d := updateNcHex d in
  if (nc d =? 4294967296)%N then set_ncHex "00000001" (set_nc 1%N d) else d.

(** The objects a program can hold: the constructed one and those
    left by calls of [authenticate], successful or not. *)
Inductive reachable (MD5 : string -> string) : DigestAuthentication -> Prop :=
| reachable_constructor (user pass : option string) :
    reachable MD5 (constructor user pass)
| reachable_authenticate (d : DigestAuthentication)
    (request : OutgoingRequestMessage) (challenge : Challenge)
    (body : option string) (token : string) :
    reachable MD5 d ->
    reachable MD5 (snd (authenticate MD5 d request challenge body token)).

(** A stand-in for the digest function in the examples. *)
Definition sample_MD5 (s : string) : string := "<" ++ s ++ ">".

Definition sample_request : OutgoingRequestMessage :=
  {| req_method := "REGISTER"; req_ruri := "sip:example.com" |}.

Definition sample_challenge : Challenge :=
  {| ch_algorithm := Some "MD5"; ch_realm := Some "example.com";
     ch_nonce := Some "abcdef"; ch_opaque := None; ch_stale := None;
     ch_qop := Some (QopArray ["auth-int"; "auth"]) |}.

(** An object one call away from the wrap of the nonce count. *)
Definition sample_last : DigestAuthentication :=
  set_ncHex "ffffffff" (set_nc 4294967295%N (constructor (Some "alice") (Some "secret"))).

Definition sample_challenge_int : Challenge :=
  {| ch_algorithm := None; ch_realm := Some "example.com";
     ch_nonce := Some "abcdef"; ch_opaque := None; ch_stale := None;
     ch_qop := Some (QopArray ["auth-int"]) |}.

Definition sample_challenge_other : Challenge :=
  {| ch_algorithm := None; ch_realm := Some "example.com";
     ch_nonce := Some "abcdef"; ch_opaque := None; ch_stale := None;
     ch_qop := Some (QopArray ["token"]) |}.

(** A challenge offering "auth" under another algorithm. *)
Definition sample_challenge_sha : Challenge :=
  {| ch_algorithm := Some "SHA-256"; ch_realm := Some "example.com";
     ch_nonce := Some "abcdef"; ch_opaque := None; ch_stale := None;
     ch_qop := Some (QopArray ["auth"]) |}.

End DigestSpec.

Module TransportSpec.

Import Eff Transport.

(** The promise fields agree with the state: a connect promise exists
    only while connecting, a disconnect promise only while
    disconnecting. *)
Definition consistent (t : Transport) : Prop :=
  (connectPromise t <> None -> _state t = Connecting) /\
  (disconnectPromise t <> None -> _state t = Disconnecting).

(** No connect or disconnect promise is held. *)
Definition quiet (t : Transport) : Prop :=
  connectPromise t = None /\ disconnectPromise t = None.

(** A transition function that refuses to start while the flag is set,
    as [transitionState] does in its first statement. *)
Definition guarded (nested : TransportState -> option Exn -> Transport.M unit) : Prop :=
  forall (s : TransportState) (e : option Exn) (t : Transport),
    transitioningState t = true -> nested s e t = (Throw loopDetected, t, []).

(** The value of [transitioningState] recorded by a notification or a
    promise completion. *)
Definition flagSeen (ev : Event) : option bool :=
  match ev with
  | StateChangeEmitted _ f | OnConnectCalled f | OnDisconnectCalled _ f
  | LegacyEmitted _ f | ConnectCompleted _ f | DisconnectCompleted _ f => Some f
  | ObserverCalled _ _ | WebSocketCreated _ | WebSocketCloseCalled _ => None
  end.

(** The flag was set when the event happened. *)
Definition held (ev : Event) : Prop := flagSeen ev <> Some false.

(** A call made by an observer was answered with a promise rejected
    with the loop error. *)
Definition refused (ev : Event) : Prop :=
  forall (a : Action) (answer : Completion PromiseRef),
    ev = ObserverCalled a answer -> answer = Normal (Rejected loopDetected).

(** No WebSocket was created or closed. *)
Definition socketless (ev : Event) : Prop :=
  match ev with
  | WebSocketCreated _ | WebSocketCloseCalled _ => False
  | _ => True
  end.

(** What holds of every event of a transition.  [W] says whether the
    transport was [consistent] to begin with; if it was not, a call made
    by an observer may instead throw one of the sanity errors of
    [_connect] and [_disconnect]. *)
Definition during (W : Prop) (ev : Event) : Prop :=
  match ev with
  | StateChangeEmitted _ f | OnConnectCalled f | OnDisconnectCalled _ f
  | LegacyEmitted _ f | ConnectCompleted _ f | DisconnectCompleted _ f => f = true
  | ObserverCalled _ answer =>
      (answer = Normal (Rejected loopDetected) \/ exists m, answer = Throw (Error m))
      /\ (W -> answer = Normal (Rejected loopDetected))
  | WebSocketCreated _ | WebSocketCloseCalled _ => False
  end.

Section Reachable.

Variable keepAliveConfigured : bool.
Variable webSocketThrows : option Exn.
Variable stateChangeListener : TransportState -> list Action.
Variable onConnect : option (list Action).
Variable onDisconnect : option (option Exn -> list Action).
Variable legacyListener : TransportState -> list Action.

(** The transports a program can reach: the constructed one, and
    those left by the public calls, the WebSocket events and the
    continuation of a failed construction. *)
Inductive reachable : Transport -> Prop :=
| reachable_constructor : reachable constructor
| reachable_connect (n : nat) (t : Transport) :
    reachable t ->
    reachable (snd (fst (connect keepAliveConfigured webSocketThrows
                           stateChangeListener onConnect onDisconnect
                           legacyListener (S (S n)) t)))
| reachable_disconnect (n : nat) (t : Transport) :
    reachable t ->
    reachable (snd (fst (disconnect keepAliveConfigured webSocketThrows
                           stateChangeListener onConnect onDisconnect
                           legacyListener (S (S n)) t)))
| reachable_open (n ws : nat) (t : Transport) :
    reachable t ->
    reachable (snd (fst (onWebSocketOpen keepAliveConfigured webSocketThrows
                           stateChangeListener onConnect onDisconnect
                           legacyListener (S (S n)) ws t)))
| reachable_close (n ws : nat) (message : string) (t : Transport) :
    reachable t ->
    reachable (snd (fst (onWebSocketClose keepAliveConfigured webSocketThrows
                           stateChangeListener onConnect onDisconnect
                           legacyListener (S (S n)) message ws t)))
| reachable_failed (n : nat) (error : Exn) (t : Transport) :
    reachable t ->
    reachable (snd (fst (constructionFailed keepAliveConfigured webSocketThrows
                           stateChangeListener onConnect onDisconnect
                           legacyListener (S (S n)) error t))).

End Reachable.

(** Claim C1 as it is worded: the flag is already cleared when observers
    are notified and promises completed, and a call made by an observer
    is accepted, not rejected. *)
Definition cleared (ev : Event) : Prop := flagSeen ev <> Some true.

Definition accepted (ev : Event) : Prop :=
  forall (a : Action) (answer : Completion PromiseRef),
    ev = ObserverCalled a answer ->
    exists p, answer = Normal p /\ forall e, p <> Rejected e.

(** Sample observers: a state-change listener that calls [connect()]
    again as soon as it is told the transport is connecting. *)
Definition eager_listener (s : TransportState) : list Action :=
  match s with
  | Connecting => [CallConnect]
  | _ => []
  end.

Definition silent (s : TransportState) : list Action := [].

(** [connect()] on a fresh transport with the eager listener. *)
Definition eager_run : Completion PromiseRef * Transport * list Event :=
  connect false None eager_listener None None silent 2 constructor.

(** A transport in the middle of its transition to Connecting. *)
Definition sample_in_flight : Transport :=
  set_transitioningState true (set_state Connecting constructor).

End TransportSpec.

Module PublisherSpec.

Import Eff Publisher.

Section WithNumber.

Variable Number : string -> JS.number.

(** The effective expires as the specification words it: the
    response's Expires when it is a number between 0 and the requested
    value inclusive, otherwise the requested value. *)
Definition effective (response : IncomingResponseMessage) (requested : JS.number)
    : JS.number :=
  if hasHeader response "Expires" then
    let e := NumberOf Number (getHeader response "Expires") in
    if JS.ge e (JS.of_Z 0) && JS.le e requested then e else requested
  else requested.

(** The warnings of the 200-class case. *)
Definition warnings (response : IncomingResponseMessage) (requested : JS.number)
    : list Event :=
  ((if hasHeader response "SIP-ETag" then []
    else [Warned "SIP-ETag header missing in a 200-class response to PUBLISH"])
   ++ (if hasHeader response "Expires" then
         let e := NumberOf Number (getHeader response "Expires") in
         if JS.ge e (JS.of_Z 0) && JS.le e requested then []
         else [Warned "Bad Expires header in a 200-class response to PUBLISH"]
       else [Warned "Expires header missing in a 200-class response to PUBLISH"]))%list.

End WithNumber.

(** The tag held after a 200-class response: the SIP-ETag header value
    when present, otherwise the tag held before. *)
Definition stored (response : IncomingResponseMessage) (p : Publisher) : option string :=
  if hasHeader response "SIP-ETag" then getHeader response "SIP-ETag"
  else pubRequestEtag p.

(** A 200 response carrying SIP-ETag "abc" and Expires 3600. *)
Definition ok_response : IncomingResponseMessage :=
  {| statusCode := Some 200%Z;
     hasHeader := fun name => String.eqb name "SIP-ETag" || String.eqb name "Expires";
     getHeader := fun name =>
       if String.eqb name "SIP-ETag" then Some "abc"
       else if String.eqb name "Expires" then Some "3600"
       else None |}.

Definition after {A} (r : Completion A * Publisher * list Event) : Publisher :=
  snd (fst r).

(** The scenario of the specification: publish("state"), 200 with the
    tag and Expires 3600, then the refresh timer fires. *)
Definition fresh : Publisher := constructor None (JS.of_Z 3600) true.
Definition sent : Publisher := after (publish (Some "state") fresh).
Definition published : Publisher :=
  after (receiveResponse JS.NumberDec ok_response sent).
Definition refreshing : Publisher := after (refreshRequest published).

End PublisherSpec.

Module UserAgentSpec.

Import Eff UserAgent.





(** How [stop()] ends for a given first rejection. *)
Definition outcome (rejected : option Exn) : Completion unit :=
  match rejected with
  | Some e => Throw e
  | None => Normal tt
  end.



(** The conditions of the request path, as the specification words
    them. *)
Definition missingMandatory (m : IncomingRequestMessage) : Prop :=
  exists name, In name ["from"; "to"; "call_id"; "cseq"; "via"]
               /\ hasHeader m name = false.

Definition selfLoop (u : UserAgent) (m : IncomingRequestMessage) : Prop :=
  JS.truthy (toTag m) = false /\ String.substring 0 5 (callId m) = sipjsId u.

Definition tooShort (Number : string -> JS.number) (m : IncomingRequestMessage) : Prop :=
  exists declared, getHeader m "content-length" = Some declared
                   /\ declared <> ""
                   /\ JS.lt (JS.of_Z (str_utf8_length (body m))) (Number declared) = true.

Definition isDropped (h : Handling) : Prop := exists why, h = Dropped why.

Definition obedient : Client := {| disposeRejects := None |}.

Definition agent (state : UserAgentState) (registerers : Collection) : UserAgent :=
  {| _state := state; delegate := None;
     _publishers := [("sip:bob@example.com:presence", obedient)];
     _registerers := registerers;
     _sessions := [("call1tag1", obedient)];
     _subscriptions := [];
     sipjsId := "abcde"; viaHost := "host.invalid";
     sipExtensionReplaces := Supported;
     transportDisposeRejects := None;
     dialogs := {[ "call1tag2tag1" := {| early := false |} ]} |}.

(** A request with every mandatory header, no to-tag, a Call-ID that
    starts with the sample agent's id, and no Content-Length. *)
Definition looped : IncomingRequestMessage :=
  {| hasHeader := fun name => existsb (String.eqb name) mandatoryHeaders;
     getHeader := fun _ => None;
     toTag := None;
     callId := "abcde0123456789";
     body := "" |}.

Definition unknown_target : Replaces :=
  {| call_id := Some "call9"; replaces_to_tag := Some "a";
     replaces_from_tag := Some "b"; early_only := None |}.

Definition confirmed_target : Replaces :=
  {| call_id := Some "call1"; replaces_to_tag := Some "tag2";
     replaces_from_tag := Some "tag1"; early_only := Some true |}.

(** A Replaces header that names a call but carries no to-tag. *)
Definition untagged_target : Replaces :=
  {| call_id := Some "call9"; replaces_to_tag := None;
     replaces_from_tag := Some "b"; early_only := None |}.

Definition invite (header : option Replaces) : IncomingInviteRequest :=
  {| replaces := header; autoSendAnInitialProvisionalResponse := true;
     progressResolves := true |}.

End UserAgentSpec.

Module DigestUse.

Import Eff Digest DigestHeader.

(** One use of [authenticate]: the request being retried, the
    challenge received, the body and the client nonce drawn. *)
Record Call : Type := mkCall {
  call_request : OutgoingRequestMessage;
  call_challenge : Challenge;
  call_body : option string;
  call_token : string
}.

(** A client answering a series of challenges with one object: the
    results of the calls, in order, and the object left. *)
Fixpoint authenticateAll (MD5 : string -> string) (d : DigestAuthentication)
    (calls : list Call) : list bool * DigestAuthentication :=
  match calls with
  | [] => ([], d)
  | c :: rest =>
      let (ok, d1) := authenticate MD5 d (call_request c) (call_challenge c)
                        (call_body c) (call_token c) in
      let (oks, d2) := authenticateAll MD5 d1 rest in
      (ok :: oks, d2)
  end.

(** The number of calls that succeeded. *)
Fixpoint successes (oks : list bool) : N :=
  match oks with
  | [] => 0%N
  | ok :: rest => ((if ok then 1 else 0) + successes rest)%N
  end.

(** The nonce count after [k] successful calls: 1, 2, ... up to
    2^32 - 1, then 1 again. *)
Definition countAfter (k : N) : N :=
  if (k =? 0)%N then 0%N else ((k - 1) mod 4294967295 + 1)%N.

(** What a call that returns false leaves alone. *)
Definition untouched (d d' : DigestAuthentication) : Prop :=
  nc d' = nc d /\ ncHex d' = ncHex d /\ cnonce d' = cnonce d /\
  response d' = response d /\ qop d' = qop d /\ method d' = method d /\
  uri d' = uri d /\ username d' = username d /\ password d' = password d.

End DigestUse.

Module PublisherUse.

Import Eff Publisher PublisherSpec.






End PublisherUse.

Module UserAgentUse.

Import Eff UserAgent UserAgentSpec.

(** The conditions of the response path. *)
Definition responseLacksHeader (m : IncomingResponseMessage) : Prop :=
  exists name, In name ["from"; "to"; "call_id"; "cseq"; "via"]
               /\ r_hasHeader m name = false.

Definition responseTooShort (Number : string -> JS.number)
    (m : IncomingResponseMessage) : Prop :=
  exists declared, r_getHeader m "content-length" = Some declared
                   /\ declared <> ""
                   /\ JS.lt (JS.of_Z (str_utf8_length (r_body m))) (Number declared) = true.

(** The Via of the response is the one this user agent put on its
    requests: no more than one Via, its host the configured one, no
    port. *)
Definition ownVia (u : UserAgent) (m : IncomingResponseMessage) : Prop :=
  r_viaCount m <= 1 /\ r_viaHost m = viaHost u /\ r_viaPort m = None.

(** How often an INVITE was rejected, and how often handed to the
    delegate. *)
Definition rejections (evs : list Event) : nat :=
  length (List.filter (fun ev => match ev with InvitationRejected _ => true | _ => false end)
            evs).

Definition deliveries (evs : list Event) : nat :=
  length (List.filter (fun ev => match ev with DelegateOnInvite => true | _ => false end)
            evs).

(** The end of [onInvite], reached when the Replaces checks neither
    rejected nor threw. *)
Definition afterChecks (request : IncomingInviteRequest) : M unit :=
  (u <- get ;;
   let handler := match delegate u with
                  | Some d => onInvite_defined d
                  | None => false
                  end in
   let raised := match delegate u with
                 | Some d => onInvite_raises d
                 | None => None
                 end in
   if negb handler
   then emit (fun _ => InvitationRejected 486)
   else if negb (autoSendAnInitialProvisionalResponse request)
   then
     emit (fun _ => DelegateOnInvite) ;;
     match raised with
     | Some e => throw e
     | None => ret tt
     end
   else
     emit (fun _ => ProgressSent) ;;
     when (progressResolves request) (emit (fun _ => DelegateOnInvite)))%eff.

(** A delegate whose handler throws, the sample user agent with that
    delegate, and an INVITE without a Replaces header that is to be
    handed over directly. *)
Definition clumsy : Delegate :=
  {| onInvite_defined := true; onInvite_raises := Some (Error "handler failed") |}.

Definition attended : UserAgent :=
  let u := agent Started [] in
  {| _state := _state u; delegate := Some clumsy;
     _publishers := _publishers u; _registerers := _registerers u;
     _sessions := _sessions u; _subscriptions := _subscriptions u;
     sipjsId := sipjsId u; viaHost := viaHost u;
     sipExtensionReplaces := sipExtensionReplaces u;
     transportDisposeRejects := transportDisposeRejects u;
     dialogs := dialogs u |}.

Definition plain_invite : IncomingInviteRequest :=
  {| replaces := None; autoSendAnInitialProvisionalResponse := false;
     progressResolves := true |}.

(** A response with every mandatory header and the sample agent's
    Via. *)
Definition answer : IncomingResponseMessage :=
  {| r_hasHeader := fun name => existsb (String.eqb name) mandatoryHeaders;
     r_getHeader := fun _ => None;
     r_viaCount := 1; r_viaHost := "host.invalid"; r_viaPort := None;
     r_body := "" |}.

End UserAgentUse.

Module TransportDriver.

Import Eff Transport TransportSpec.
Local Open Scope eff_scope.

(** An observer that makes calls but raises no exception. *)
Definition harmless (script : list Action) : Prop :=
  Forall (fun a => match a with Raise _ => False | _ => True end) script.

(** What the observers of a transition are told when they call
    [connect()] or [disconnect()] on a consistent transport. *)
Definition answers (script : list Action) : list Event :=
  map (fun a => ObserverCalled a (Normal (Rejected loopDetected))) script.

(** What can happen to a transport: a call made by the program, an
    event of its WebSocket, or the continuation attached by a
    [connect()] whose WebSocket could not be constructed. *)
Inductive Stimulus : Type :=
| Connect
| Disconnect
| SocketOpened (ws : nat)
| SocketClosed (ws : nat) (message : string)
| ConstructionFailed (error : Exn).

(** The stimuli other than the continuation of a failed construction. *)
Definition ordinary (s : Stimulus) : Prop :=
  match s with
  | ConstructionFailed _ => False
  | _ => True
  end.

Section WithEnvironment.

Variable keepAliveConfigured : bool.
Variable webSocketThrows : option Exn.
Variable stateChangeListener : TransportState -> list Action.
Variable onConnect : option (list Action).
Variable onDisconnect : option (option Exn -> list Action).
Variable legacyListener : TransportState -> list Action.

(** No observer raises an exception. *)
Definition wellBehaved : Prop :=
  (forall s, harmless (stateChangeListener s)) /\
  (forall callback, onConnect = Some callback -> harmless callback) /\
  (forall callback error, onDisconnect = Some callback -> harmless (callback error)) /\
  (forall s, harmless (legacyListener s)).

(** The transport's reaction to one stimulus; the value is the
    promise handed back by [connect()] or [disconnect()]. *)
Definition fire (fuel : nat) (s : Stimulus) : M (option PromiseRef) :=
  match s with
  | Connect =>
      p <- connect keepAliveConfigured webSocketThrows stateChangeListener
             onConnect onDisconnect legacyListener fuel ;;
      ret (Some p)
  | Disconnect =>
      p <- disconnect keepAliveConfigured webSocketThrows stateChangeListener
             onConnect onDisconnect legacyListener fuel ;;
      ret (Some p)
  | SocketOpened ws =>
      onWebSocketOpen keepAliveConfigured webSocketThrows stateChangeListener
        onConnect onDisconnect legacyListener fuel ws ;;
      ret None
  | SocketClosed ws message =>
      onWebSocketClose keepAliveConfigured webSocketThrows stateChangeListener
        onConnect onDisconnect legacyListener fuel message ws ;;
      ret None
  | ConstructionFailed error =>
      constructionFailed keepAliveConfigured webSocketThrows stateChangeListener
        onConnect onDisconnect legacyListener fuel error ;;
      ret None
  end.

(** A series of stimuli, each a turn of its own: an exception
    thrown in one does not prevent the later ones.  The result is
    the transport left and how each turn ended. *)
Fixpoint fireAll (fuel : nat) (series : list Stimulus) (t : Transport)
    : Transport * list (Completion (option PromiseRef)) :=
  match series with
  | [] => (t, [])
  | s :: rest =>
      match fire fuel s t with
      | (r, t1, _) =>
          let (t2, rs) := fireAll fuel rest t1 in (t2, r :: rs)
      end
  end.

End WithEnvironment.

(** The transport without observers. *)
Definition fireQuietly (keepAliveConfigured : bool) (webSocketThrows : option Exn)
    : Stimulus -> M (option PromiseRef) :=
  fire keepAliveConfigured webSocketThrows silent None None silent 1.

(** The shape of a transport between turns when nothing has gone
    wrong: no transition in flight; a connect promise, pending and
    with its two completions, exactly while Connecting; a disconnect
    promise likewise exactly while Disconnecting; a WebSocket in every
    state but Disconnected; the keep-alive timer only while
    Connected. *)
Definition pendingPromise (t : Transport) (p r j : option nat) : Prop :=
  exists id, p = Some id /\ r = Some id /\ j = Some id
             /\ promises t !! id = Some Pending.

Definition noPromise (p r j : option nat) : Prop :=
  p = None /\ r = None /\ j = None.

Definition sound (t : Transport) : Prop :=
  transitioningState t = false /\
  (keepAliveInterval t = true -> _state t = Connected) /\
  (forall ws, _ws t = Some ws -> ws < sockets t) /\
  match _state t with
  | Connecting =>
      pendingPromise t (connectPromise t) (connectResolve t) (connectReject t) /\
      noPromise (disconnectPromise t) (disconnectResolve t) (disconnectReject t) /\
      _ws t <> None
  | Connected =>
      noPromise (connectPromise t) (connectResolve t) (connectReject t) /\
      noPromise (disconnectPromise t) (disconnectResolve t) (disconnectReject t) /\
      _ws t <> None
  | Disconnecting =>
      noPromise (connectPromise t) (connectResolve t) (connectReject t) /\
      pendingPromise t (disconnectPromise t) (disconnectResolve t) (disconnectReject t) /\
      _ws t <> None
  | Disconnected =>
      noPromise (connectPromise t) (connectResolve t) (connectReject t) /\
      noPromise (disconnectPromise t) (disconnectResolve t) (disconnectReject t) /\
      _ws t = None
  end.

(** How a turn ended: without an exception. *)
Definition endedNormally {A} (r : Completion A) : Prop := exists v, r = Normal v.

(** The state machine as a table: the state after a stimulus, where
    the events of a WebSocket count only if it is the current one. *)
Definition react (t : Transport) (s : Stimulus) : TransportState :=
  match s with
  | Connect =>
      match _state t with
      | Disconnected | Disconnecting => Connecting
      | st => st
      end
  | Disconnect =>
      match _state t with
      | Connecting | Connected => Disconnecting
      | st => st
      end
  | SocketOpened ws =>
      match _state t with
      | Connecting => if bool_decide (_ws t = Some ws) then Connected else Connecting
      | st => st
      end
  | SocketClosed ws _ =>
      if bool_decide (_ws t = Some ws) then Disconnected else _state t
  | ConstructionFailed _ => _state t
  end.

(** What one turn does to a sound transport without observers. *)
Definition turn (t : Transport) (s : Stimulus)
    (r : Completion (option PromiseRef)) (t1 : Transport) : Prop :=
  sound t1 /\ _state t1 = react t s /\
  (* the promise handed back *)
  match s with
  | Connect =>
      match _state t1 with
      | Connecting => exists id, r = Normal (Some (Handle id)) /\ connectPromise t1 = Some id
      | _ => r = Normal (Some Resolved)
      end
  | Disconnect =>
      match _state t1 with
      | Disconnecting => exists id, r = Normal (Some (Handle id)) /\ disconnectPromise t1 = Some id
      | _ => r = Normal (Some Resolved)
      end
  | _ => r = Normal None
  end /\
  (* promises: settled ones stay, the pending one of the state left is settled *)
  (forall i o, promises t !! i = Some o -> o <> Pending -> promises t1 !! i = Some o) /\
  (forall id, connectPromise t = Some id -> _state t1 <> Connecting ->
     promises t1 !! id
     = Some (if state_eqb (_state t1) Connected then Fulfilled
             else RejectedWith
                    match s with
                    | SocketClosed _ message => Error message
                    | _ => Error "Connect aborted."
                    end)) /\
  (forall id, disconnectPromise t = Some id -> _state t1 <> Disconnecting ->
     promises t1 !! id
     = Some (if state_eqb (_state t1) Disconnected then Fulfilled
             else RejectedWith (Error "Disconnect aborted."))).

(** Sample observers: one that raises when told the transport is
    connecting, one that calls [disconnect()] then. *)
Definition raising_listener (s : TransportState) : list Action :=
  match s with
  | Connecting => [Raise (Error "observer failed")]
  | _ => []
  end.

Definition hasty_listener (s : TransportState) : list Action :=
  match s with
  | Connecting => [CallDisconnect; CallConnect]
  | _ => []
  end.

(** The constructed transport after [connect()], its WebSocket 0
    created and its promise 0 pending. *)
Definition connecting : Transport :=
  snd (fst (connect false None hasty_listener None None silent 2 constructor)).

(** The constructed transport connected: WebSocket 0 open, promise 0
    fulfilled. *)
Definition settled : Transport :=
  Eval cbv in
    fst (fireAll false None silent None None silent 1 [Connect; SocketOpened 0]
           constructor).

(** A sample series: a connection attempt repeated, opened, shut down
    and replaced by a second connection that is lost in its turn. *)
Definition session : list Stimulus :=
  [Connect; Connect; SocketOpened 0; Disconnect; Connect; SocketClosed 0 "gone";
   SocketOpened 1; SocketClosed 1 "lost"].

End TransportDriver.

(** ** Transport: sending, receiving and keep-alives

    [send], [onWebSocketMessage], [sendKeepAlive] and
    [clearKeepAliveTimeout] of the WebSocket transport, on the transport
    object of [Transport].  Calls to the logger are left out. *)

Module TransportIO.

Import Eff Transport.
Local Open Scope eff_scope.

(** What [ws.send(message)] does: it returns, throws an [Error]
    object, or throws some other value. *)
Inductive SendOutcome : Type :=
| Accepts
| ThrowsError (e : Exn)
| ThrowsOther.

(** The data of a message event: a string, or a binary object, given
    by what [String(data)] shows for it and by the result of
    [String.fromCharCode.apply(null, new Uint8Array(data))] ([None]
    when that throws). *)
Inductive Data : Type :=
| Text (s : string)
| Binary (shown : string) (converted : option string).

(** What the transport does to its WebSocket and to its user. *)
Inductive Traffic : Type :=
| WebSocketSendCalled (ws : nat) (message : string)
| OnMessageCalled (message : string)
| MessageEmitted (message : string).

Abbreviation IO := (Eff.M Transport Traffic).

Definition CR : ascii := "013"%char.
Definition LF : ascii := "010"%char.
Definition CRLF : string := String CR (String LF "").

(** The keep-alive sent: a double CRLF. *)
Definition keepAlive : string := CRLF ++ CRLF.

(** [/^(\r\n)+$/.test(s)] *)
Fixpoint isKeepAliveResponse (s : string) : bool :=
  match s with
  | String c1 (String c2 rest) =>
      Ascii.eqb c1 CR && Ascii.eqb c2 LF
      && match rest with
         | EmptyString => true
         | _ => isKeepAliveResponse rest
         end
  | _ => false
  end.

(** The string the regular expression is tested on. *)
Definition shownAs (data : Data) : string :=
  match data with
  | Text s => s
  | Binary shown _ => shown
  end.

(** [!data] *)
Definition isFalsy (data : Data) : bool :=
  match data with
  | Text s => String.eqb s ""
  | Binary _ _ => false
  end.

(** [finishedData]; [None] when the conversion of binary data threw. *)
Definition finished (data : Data) : option string :=
  match data with
  | Text s => Some s
  | Binary _ converted => converted
  end.

Definition set_debounce (v : bool) (t : Transport) : Transport :=
  set_keepAlive (keepAliveInterval t) v t.

(** [clearKeepAliveTimeout()] *)
Definition clearKeepAliveTimeout : IO unit := modify (set_debounce false).

Section WithEnvironment.

(** Configuration and environment: whether [keepAliveInterval] is
    set, what the WebSocket's [send] does, the [onMessage] callback
    and the listeners of the legacy "message" event. *)
Variable keepAliveConfigured : bool.
Variable wsSend : nat -> string -> SendOutcome.
Variable onMessage : option (string -> IO unit).
Variable messageListener : string -> IO unit.

(** [_send(message)]; the value is the promise returned. *)
Definition _send (message : string) : IO PromiseRef :=
  t <- get ;;
  if negb (state_eqb (_state t) Connected)
  then ret (Rejected (Error "Not connected."))
  else
    match _ws t with
    | None => throw (Error "WebSocket undefined.")
    | Some ws =>
        emit (fun _ => WebSocketSendCalled ws message) ;;
        match wsSend ws message with
        | Accepts => ret Resolved
        | ThrowsError error => ret (Rejected error)
        | ThrowsOther => ret (Rejected (Error "WebSocket send failed."))
        end
    end.

(** [send(message)] *)
Definition send (message : string) : IO PromiseRef := _send message.

(** [sendKeepAlive()] *)
Definition sendKeepAlive : IO PromiseRef :=
  t <- get ;;
  if keepAliveDebounceTimeout t then ret Resolved
  else
    modify (set_debounce true) ;;
    send keepAlive.

(** [onWebSocketMessage(ev, ws)] *)
Definition onWebSocketMessage (data : Data) (ws : nat) : IO unit :=
  t <- get ;;
  if negb (bool_decide (Some ws = _ws t)) then ret tt
  else if isKeepAliveResponse (shownAs data) then clearKeepAliveTimeout
  else if isFalsy data then ret tt
  else
    match finished data with
    | None => ret tt
    | Some finishedData =>
        if negb (state_eqb (_state t) Connected) then ret tt
        else
          match onMessage with
          | Some callback =>
              emit (fun _ => OnMessageCalled finishedData) ;;
              callback finishedData
          | None => ret tt
          end ;;
          emit (fun _ => MessageEmitted finishedData) ;;
          messageListener finishedData
    end.

(** The callback of the keep-alive interval timer. *)
Definition keepAliveDue : IO unit :=
  sendKeepAlive ;;
  modify (startSendingKeepAlives keepAliveConfigured).

(** The callback of the debounce timeout. *)
Definition debounceElapsed : IO unit := clearKeepAliveTimeout.

(** What happens to a connected transport between its transitions:
    the two timers fire and messages arrive. *)
Inductive Beat : Type :=
| KeepAliveDue
| DebounceElapsed
| Received (ws : nat) (data : Data).

Definition beat (b : Beat) : IO unit :=
  match b with
  | KeepAliveDue => keepAliveDue
  | DebounceElapsed => debounceElapsed
  | Received ws data => onWebSocketMessage data ws
  end.

(** A series of beats, each a turn of its own: the transport left
    and everything done to the WebSocket and the user. *)
Fixpoint beats (series : list Beat) (t : Transport) : Transport * list Traffic :=
  match series with
  | [] => (t, [])
  | b :: rest =>
      match beat b t with
      | (_, t1, evs) =>
          let (t2, more) := beats rest t1 in (t2, (evs ++ more)%list)
      end
  end.

End WithEnvironment.

(** The promise [send] returns once [ws.send] has been called. *)
Definition sendPromise (outcome : SendOutcome) : PromiseRef :=
  match outcome with
  | Accepts => Resolved
  | ThrowsError error => Rejected error
  | ThrowsOther => Rejected (Error "WebSocket send failed.")
  end.

(** A callback that does not call back into the transport. *)
Definition detached (callback : string -> IO unit) : Prop :=
  forall message t, exists r, callback message t = (r, t, []).

(** How many keep-alives were handed to a WebSocket. *)
Definition isKeepAliveSent (ev : Traffic) : bool :=
  match ev with
  | WebSocketSendCalled _ message => String.eqb message keepAlive
  | _ => false
  end.

Definition keepAlivesSent (evs : list Traffic) : nat :=
  length (List.filter isKeepAliveSent evs).

(** How many keep-alives may be sent before the next clearance: one
    unless a debounce timeout is armed. *)
Definition free (t : Transport) : nat :=
  if keepAliveDebounceTimeout t then 0 else 1.

(** The beats that clear the debounce timeout of [t]: the timeout
    itself and a CRLF-only message of the current WebSocket. *)
Definition clears (t : Transport) (b : Beat) : bool :=
  match b with
  | KeepAliveDue => false
  | DebounceElapsed => true
  | Received ws data =>
      bool_decide (Some ws = _ws t) && isKeepAliveResponse (shownAs data)
  end.

(** Sample environment: a WebSocket that accepts everything, a
    callback that throws on the message "bad". *)
Definition accepting (ws : nat) (message : string) : SendOutcome := Accepts.

Definition fussy (message : string) : IO unit :=
  if String.eqb message "bad" then throw (Error "bad message") else ret tt.

Definition quietly (message : string) : IO unit := ret tt.

Definition heartbeat : list Beat :=
  [KeepAliveDue; KeepAliveDue; Received 0 (Text "bad"); Received 0 (Text CRLF);
   KeepAliveDue; KeepAliveDue; DebounceElapsed; KeepAliveDue].

End TransportIO.

(** ** Mock session description handler
    ([test/support/api/session-description-handler-mock.ts])

    The object made by [makeMockSessionDescriptionHandler]: its closure
    variables [closed] and [state], the three properties that make one
    call fail, and the fakes of [close], [getDescription],
    [hasDescription], [rollbackDescription] and [setDescription].  The
    record of calls kept by the spies is left out. *)

Module MockSDH.

Import Eff.

Inductive SignalingState : Type :=
| Stable
| HasLocalOffer
| HasRemoteOffer.

Definition show_state (s : SignalingState) : string :=
  match s with
  | Stable => "stable"
  | HasLocalOffer => "has-local-offer"
  | HasRemoteOffer => "has-remote-offer"
  end.

(** [id] is held as the text the template literals show for it. *)
Record Mock : Type := mkMock {
  name : string;
  id : string;
  closed : bool;
  state : SignalingState;
  (* the properties set by tests, read for truthiness *)
  getDescriptionRejectOnce : bool;
  getDescriptionUndefinedBodyOnce : bool;
  setDescriptionRejectOnce : bool
}.

(** [makeMockSessionDescriptionHandler(name, id)] *)
Definition makeMockSessionDescriptionHandler (name id : string) : Mock :=
  {| name := name; id := id; closed := false; state := Stable;
     getDescriptionRejectOnce := false; getDescriptionUndefinedBodyOnce := false;
     setDescriptionRejectOnce := false |}.

Definition set_closed (v : bool) (m : Mock) : Mock :=
  {| name := name m; id := id m; closed := v; state := state m;
     getDescriptionRejectOnce := getDescriptionRejectOnce m;
     getDescriptionUndefinedBodyOnce := getDescriptionUndefinedBodyOnce m;
     setDescriptionRejectOnce := setDescriptionRejectOnce m |}.

Definition set_state (v : SignalingState) (m : Mock) : Mock :=
  {| name := name m; id := id m; closed := closed m; state := v;
     getDescriptionRejectOnce := getDescriptionRejectOnce m;
     getDescriptionUndefinedBodyOnce := getDescriptionUndefinedBodyOnce m;
     setDescriptionRejectOnce := setDescriptionRejectOnce m |}.

Definition set_getDescriptionRejectOnce (v : bool) (m : Mock) : Mock :=
  {| name := name m; id := id m; closed := closed m; state := state m;
     getDescriptionRejectOnce := v;
     getDescriptionUndefinedBodyOnce := getDescriptionUndefinedBodyOnce m;
     setDescriptionRejectOnce := setDescriptionRejectOnce m |}.

Definition set_getDescriptionUndefinedBodyOnce (v : bool) (m : Mock) : Mock :=
  {| name := name m; id := id m; closed := closed m; state := state m;
     getDescriptionRejectOnce := getDescriptionRejectOnce m;
     getDescriptionUndefinedBodyOnce := v;
     setDescriptionRejectOnce := setDescriptionRejectOnce m |}.

Definition set_setDescriptionRejectOnce (v : bool) (m : Mock) : Mock :=
  {| name := name m; id := id m; closed := closed m; state := state m;
     getDescriptionRejectOnce := getDescriptionRejectOnce m;
     getDescriptionUndefinedBodyOnce := getDescriptionUndefinedBodyOnce m;
     setDescriptionRejectOnce := v |}.

(** What a call gives back. *)
Inductive Value : Type :=
| Undefined
| Boolean (b : bool)
| BodyAndContentType (contentType body : string).

(** How a call ends: it returns a value, returns a promise that is
    fulfilled with a value, returns a rejected promise, or throws. *)
Inductive Outcome : Type :=
| Returns (v : Value)
| Fulfils (v : Value)
| Rejects (e : Exn)
| Throws (e : Exn).

(** The head of every message: [SDH.<method>[name][id]]. *)
Definition tag (method : string) (m : Mock) : string :=
  "SDH." ++ method ++ "[" ++ name m ++ "][" ++ id m ++ "]".

Definition closedError (method : string) (m : Mock) : Exn :=
  Error (tag method m ++ " SDH closed").

Definition testFailure (method : string) (m : Mock) : Exn :=
  Error (tag method m ++ " SDH test failure").

(** The message is built after the switch has been entered, with
    [state] unchanged: it names the same state twice. *)
Definition invalidTransition (method : string) (m : Mock) : Exn :=
  Error (tag method m ++ " " ++ show_state (state m) ++ " => " ++ show_state (state m)
         ++ " Invalid SDH state transition").

(** [close()] *)
Definition close (m : Mock) : Outcome * Mock :=
  (Returns Undefined, set_closed true m).

(** The end of [getDescription()]: the body is emptied once if
    [getDescriptionUndefinedBodyOnce] is set. *)
Definition describe (body : string) (m : Mock) : Outcome * Mock :=
  if getDescriptionUndefinedBodyOnce m
  then (Fulfils (BodyAndContentType "application/sdp" ""),
        set_getDescriptionUndefinedBodyOnce false m)
  else (Fulfils (BodyAndContentType "application/sdp" body), m).

(** [getDescription()] *)
Definition getDescription (m : Mock) : Outcome * Mock :=
  if closed m then (Throws (closedError "getDescription" m), m)
  else if getDescriptionRejectOnce m
  then (Rejects (testFailure "getDescription" m), set_getDescriptionRejectOnce false m)
  else
    match state m with
    | Stable => describe "SDP OFFER" (set_state HasLocalOffer m)
    | HasLocalOffer => (Throws (invalidTransition "getDescription" m), m)
    | HasRemoteOffer => describe "SDP ANSWER" (set_state Stable m)
    end.

(** [hasDescription(contentType)] *)
Definition hasDescription (contentType : string) (m : Mock) : Outcome * Mock :=
  if closed m then (Throws (closedError "hasDescription" m), m)
  else (Returns (Boolean (String.eqb contentType "application/sdp")), m).

(** [rollbackDescription()] *)
Definition rollbackDescription (m : Mock) : Outcome * Mock :=
  if closed m then (Throws (closedError "rollbackDescription" m), m)
  else (Fulfils Undefined, set_state Stable m).

(** [setDescription()] *)
Definition setDescription (m : Mock) : Outcome * Mock :=
  if closed m then (Throws (closedError "setDescription" m), m)
  else if setDescriptionRejectOnce m
  then (Rejects (testFailure "setDescription" m), set_setDescriptionRejectOnce false m)
  else
    match state m with
    | Stable => (Fulfils Undefined, set_state HasRemoteOffer m)
    | HasLocalOffer => (Fulfils Undefined, set_state Stable m)
    | HasRemoteOffer => (Throws (invalidTransition "setDescription" m), m)
    end.

(** The calls a session makes on its handler. *)
Inductive Call : Type :=
| Close
| GetDescription
| HasDescription (contentType : string)
| RollbackDescription
| SetDescription.

Definition call (c : Call) : Mock -> Outcome * Mock :=
  match c with
  | Close => close
  | GetDescription => getDescription
  | HasDescription contentType => hasDescription contentType
  | RollbackDescription => rollbackDescription
  | SetDescription => setDescription
  end.

(** A series of calls on one mock: how each ended, and the mock
    left. *)
Fixpoint calls (series : list Call) (m : Mock) : list Outcome * Mock :=
  match series with
  | [] => ([], m)
  | c :: rest =>
      let (o, m1) := call c m in
      let (os, m2) := calls rest m1 in
      (o :: os, m2)
  end.

(** The method a call is named by in messages. *)
Definition methodOf (c : Call) : string :=
  match c with
  | Close => "close"
  | GetDescription => "getDescription"
  | HasDescription _ => "hasDescription"
  | RollbackDescription => "rollbackDescription"
  | SetDescription => "setDescription"
  end.

(** What a call does on a closed mock. *)
Definition refusal (m : Mock) (c : Call) : Outcome :=
  match c with
  | Close => Returns Undefined
  | _ => Throws (closedError (methodOf c) m)
  end.

(** The descriptions produced and applied in a series: the calls of
    [getDescription] and of [setDescription] whose promise was
    fulfilled. *)
Fixpoint produced (series : list Call) (outcomes : list Outcome) : Z :=
  match series, outcomes with
  | GetDescription :: cs, Fulfils _ :: os => (1 + produced cs os)%Z
  | _ :: cs, _ :: os => produced cs os
  | _, _ => 0%Z
  end.

Fixpoint applied (series : list Call) (outcomes : list Outcome) : Z :=
  match series, outcomes with
  | SetDescription :: cs, Fulfils _ :: os => (1 + applied cs os)%Z
  | _ :: cs, _ :: os => applied cs os
  | _, _ => 0%Z
  end.

(** The signalling state as a balance: descriptions produced less
    descriptions applied. *)
Definition balanceOf (s : SignalingState) : Z :=
  match s with
  | Stable => 0%Z
  | HasLocalOffer => 1%Z
  | HasRemoteOffer => (-1)%Z
  end.

Definition isRollback (c : Call) : Prop :=
  match c with
  | RollbackDescription => True
  | _ => False
  end.

(** A sample negotiation with a failure injected and a repeated
    offer. *)
Definition negotiation : list Call :=
  [GetDescription; GetDescription; HasDescription "application/sdp"; SetDescription;
   SetDescription; SetDescription; GetDescription; Close; GetDescription].

End MockSDH.

(** ** User agent: start, stop and reconnect ([api/user-agent.ts])

    [start()], [reconnect()] and, from [UserAgent], [stop()], on the
    user agent together with its field [_stateInitial].  The window
    unload listener and the calls to the logger other than warnings
    are left out, as in [UserAgent.stop]. *)

Module UserAgentLife.

Import Eff UserAgent.
Local Open Scope eff_scope.

Record Agent : Type := mkAgent {
  agent : UserAgent;
  _stateInitial : bool
}.

(** The user agent as its constructor leaves it: the field is
    declared [_stateInitial = true]. *)
Definition constructed (u : UserAgent) : Agent :=
  {| agent := u; _stateInitial := true |}.

Definition set_agent (u : UserAgent) (a : Agent) : Agent :=
  {| agent := u; _stateInitial := _stateInitial a |}.

Definition set_stateInitial (v : bool) (a : Agent) : Agent :=
  {| agent := agent a; _stateInitial := v |}.

(** What the user agent does, in order. *)
Inductive Step : Type :=
| OfAgent (e : UserAgent.Event)
(* the initialisation of [start()] *)
| TransportConstructed
| TransportCallbacksInitialised
| ContactInitialised
| CoreInitialised
(* [transport.connect()] *)
| TransportConnectCalled.

(** The promise handed back by [start()] and [reconnect()]. *)
Inductive Handle : Type :=
| Resolved                  (* Promise.resolve() *)
| Rejected (e : Exn)        (* Promise.reject(e) *)
| OfTransport.              (* the promise of transport.connect() *)

Abbreviation Life := (Eff.M Agent Step).

(** A method of [UserAgent] run on the agent. *)
Definition lift {A : Type} (m : UserAgent.M A) : Life A :=
  fun a =>
    match m (agent a) with
    | (r, u, evs) => (r, set_agent u a, map OfAgent evs)
    end.

(** [start()] *)
Definition start : Life Handle :=
  a <- get ;;
  if state_eqb (_state (agent a)) Started
  then
    emit (fun _ => OfAgent (Warned "User agent already started")) ;;
    ret Resolved
  else
    when (negb (_stateInitial a))
         (modify (set_stateInitial false) ;;
          (* Initialize Transport *)
          emit (fun _ => TransportConstructed) ;;
          emit (fun _ => TransportCallbacksInitialised) ;;
          (* Initialize Contact *)
          emit (fun _ => ContactInitialised) ;;
          (* Initialize UserAgentCore *)
          emit (fun _ => CoreInitialised)) ;;
    (* Transition state *)
    lift (transitionState Started) ;;
    emit (fun _ => TransportConnectCalled) ;;
    ret OfTransport.

(** [stop()] *)
Definition stop : Life unit := lift UserAgent.stop.

(** [reconnect()]; the continuation that calls [transport.connect()]
    is run with the call. *)
Definition reconnect : Life Handle :=
  a <- get ;;
  if state_eqb (_state (agent a)) Stopped
  then ret (Rejected (Error "User agent stopped."))
  else
    emit (fun _ => TransportConnectCalled) ;;
    ret OfTransport.

(** The calls of a program on its user agent. *)
Inductive Call : Type :=
| Start
| Stop
| Reconnect.

Definition call (c : Call) : Life unit :=
  match c with
  | Start => start ;; ret tt
  | Stop => stop
  | Reconnect => reconnect ;; ret tt
  end.

(** A series of calls, each run to its end before the next: the user
    agent left and everything done. *)
Fixpoint calls (series : list Call) (a : Agent) : Agent * list Step :=
  match series with
  | [] => (a, [])
  | c :: rest =>
      match call c a with
      | (_, a1, evs) =>
          let (a2, more) := calls rest a1 in (a2, (evs ++ more)%list)
      end
  end.

(** The steps that make a new transport, contact or core. *)
Definition initialises (s : Step) : Prop :=
  match s with
  | TransportConstructed | TransportCallbacksInitialised
  | ContactInitialised | CoreInitialised => True
  | _ => False
  end.

End UserAgentLife.

(** ** User agent: the option tags given to the core
    ([UserAgent.initCore], [UserAgent.initContact],
    [UserAgentRegisteredOptionTags])

    The lists [supportedOptionTags] and [supportedOptionTagsResponse]
    that [initCore] computes for the configuration of the user agent
    core. *)

Module CoreOptions.

Import UserAgent.

(** The options read. *)
Record Options : Type := mkOptions {
  sipExtension100rel : SIPExtension;
  sipExtensionReplaces : SIPExtension;
  sipExtensionExtraSupported : option (list string);
  hackAllowUnregisteredOptionTags : bool
}.

(** The contact, as far as [initCore] reads it. *)
Record Contact : Type := mkContact {
  pubGruu : option string;
  tempGruu : option string
}.

(** [initContact()]: the contact is made with both GRUUs
    [undefined]. *)
Definition initContact : Contact :=
  {| pubGruu := None; tempGruu := None |}.

(** The keys of the object [UserAgentRegisteredOptionTags]; each
    holds [true]. *)
Definition UserAgentRegisteredOptionTags : list string :=
  [ "100rel"; "199"; "answermode"; "early-session"; "eventlist"; "explicitsub";
    "from-change"; "geolocation-http"; "geolocation-sip"; "gin"; "gruu";
    "histinfo"; "ice"; "join"; "multiple-refer"; "norefersub"; "nosub";
    "outbound"; "path"; "policy"; "precondition"; "pref"; "privacy";
    "recipient-list-invite"; "recipient-list-message";
    "recipient-list-subscribe"; "replaces"; "resource-priority"; "sdp-anat";
    "sec-agree"; "tdialog"; "timer"; "uui" ].

(** [Array.from(new Set(tags))]: the first occurrence of each value,
    in order. *)
Fixpoint unique (seen tags : list string) : list string :=
  match tags with
  | [] => []
  | tag :: rest =>
      if existsb (String.eqb tag) seen then unique seen rest
      else tag :: unique (tag :: seen) rest
  end.

Section WithRuntime.

(** The table is an object literal, and [table[optionTag]] is a
    property lookup: besides the keys above it finds what the
    object inherits from [Object.prototype], which belongs to the
    JavaScript runtime.  [inherited name] is the truthiness of
    [Object.prototype[name]]. *)
Variable inherited : string -> bool.

(** Whether [UserAgentRegisteredOptionTags[optionTag]] is truthy. *)
Definition registered (optionTag : string) : bool :=
  existsb (String.eqb optionTag) UserAgentRegisteredOptionTags
  || inherited optionTag.

(** The tags pushed before the filter. *)
Definition pushed (o : Options) : list string :=
  (["outbound"]
   ++ (if extension_eqb (sipExtension100rel o) Supported then ["100rel"] else [])
   ++ (if extension_eqb (sipExtensionReplaces o) Supported then ["replaces"] else [])
   ++ match sipExtensionExtraSupported o with
      | Some extra => extra
      | None => []
      end)%list.

Definition supportedOptionTags (o : Options) : list string :=
  unique []
    (if negb (hackAllowUnregisteredOptionTags o)
     then List.filter registered (pushed o)
     else pushed o).

Definition supportedOptionTagsResponse (o : Options) (contact : Contact)
    : list string :=
  (supportedOptionTags o
   ++ (if JS.truthy (pubGruu contact) || JS.truthy (tempGruu contact)
       then ["gruu"] else []))%list.

End WithRuntime.

(** The extra tags configured. *)
Definition extras (o : Options) : list string :=
  match sipExtensionExtraSupported o with
  | Some extra => extra
  | None => []
  end.

(** The properties of [Object.prototype] in the language standard
    and its annex for web browsers; each holds a function or an
    object. *)
Definition standardPrototype (name : string) : bool :=
  existsb (String.eqb name)
    [ "constructor"; "hasOwnProperty"; "isPrototypeOf"; "propertyIsEnumerable";
      "toLocaleString"; "toString"; "valueOf"; "__proto__"; "__defineGetter__";
      "__defineSetter__"; "__lookupGetter__"; "__lookupSetter__" ].

(** Sample options: the extensions left Unsupported, and three extra
    tags of which one is registered, one is a property every object
    inherits, and one is neither. *)
Definition curious : Options :=
  {| sipExtension100rel := Unsupported; sipExtensionReplaces := Unsupported;
     sipExtensionExtraSupported := Some ["timer"; "constructor"; "bogus"; "timer"];
     hackAllowUnregisteredOptionTags := false |}.

End CoreOptions.

(** * Properties *)

(** ** Digest authentication *)

Module DigestFacts.

Import Digest DigestSpec.

Lemma string_length_app (a b : string) :
  String.length (a ++ b) = String.length a + String.length b.
Proof. induction a as [|c a IH]; simpl; [reflexivity | now rewrite IH]. Qed.

Lemma hexDigitValue_hexDigit (n : N) :
  (n < 16)%N -> hexDigitValue (hexDigit n) = Some n.
Proof.
  intros H. destruct n as [|p]; [reflexivity|].
  do 4 (try destruct p as [p|p|]); try reflexivity; exfalso; lia.
Qed.

Lemma hexValue_aux_snoc (s : string) (c : ascii) (acc : N) :
  hexValue_aux acc (s ++ String c "") =
  match hexValue_aux acc s with
  | Some v => match hexDigitValue c with
              | Some d => Some (16 * v + d)%N
              | None => None
              end
  | None => None
  end.
Proof.
  revert acc. induction s as [|a s IH]; intros acc; simpl.
  - destruct (hexDigitValue c); reflexivity.
  - destruct (hexDigitValue a); [apply IH | reflexivity].
Qed.

(** With enough fuel the digits denote the number. *)
Lemma toString16_aux_value (fuel : nat) : forall n : N,
  (n < 16 ^ N.of_nat fuel)%N ->
  hexValue (toString16_aux fuel n) = Some n.
Proof.
  induction fuel as [|f IH]; intros n Hn.
  - simpl in Hn. assert (n = 0%N) by lia. subst. reflexivity.
  - cbn [toString16_aux]. destruct (N.ltb_spec n 16) as [Hs|Hs].
    + unfold hexValue. cbn [hexValue_aux].
      rewrite (hexDigitValue_hexDigit n Hs). reflexivity.
    + unfold hexValue. rewrite hexValue_aux_snoc.
      assert (Hq : (n / 16 < 16 ^ N.of_nat f)%N).
      { apply N.Div0.div_lt_upper_bound.
        replace (N.of_nat (S f)) with (N.succ (N.of_nat f)) in Hn by lia.
        rewrite N.pow_succ_r' in Hn. exact Hn. }
      specialize (IH _ Hq). unfold hexValue in IH. rewrite IH.
      rewrite hexDigitValue_hexDigit by (apply N.mod_lt; lia).
      f_equal. rewrite (N.div_mod n 16) at 3 by lia. reflexivity.
Qed.

Lemma div16_below (n : N) (k : nat) :
  (n < 16 ^ N.of_nat (S k))%N -> (n / 16 < 16 ^ N.of_nat k)%N.
Proof.
  intros Hn. apply N.Div0.div_lt_upper_bound.
  replace (N.of_nat (S k)) with (N.succ (N.of_nat k)) in Hn by lia.
  rewrite N.pow_succ_r' in Hn. exact Hn.
Qed.

(** A number below [16^k] has between one and [k] digits. *)
Lemma toString16_aux_length (fuel : nat) : forall (k : nat) (n : N),
  (n < 16 ^ N.of_nat k)%N -> 1 <= k -> k <= fuel ->
  1 <= String.length (toString16_aux fuel n) <= k.
Proof.
  induction fuel as [|f IH]; intros k n Hn Hk1 Hk.
  - lia.
  - cbn [toString16_aux]. destruct (N.ltb_spec n 16) as [Hs|Hs].
    + simpl. lia.
    + rewrite string_length_app. simpl.
      destruct k as [|[|k]]; [lia | simpl in Hn; lia |].
      pose proof (div16_below n (S k) Hn) as Hq.
      specialize (IH (S k) _ Hq ltac:(lia) ltac:(lia)). lia.
Qed.

Lemma fuel_enough (n : N) : (n < 16 ^ N.of_nat (S (N.to_nat (N.log2 n))))%N.
Proof.
  destruct n as [|p]; [reflexivity|].
  replace (N.of_nat (S (N.to_nat (N.log2 (N.pos p)))))
    with (N.succ (N.log2 (N.pos p))) by lia.
  pose proof (N.log2_spec (N.pos p) ltac:(lia)) as [_ Hlt].
  eapply N.lt_le_trans; [exact Hlt|].
  apply N.pow_le_mono_l. lia.
Qed.

Lemma toString16_value (n : N) : hexValue (toString16 n) = Some n.
Proof. apply toString16_aux_value, fuel_enough. Qed.

(** Fuel beyond the number of digits changes nothing. *)
Lemma toString16_aux_fuel (f1 : nat) : forall (f2 : nat) (n : N),
  (n < 16 ^ N.of_nat f1)%N -> 1 <= f1 -> f1 <= f2 ->
  toString16_aux f2 n = toString16_aux f1 n.
Proof.
  induction f1 as [|f1 IH]; intros f2 n Hn H1 Hle.
  - lia.
  - destruct f2 as [|f2]; [lia|]. cbn [toString16_aux].
    destruct (N.ltb_spec n 16) as [Hs|Hs]; [reflexivity|].
    f_equal. destruct f1 as [|f1]; [simpl in Hn; lia|].
    apply IH; [apply div16_below; exact Hn | lia | lia].
Qed.

Lemma toString16_length (n : N) (k : nat) :
  (n < 16 ^ N.of_nat k)%N -> 1 <= k ->
  1 <= String.length (toString16 n) <= k.
Proof.
  intros Hn Hk1. unfold toString16.
  destruct (Nat.le_gt_cases k (S (N.to_nat (N.log2 n)))) as [Hle|Hgt].
  - apply toString16_aux_length; assumption.
  - rewrite <- (toString16_aux_fuel _ k n (fuel_enough n)) by lia.
    apply toString16_aux_length; [assumption | lia | lia].
Qed.

Lemma hexValue_aux_zeros (k : nat) (s : string) :
  k <= 8 ->
  hexValue_aux 0 (String.substring 0 k "00000000" ++ s) = hexValue_aux 0 s.
Proof.
  intros Hk.
  do 9 (destruct k as [|k]; [reflexivity|]). lia.
Qed.

Lemma zeros_length (k : nat) :
  k <= 8 -> String.length (String.substring 0 k "00000000") = k.
Proof.
  intros Hk.
  do 9 (destruct k as [|k]; [reflexivity|]). lia.
Qed.

(** [updateNcHex] renders a count below [2^32] as eight digits. *)
Lemma updateNcHex_spec (d : DigestAuthentication) :
  (nc d < 4294967296)%N ->
  nc (updateNcHex d) = nc d /\
  String.length (ncHex (updateNcHex d)) = 8 /\
  hexValue (ncHex (updateNcHex d)) = Some (nc d).
Proof.
  intros Hn. unfold updateNcHex. cbn [nc ncHex set_ncHex].
  assert (H16 : (nc d < 16 ^ N.of_nat 8)%N) by (simpl; lia).
  pose proof (toString16_length (nc d) 8 H16 ltac:(lia)) as Hlen.
  split; [reflexivity|]. split.
  - rewrite string_length_app, zeros_length by lia. lia.
  - unfold hexValue. rewrite hexValue_aux_zeros by lia.
    apply toString16_value.
Qed.

Lemma counted_spec (d : DigestAuthentication) :
  (nc d < 4294967296)%N ->
  nc (counted d) = next_nc (nc d) /\
  String.length (ncHex (counted d)) = 8 /\
  hexValue (ncHex (counted d)) = Some (nc (counted d)) /\
  ((nc d + 1 = 4294967296)%N -> ncHex (counted d) = "00000001").
Proof.
  intros Hn. unfold counted, next_nc.
  assert (Hnc : nc (updateNcHex (set_nc (nc d + 1)%N d)) = (nc d + 1)%N) by reflexivity.
  rewrite Hnc.
  destruct (N.eqb_spec (nc d + 1) 4294967296) as [Hw|Hw].
  - cbn [nc ncHex set_ncHex set_nc]. repeat split; reflexivity.
  - destruct (updateNcHex_spec (set_nc (nc d + 1)%N d)) as (H1 & H2 & H3).
    { cbn [nc set_nc]. lia. }
    split; [reflexivity|]. split; [exact H2|]. split; [| contradiction].
    rewrite H3. reflexivity.
Qed.

Lemma calculateResponse_keeps (MD5 : string -> string) (body : option string)
    (d : DigestAuthentication) :
  nc (calculateResponse MD5 body d) = nc d /\
  ncHex (calculateResponse MD5 body d) = ncHex d /\
  qop (calculateResponse MD5 body d) = qop d.
Proof.
  unfold calculateResponse. destruct (qop d) as [q|] eqn:Hq.
  - destruct (String.eqb q "auth"); [|destruct (String.eqb q "auth-int")];
      cbn; rewrite ?Hq; auto.
  - cbn. rewrite ?Hq. auto.
Qed.

(** Computing the response again from the result changes nothing: the
    stored response is the one that belongs to the other fields. *)
Lemma calculateResponse_idem (MD5 : string -> string) (body : option string)
    (d : DigestAuthentication) :
  calculateResponse MD5 body (calculateResponse MD5 body d)
  = calculateResponse MD5 body d.
Proof.
  unfold calculateResponse. destruct (qop d) as [q|] eqn:Hq.
  - destruct (String.eqb q "auth") eqn:E1; [|destruct (String.eqb q "auth-int") eqn:E2];
      cbn; rewrite ?Hq, ?E1, ?E2; reflexivity.
  - cbn. rewrite ?Hq. reflexivity.
Qed.

(** A successful call ends with [calculateResponse] applied to the
    object whose count was advanced by [counted]. *)
Lemma authenticate_success (MD5 : string -> string) (d d' : DigestAuthentication)
    (request : OutgoingRequestMessage) (challenge : Challenge)
    (body : option string) (token : string) :
  authenticate MD5 d request challenge body token = (true, d') ->
  exists pre, nc pre = nc d /\ d' = calculateResponse MD5 body (counted pre).
Proof.
  unfold authenticate. cbv zeta. intros H.
  set (d1 := set_challenge challenge d) in *.
  destruct (JS.truthy (algorithm d1) && negb (JS.show (algorithm d1) =? "MD5"));
    [discriminate H|].
  set (d2 := if JS.truthy (algorithm d1) then d1 else set_algorithm (Some "MD5") d1) in *.
  assert (H2 : nc d2 = nc d) by (unfold d2; destruct (JS.truthy _); reflexivity).
  destruct (negb (JS.truthy (realm d2))); [discriminate H|].
  destruct (negb (JS.truthy (nonce d2))); [discriminate H|].
  destruct (ch_qop challenge) as [q|].
  - destruct (qop_present (Some q)).
    + destruct (qop_contains q "auth").
      * injection H as <-.
        exists (set_request request token (set_qop (Some "auth") d2)).
        split; [exact H2 | reflexivity].
      * destruct (qop_contains q "auth-int"); [|discriminate H].
        injection H as <-.
        exists (set_request request token (set_qop (Some "auth-int") d2)).
        split; [exact H2 | reflexivity].
    + injection H as <-.
      exists (set_request request token (set_qop None d2)).
      split; [exact H2 | reflexivity].
  - injection H as <-.
    exists (set_request request token (set_qop None d2)).
    split; [exact H2 | reflexivity].
Qed.

(** The nonce count of every object a program can hold is below 2^32. *)
Lemma reachable_nc_bound (MD5 : string -> string) (d : DigestAuthentication) :
  reachable MD5 d -> (nc d < 4294967296)%N.
Proof.
  induction 1 as [user pass | d request challenge body token Hd IH].
  - vm_compute. reflexivity.
  - destruct (authenticate MD5 d request challenge body token) as [[|] d'] eqn:E.
    + destruct (authenticate_success MD5 d d' request challenge body token E)
        as (pre & Hpre & ->).
      destruct (calculateResponse_keeps MD5 body (counted pre)) as (K1 & _).
      destruct (counted_spec pre) as (C1 & _); [rewrite Hpre; exact IH|].
      cbn [snd]. rewrite K1, C1, Hpre. unfold next_nc.
      destruct (N.eqb_spec (nc d + 1) 4294967296); lia.
    + cbn [snd]. revert E. unfold authenticate. cbv zeta.
      repeat match goal with
             | |- context [if ?c then _ else _] => destruct c
             | |- context [match ?c with Some _ => _ | None => _ end] => destruct c
             end; intros E; try discriminate E; injection E as <-; exact IH.
Qed.

(** Claim C9.  A successful call of [authenticate] on an object whose
    nonce count is below 2^32 (as it is for every object a program can
    hold, see [reachable_nc_bound]) advances the count by exactly one,
    except that a count reaching 2^32 becomes 1; [ncHex] is then the
    count written as exactly eight hexadecimal digits, zero padded,
    ["00000001"] after the wrap; and the stored response is the one
    computed from that final [ncHex]. *)
Theorem authenticate_nonce_count (MD5 : string -> string)
    (d d' : DigestAuthentication) (request : OutgoingRequestMessage)
    (challenge : Challenge) (body : option string) (token : string) :
  (nc d < 4294967296)%N ->
  authenticate MD5 d request challenge body token = (true, d') ->
  nc d' = (if (nc d + 1 =? 4294967296)%N then 1 else nc d + 1)%N /\
  String.length (ncHex d') = 8 /\
  hexValue (ncHex d') = Some (nc d') /\
  ((nc d + 1 = 4294967296)%N -> nc d' = 1%N /\ ncHex d' = "00000001") /\
  calculateResponse MD5 body d' = d'.
Proof.
  intros Hn H.
  destruct (authenticate_success MD5 d d' request challenge body token H)
    as (pre & Hpre & ->).
  destruct (calculateResponse_keeps MD5 body (counted pre)) as (K1 & K2 & _).
  destruct (counted_spec pre) as (C1 & C2 & C3 & C4); [rewrite Hpre; exact Hn|].
  rewrite K1, K2, C1, Hpre in *. unfold next_nc in *.
  split; [reflexivity|]. split; [exact C2|]. split; [exact C3|]. split.
  - intros Hw. split; [|exact (C4 Hw)].
    apply N.eqb_eq in Hw. rewrite Hw. reflexivity.
  - apply calculateResponse_idem.
Qed.

Lemma authenticate_nonce_count_witness :
  let r := authenticate sample_MD5 sample_last sample_request sample_challenge
             None "token" in
  (nc sample_last < 4294967296)%N /\ fst r = true /\
  nc (snd r) = 1%N /\ ncHex (snd r) = "00000001" /\
  String.length (ncHex (snd r)) = 8.
Proof.
  intros r.
  assert (Hlt : (nc sample_last < 4294967296)%N) by (vm_compute; reflexivity).
  assert (Hrun : authenticate sample_MD5 sample_last sample_request sample_challenge
                   None "token" = (true, snd r)) by (vm_compute; reflexivity).
  destruct (authenticate_nonce_count sample_MD5 sample_last (snd r) sample_request
              sample_challenge None "token" Hlt Hrun) as (_ & H8 & _ & Hwrap & _).
  destruct Hwrap as [H1 Hhex]; [vm_compute; reflexivity|].
  split; [exact Hlt|]. split; [vm_compute; reflexivity|].
  split; [exact H1|]. split; [exact Hhex | exact H8].
Defined.

(** When the qop is present but is neither "auth" nor "auth-int",
    [authenticate] fails whatever the rest of the challenge is, and the
    response, the nonce count and the client nonce are left alone. *)
Lemma authenticate_qop_neither (MD5 : string -> string) (d : DigestAuthentication)
    (request : OutgoingRequestMessage) (challenge : Challenge)
    (body : option string) (token : string) (q : QopValue) :
  ch_qop challenge = Some q -> qop_present (Some q) = true ->
  qop_contains q "auth" = false -> qop_contains q "auth-int" = false ->
  let r := authenticate MD5 d request challenge body token in
  fst r = false /\ response (snd r) = response d /\ nc (snd r) = nc d
  /\ ncHex (snd r) = ncHex d /\ cnonce (snd r) = cnonce d.
Proof.
  intros Hq Hp Ha Hi. unfold authenticate. cbv zeta.
  rewrite Hq, Hp, Ha, Hi.
  repeat match goal with
         | |- context [if ?c then _ else _] => destruct c
         end; cbn; auto.
Qed.

(** Claim C2, amended.  For a challenge that passes the checks made
    before the selection (algorithm absent or MD5, realm and nonce
    present) and whose qop is present: if the qop contains "auth", [authenticate]
    succeeds with qop "auth"; if it contains "auth-int" but not "auth",
    it succeeds with qop "auth-int"; if it contains neither, it returns
    false and no response is computed (the response, the nonce count
    and the client nonce keep their values). *)
Theorem authenticate_qop_selection (MD5 : string -> string)
    (d : DigestAuthentication) (request : OutgoingRequestMessage)
    (challenge : Challenge) (body : option string) (token : string)
    (q : QopValue) :
  ch_qop challenge = Some q -> qop_present (Some q) = true ->
  validated challenge = true ->
  let r := authenticate MD5 d request challenge body token in
  (qop_contains q "auth" = true ->
   fst r = true /\ qop (snd r) = Some "auth") /\
  (qop_contains q "auth-int" = true -> qop_contains q "auth" = false ->
   fst r = true /\ qop (snd r) = Some "auth-int") /\
  (qop_contains q "auth" = false -> qop_contains q "auth-int" = false ->
   fst r = false /\ response (snd r) = response d /\ nc (snd r) = nc d
   /\ cnonce (snd r) = cnonce d).
Proof.
  intros Hq Hp Hv r.
  unfold validated in Hv.
  apply andb_true_iff in Hv as [Hv Hnonce].
  apply andb_true_iff in Hv as [Halg Hrealm].
  apply negb_true_iff in Halg.
  assert (Hrun : forall v, (v = "auth" /\ qop_contains q "auth" = true) \/
                           (v = "auth-int" /\ qop_contains q "auth" = false
                            /\ qop_contains q "auth-int" = true) ->
                           fst r = true /\ qop (snd r) = Some v).
  { intros v Hcase. unfold r, authenticate. cbv zeta.
    cbn [algorithm realm nonce set_challenge]. rewrite Halg.
    assert (Hsame : forall d0 : DigestAuthentication,
              realm (if JS.truthy (ch_algorithm challenge) then d0
                     else set_algorithm (Some "MD5") d0) = realm d0 /\
              nonce (if JS.truthy (ch_algorithm challenge) then d0
                     else set_algorithm (Some "MD5") d0) = nonce d0)
      by (intros d0; destruct (JS.truthy (ch_algorithm challenge)); split; reflexivity).
    destruct (Hsame (set_challenge challenge d)) as [-> ->].
    cbn [realm nonce set_challenge]. rewrite Hrealm, Hnonce. cbn [negb].
    rewrite Hq, Hp.
    destruct Hcase as [[-> Ha] | (-> & Ha & Hi)]; rewrite Ha; [|rewrite Hi];
      cbn [fst snd]; (split; [reflexivity|]);
      match goal with
      | |- qop (calculateResponse ?m ?b ?x) = _ =>
          destruct (calculateResponse_keeps m b x) as (_ & _ & ->)
      end;
      destruct (_ =? _)%N; reflexivity. }
  split; [intros Ha; apply Hrun; left; auto|].
  split; [intros Hi Ha; apply Hrun; right; auto|].
  intros Ha Hi.
  destruct (authenticate_qop_neither MD5 d request challenge body token q
              Hq Hp Ha Hi) as (H1 & H2 & H3 & _ & H5).
  repeat split; assumption.
Qed.

Lemma authenticate_qop_selection_witness :
  (let r := authenticate sample_MD5 (constructor (Some "alice") (Some "secret"))
              sample_request sample_challenge None "token" in
   fst r = true /\ qop (snd r) = Some "auth") /\
  (let r := authenticate sample_MD5 (constructor (Some "alice") (Some "secret"))
              sample_request sample_challenge_int None "token" in
   fst r = true /\ qop (snd r) = Some "auth-int") /\
  (let r := authenticate sample_MD5 (constructor (Some "alice") (Some "secret"))
              sample_request sample_challenge_other None "token" in
   fst r = false /\ response (snd r) = None).
Proof.
  split; [|split].
  - apply (authenticate_qop_selection sample_MD5 (constructor (Some "alice") (Some "secret"))
             sample_request sample_challenge None "token"
             (QopArray ["auth-int"; "auth"]) eq_refl eq_refl eq_refl).
    reflexivity.
  - apply (authenticate_qop_selection sample_MD5 (constructor (Some "alice") (Some "secret"))
             sample_request sample_challenge_int None "token"
             (QopArray ["auth-int"]) eq_refl eq_refl eq_refl); reflexivity.
  - destruct (authenticate_qop_selection sample_MD5
                (constructor (Some "alice") (Some "secret"))
                sample_request sample_challenge_other None "token"
                (QopArray ["token"]) eq_refl eq_refl eq_refl) as (_ & _ & H).
    destruct (H eq_refl eq_refl) as (H1 & H2 & _). split; [exact H1 | exact H2].
Defined.

(** Claim C2 as worded fails: a challenge whose qop contains "auth" but
    whose algorithm is not MD5 makes [authenticate] return false before
    any qop is selected. *)
Lemma authenticate_qop_counterexample :
  ch_qop sample_challenge_sha = Some (QopArray ["auth"]) /\
  qop_present (ch_qop sample_challenge_sha) = true /\
  qop_contains (QopArray ["auth"]) "auth" = true /\
  fst (authenticate sample_MD5 (constructor (Some "alice") (Some "secret"))
         sample_request sample_challenge_sha None "token") = false /\
  qop (snd (authenticate sample_MD5 (constructor (Some "alice") (Some "secret"))
              sample_request sample_challenge_sha None "token")) <> Some "auth".
Proof. repeat split. discriminate. Qed.

End DigestFacts.

(** ** Reasoning rules for effectful code *)

Module EffFacts.

Import Eff.
Local Open Scope eff_scope.

Section Rules.
Context {S E : Type}.
Implicit Types (s : S) (X : S -> Prop) (G : E -> Prop).

Lemma wp_ret {A} (a : A) (Q : A -> S -> Prop) X G s :
  Q a s -> wp (ret a) Q X G s.
Proof. intros H. unfold wp, ret. split; [constructor | exact H]. Qed.

Lemma wp_throw {A} (e : Exn) (Q : A -> S -> Prop) X G s :
  X s -> wp (throw e) Q X G s.
Proof. intros H. unfold wp, throw. split; [constructor | exact H]. Qed.

Lemma wp_get (Q : S -> S -> Prop) X G s :
  Q s s -> wp get Q X G s.
Proof. intros H. unfold wp, get. split; [constructor | exact H]. Qed.

Lemma wp_modify (f : S -> S) (Q : unit -> S -> Prop) X G s :
  Q tt (f s) -> wp (modify f) Q X G s.
Proof. intros H. unfold wp, modify. split; [constructor | exact H]. Qed.

Lemma wp_emit (e : S -> E) (Q : unit -> S -> Prop) X G s :
  G (e s) -> Q tt s -> wp (emit e) Q X G s.
Proof.
  intros Hg H. unfold wp, emit. split; [|exact H].
  constructor; [exact Hg | constructor].
Qed.

Lemma wp_bind {A B} (m : M S E A) (k : A -> M S E B)
    (Q : B -> S -> Prop) X G s :
  wp m (fun a s1 => wp (k a) Q X G s1) X G s -> wp (bind m k) Q X G s.
Proof.
  unfold wp, bind. destruct (m s) as [[[a|e|] s1] ev1]; [|tauto|tauto].
  intros [H1 H2]. destruct (k a s1) as [[[b|e|] s2] ev2].
  - destruct H2 as [H2 H3]. split; [apply Forall_app; split; assumption | exact H3].
  - destruct H2 as [H2 H3]. split; [apply Forall_app; split; assumption | exact H3].
  - exact H2.
Qed.

Lemma wp_when (b : bool) (m : M S E unit) (Q : unit -> S -> Prop) X G s :
  (b = true -> wp m Q X G s) -> (b = false -> Q tt s) ->
  wp (when b m) Q X G s.
Proof.
  intros H1 H2. destruct b; cbn [when]; [apply H1 | apply wp_ret, H2]; reflexivity.
Qed.

Lemma wp_mono {A} (m : M S E A) (Q Q' : A -> S -> Prop) (X X' : S -> Prop)
    (G G' : E -> Prop) s :
  (forall a s1, Q a s1 -> Q' a s1) -> (forall s1, X s1 -> X' s1) ->
  (forall ev, G ev -> G' ev) ->
  wp m Q X G s -> wp m Q' X' G' s.
Proof.
  intros HQ HX HG. unfold wp. destruct (m s) as [[[a|e|] s1] evs]; [| |tauto].
  - intros [H1 H2]. split; [eapply Forall_impl; eauto | auto].
  - intros [H1 H2]. split; [eapply Forall_impl; eauto | auto].
Qed.

End Rules.

End EffFacts.

(** ** Transport state machine *)

Module TransportFacts.

Import Eff EffFacts Transport TransportSpec.
Local Open Scope eff_scope.

Lemma state_eqb_eq (a b : TransportState) : state_eqb a b = true <-> a = b.
Proof. destruct a, b; cbn; split; (reflexivity || discriminate). Qed.

(** The switch of the code accepts exactly the transitions the
    specification lists. *)
Lemma validTransition_legal (a b : TransportState) :
  validTransition a b = true <-> legal a b.
Proof.
  split.
  - destruct a, b; cbn; intros H; try discriminate H; constructor.
  - destruct 1; reflexivity.
Qed.

(** The helpers of [transitionState] leave the control fields alone. *)
Lemma settle_frame (id : nat) (o : PromiseState) (t : Transport) :
  transitioningState (settle id o t) = transitioningState t /\
  _state (settle id o t) = _state t /\
  connectPromise (settle id o t) = connectPromise t /\
  disconnectPromise (settle id o t) = disconnectPromise t.
Proof.
  unfold settle. destruct (promises t !! id) as [[| |e]|]; repeat split.
Qed.

Lemma startSendingKeepAlives_frame (b : bool) (t : Transport) :
  transitioningState (startSendingKeepAlives b t) = transitioningState t /\
  _state (startSendingKeepAlives b t) = _state t /\
  connectPromise (startSendingKeepAlives b t) = connectPromise t /\
  disconnectPromise (startSendingKeepAlives b t) = disconnectPromise t.
Proof.
  unfold startSendingKeepAlives.
  destruct (b && negb (keepAliveInterval t)); repeat split.
Qed.

Ltac fields :=
  repeat (progress cbn [transitioningState _state connectPromise disconnectPromise
                          set_state set_transitioningState set_connect
                          set_disconnect set_connectTimeout set_keepAlive
                          set_promises set_ws stopSendingKeepAlives]
          || rewrite (proj1 (settle_frame _ _ _))
          || rewrite (proj1 (proj2 (settle_frame _ _ _)))
          || rewrite (proj1 (proj2 (proj2 (settle_frame _ _ _))))
          || rewrite (proj2 (proj2 (proj2 (settle_frame _ _ _))))
          || rewrite (proj1 (startSendingKeepAlives_frame _ _))
          || rewrite (proj1 (proj2 (startSendingKeepAlives_frame _ _)))
          || rewrite (proj1 (proj2 (proj2 (startSendingKeepAlives_frame _ _))))
          || rewrite (proj2 (proj2 (proj2 (startSendingKeepAlives_frame _ _))))).

(** An event that is not the answer to an observer's call and that
    recorded the flag as set. *)
Lemma during_notification (W : Prop) (ev : Event) :
  flagSeen ev = Some true -> during W ev.
Proof. destruct ev; cbn; intros H; congruence. Qed.

Lemma during_held (W : Prop) (ev : Event) : during W ev -> held ev.
Proof. unfold held. destruct ev; cbn; intros H; congruence. Qed.

Lemma during_refused (W : Prop) (ev : Event) : W -> during W ev -> refused ev.
Proof.
  unfold refused. intros w. destruct ev; cbn; intros H b ans E; try discriminate E.
  injection E as <- <-. apply H, w.
Qed.

Lemma during_socketless (W : Prop) (ev : Event) : during W ev -> socketless ev.
Proof. destruct ev; cbn; tauto. Qed.

Section WithEnvironment.

Variable keepAliveConfigured : bool.
Variable webSocketThrows : option Exn.
Variable stateChangeListener : TransportState -> list Action.
Variable onConnect : option (list Action).
Variable onDisconnect : option (option Exn -> list Action).
Variable legacyListener : TransportState -> list Action.

Local Abbreviation body :=
  (transitionStateBody keepAliveConfigured webSocketThrows
     stateChangeListener onConnect onDisconnect legacyListener).
Local Abbreviation run :=
  (transitionState keepAliveConfigured webSocketThrows
     stateChangeListener onConnect onDisconnect legacyListener).

(** The first statement of [transitionState]: with the flag set it
    throws the loop error and touches nothing. *)
Lemma body_guarded (nested : TransportState -> option Exn -> M unit) :
  guarded (body nested).
Proof.
  intros s e t Hflag. unfold transitionStateBody, bind, get.
  rewrite Hflag. reflexivity.
Qed.

Lemma transitionState_guarded (n : nat) : guarded (run (S n)).
Proof. apply body_guarded. Qed.

Section Nested.

Variable nested : TransportState -> option Exn -> M unit.
Hypothesis Hguard : guarded nested.

(** [connect()] during a transition: nothing changes, nothing is
    emitted; the answer is the rejected promise, or the sanity error
    when a connect promise is held outside Connecting. *)
Lemma connect_in_transition (t : Transport) :
  transitioningState t = true ->
  exists answer, _connect webSocketThrows nested t = (answer, t, []) /\
    (answer = Normal (Rejected loopDetected) \/
     exists m, answer = Throw (Error m)) /\
    (consistent t -> answer = Normal (Rejected loopDetected)).
Proof.
  intros Hflag. unfold _connect, bind, get, tryTransition.
  destruct (_state t) eqn:Hs; rewrite ?Hflag.
  - eexists; split; [reflexivity|]. split; [left|]; reflexivity.
  - eexists; split; [reflexivity|]. split; [left|]; reflexivity.
  - destruct (connectPromise t) as [p|] eqn:Hp; cbn [isSome].
    + eexists; split; [reflexivity|]. split; [right; eauto|].
      intros [Hc _]. rewrite Hp in Hc. specialize (Hc ltac:(discriminate)).
      congruence.
    + rewrite (Hguard Connecting None t Hflag). cbn.
      eexists; split; [reflexivity|]. split; [left|]; reflexivity.
  - destruct (connectPromise t) as [p|] eqn:Hp; cbn [isSome].
    + eexists; split; [reflexivity|]. split; [right; eauto|].
      intros [Hc _]. rewrite Hp in Hc. specialize (Hc ltac:(discriminate)).
      congruence.
    + rewrite (Hguard Connecting None t Hflag). cbn.
      eexists; split; [reflexivity|]. split; [left|]; reflexivity.
Qed.

Lemma disconnect_in_transition (t : Transport) :
  transitioningState t = true ->
  exists answer, _disconnect nested t = (answer, t, []) /\
    (answer = Normal (Rejected loopDetected) \/
     exists m, answer = Throw (Error m)) /\
    (consistent t -> answer = Normal (Rejected loopDetected)).
Proof.
  intros Hflag. unfold _disconnect, bind, get, tryTransition.
  destruct (_state t) eqn:Hs; rewrite ?Hflag.
  - destruct (disconnectPromise t) as [p|] eqn:Hp; cbn [isSome].
    + eexists; split; [reflexivity|]. split; [right; eauto|].
      intros [_ Hc]. rewrite Hp in Hc. specialize (Hc ltac:(discriminate)).
      congruence.
    + rewrite (Hguard Disconnecting None t Hflag). cbn.
      eexists; split; [reflexivity|]. split; [left|]; reflexivity.
  - destruct (disconnectPromise t) as [p|] eqn:Hp; cbn [isSome].
    + eexists; split; [reflexivity|]. split; [right; eauto|].
      intros [_ Hc]. rewrite Hp in Hc. specialize (Hc ltac:(discriminate)).
      congruence.
    + rewrite (Hguard Disconnecting None t Hflag). cbn.
      eexists; split; [reflexivity|]. split; [left|]; reflexivity.
  - eexists; split; [reflexivity|]. split; [left|]; reflexivity.
  - eexists; split; [reflexivity|]. split; [left|]; reflexivity.
Qed.

(** An observer run during a transition leaves the transport as it
    is; every call it makes is answered as above. *)
Lemma wp_runObserver (script : list Action) (W : Prop)
    (Q : unit -> Transport -> Prop) (X : Transport -> Prop) (t : Transport) :
  transitioningState t = true -> (W -> consistent t) ->
  Q tt t -> X t ->
  wp (runObserver webSocketThrows nested script) Q X (during W) t.
Proof.
  intros Hflag Hw HQ HX.
  induction script as [|a script IH]; cbn [runObserver].
  - apply wp_ret, HQ.
  - apply wp_bind. unfold wp at 1, perform. destruct a as [| |e].
    + destruct (connect_in_transition t Hflag) as (answer & -> & Hor & Hc).
      assert (Hev : during W (ObserverCalled CallConnect answer))
        by (split; [exact Hor | intros w; apply Hc, Hw, w]).
      destruct Hor as [-> | [m ->]]; cbn.
      * split; [constructor; [exact Hev | constructor] | exact IH].
      * split; [constructor; [exact Hev | constructor] | exact HX].
    + destruct (disconnect_in_transition t Hflag) as (answer & -> & Hor & Hc).
      assert (Hev : during W (ObserverCalled CallDisconnect answer))
        by (split; [exact Hor | intros w; apply Hc, Hw, w]).
      destruct Hor as [-> | [m ->]]; cbn.
      * split; [constructor; [exact Hev | constructor] | exact IH].
      * split; [constructor; [exact Hev | constructor] | exact HX].
    + split; [constructor | exact HX].
Qed.

(** One step of the symbolic execution of a transition. *)
Ltac step W :=
  lazymatch goal with
  | |- wp (bind _ _) _ _ _ _ => apply wp_bind
  | |- wp (modify _) _ _ _ _ => apply wp_modify
  | |- wp (ret _) _ _ _ _ => apply wp_ret
  | |- wp (throw _) _ _ _ _ => apply wp_throw
  | |- wp (emit _) _ _ _ _ =>
      apply wp_emit; [apply during_notification; cbn [flagSeen]; fields; reflexivity|]
  | |- wp (runObserver _ _ _) _ _ _ _ =>
      apply wp_runObserver; [fields; reflexivity | | | ]
  | |- wp (when _ _) _ _ _ _ => cbn [when state_eqb]
  | |- wp (match ?x with Some _ => _ | None => _ end) _ _ _ _ => destruct x
  | |- wp (if ?b then _ else _) _ _ _ _ => cbn [state_eqb]
  end.

(** The whole of [transitionState] started with the flag clear.
    [W] says whether the transport is known to be [consistent]. *)
Lemma wp_body (W : Prop) (newState : TransportState) (error : option Exn)
    (t : Transport) :
  transitioningState t = false -> (W -> consistent t) ->
  wp (body nested newState error)
    (fun _ t1 =>
       validTransition (_state t) newState = true /\
       transitioningState t1 = false /\ _state t1 = newState /\
       (W -> quiet t1))
    (fun t1 =>
       transitioningState t1 = true /\ (W -> consistent t1) /\
       ((validTransition (_state t) newState = false /\ _state t1 = _state t)
        \/ (validTransition (_state t) newState = true /\ _state t1 = newState)))
    (during W) t.
Proof.
  intros Hflag Hw. unfold transitionStateBody.
  apply wp_bind, wp_get. rewrite Hflag.
  apply wp_bind, wp_modify.
  destruct (validTransition (_state t) newState) eqn:V; cbn [negb].
  2:{ apply wp_throw. split; [reflexivity|]. split; [|left; split; reflexivity].
      intros w. destruct (Hw w) as [H1 H2]. split; fields; assumption. }
  assert (Hcp : W -> _state t <> Connecting -> connectPromise t = None).
  { intros w Hne. destruct (Hw w) as [H1 _].
    destruct (connectPromise t); [|reflexivity].
    exfalso. apply Hne, H1. discriminate. }
  assert (Hdp : W -> _state t <> Disconnecting -> disconnectPromise t = None).
  { intros w Hne. destruct (Hw w) as [_ H2].
    destruct (disconnectPromise t); [|reflexivity].
    exfalso. apply Hne, H2. discriminate. }
  assert (Hquiet : forall s : Transport,
            (W -> connectPromise s = None /\ disconnectPromise s = None) ->
            W -> consistent s).
  { intros s Hs w. unfold consistent. destruct (Hs w) as [-> ->].
    split; intros H; now elim H. }
  destruct (_state t) eqn:Hs, newState; try discriminate V; clear V.
  all: repeat (step W).
  all: assert (Hnone : W -> forall s : Transport,
          connectPromise s = connectPromise (set_connect None None None t)
          \/ (connectPromise s = connectPromise t /\ _state t <> Connecting) ->
          disconnectPromise s = disconnectPromise (set_disconnect None None None t)
          \/ (disconnectPromise s = disconnectPromise t /\ _state t <> Disconnecting) ->
          connectPromise s = None /\ disconnectPromise s = None)
    by (intros w s [-> | [-> Hc]] [-> | [-> Hd]];
        repeat match goal with
               | H : _state _ <> _ |- _ => rewrite Hs in H
               end;
        split;
        first [reflexivity | apply (Hcp w); assumption
              | apply (Hdp w); assumption]).
  all: assert (Hnow : forall s : Transport,
          connectPromise s = connectPromise (set_connect None None None t)
          \/ (connectPromise s = connectPromise t /\ _state t <> Connecting) ->
          disconnectPromise s = disconnectPromise (set_disconnect None None None t)
          \/ (disconnectPromise s = disconnectPromise t /\ _state t <> Disconnecting) ->
          W -> quiet s)
    by (intros s H1 H2 w; exact (Hnone w s H1 H2)).
  all: repeat lazymatch goal with
       | |- (true = false /\ _) \/ _ => right
       | |- _ /\ _ => split
       | |- true = true => reflexivity
       | |- false = false => reflexivity
       | |- @eq TransportState _ _ => reflexivity
       | |- _ -> consistent _ =>
           apply Hquiet; intros w; apply (Hnone w); fields;
           first [left; reflexivity
                 | right; split; [reflexivity | rewrite Hs; discriminate]]
       | |- _ -> quiet _ =>
           apply Hnow; fields;
           first [left; reflexivity
                 | right; split; [reflexivity | rewrite Hs; discriminate]]
       end.
  all: fields; reflexivity.
Qed.

(** A transition the switch refuses: the error is thrown before the
    state is written; only the flag has been set. *)
Lemma body_invalid (newState : TransportState) (error : option Exn)
    (t : Transport) :
  transitioningState t = false ->
  validTransition (_state t) newState = false ->
  body nested newState error t =
  (Throw (Error ("Invalid state transition from " ++ show_state (_state t)
                 ++ " to " ++ show_state newState)),
   set_transitioningState true t, []).
Proof.
  intros Hflag V. unfold transitionStateBody, bind, get, modify, throw.
  rewrite Hflag. cbn [_state set_transitioningState]. rewrite V. reflexivity.
Qed.

End Nested.

Lemma run_unfold (n : nat) : run (S n) = body (run n).
Proof. reflexivity. Qed.

(** Claim C4.  Whatever transition is requested, and in whatever state
    of the transport: [transitionState] completes (with depth 2 or
    more for the calls of observers); if the transport's state changes
    at all, it changes to the requested state by one of the eight
    legal transitions (Disconnected to Connecting; Connecting to
    Connected, Disconnecting or Disconnected; Connected to
    Disconnecting or Disconnected; Disconnecting to Disconnected or
    Connecting); a legal transition requested while none is in flight
    is performed; and a requested transition that is not legal throws
    (the invalid-transition error, or the loop error when a transition
    is already in flight) and leaves the state as it was. *)
Theorem transitions_are_legal (n : nat) (newState : TransportState)
    (error : option Exn) (t : Transport) :
  match run (S (S n)) newState error t with
  | (r, t1, _) =>
      r <> OutOfFuel /\
      (_state t1 = _state t \/ (legal (_state t) newState /\ _state t1 = newState)) /\
      (legal (_state t) newState -> transitioningState t = false ->
       _state t1 = newState) /\
      (~ legal (_state t) newState ->
       _state t1 = _state t /\
       r = Throw (if transitioningState t then loopDetected
                  else Error ("Invalid state transition from "
                              ++ show_state (_state t) ++ " to "
                              ++ show_state newState)))
  end.
Proof.
  destruct (transitioningState t) eqn:Hflag.
  - rewrite (transitionState_guarded (S n) newState error t Hflag).
    split; [discriminate|]. split; [left; reflexivity|].
    split; [discriminate|]. intros _. split; reflexivity.
  - destruct (validTransition (_state t) newState) eqn:V.
    + pose proof (wp_body (run (S n)) (transitionState_guarded n) False
                    newState error t Hflag ltac:(tauto)) as H.
      unfold wp in H. rewrite run_unfold.
      destruct (body (run (S n)) newState error t) as [[[u|ex|] t1] evs];
        [| |contradiction].
      * destruct H as (_ & _ & _ & Hst & _).
        split; [discriminate|]. split; [|split].
        -- right. split; [apply validTransition_legal, V | exact Hst].
        -- intros _ _. exact Hst.
        -- intros Hn. elim Hn. apply validTransition_legal, V.
      * destruct H as (_ & _ & _ & [[Hv _] | [_ Hst]]); [congruence|].
        split; [discriminate|]. split; [|split].
        -- right. split; [apply validTransition_legal, V | exact Hst].
        -- intros _ _. exact Hst.
        -- intros Hn. elim Hn. apply validTransition_legal, V.
    + rewrite run_unfold, (body_invalid (run (S n)) newState error t Hflag V).
      split; [discriminate|]. split; [left; reflexivity|]. split.
      * intros L. apply validTransition_legal in L. congruence.
      * intros _. split; reflexivity.
Qed.

(** Claim C3.  While a transition is in flight on a transport whose
    promise fields agree with its state (as they do between the calls
    of a program, see [reachable_consistent], and at every moment an
    observer runs, see [wp_body]), [connect()] and [disconnect()] each
    return a promise rejected with the StateTransitionError
    "Loop detected.", emit nothing and leave every field of the
    transport as it was. *)
Theorem call_in_flight_rejected (n : nat) (t : Transport) :
  transitioningState t = true -> consistent t ->
  connect keepAliveConfigured webSocketThrows stateChangeListener onConnect
    onDisconnect legacyListener (S n) t
  = (Normal (Rejected (StateTransitionError "Loop detected.")), t, []) /\
  disconnect keepAliveConfigured webSocketThrows stateChangeListener onConnect
    onDisconnect legacyListener (S n) t
  = (Normal (Rejected (StateTransitionError "Loop detected.")), t, []).
Proof.
  intros Hflag Hc. unfold connect, disconnect. split.
  - destruct (connect_in_transition (run (S n)) (transitionState_guarded n) t Hflag)
      as (answer & Heq & _ & Hans).
    rewrite Heq, (Hans Hc). reflexivity.
  - destruct (disconnect_in_transition (run (S n)) (transitionState_guarded n) t Hflag)
      as (answer & Heq & _ & Hans).
    rewrite Heq, (Hans Hc). reflexivity.
Qed.

(** Claim C1, amended.  In every transition started with the flag
    clear, the flag is set when each observer is notified and when the
    connect or disconnect promise is completed; a transition that
    returns normally ends with the flag clear and the transport in the
    requested state, one that throws leaves the flag set; and no
    socket is opened or closed on behalf of an observer.  On a
    transport whose promise fields agree with its state, every
    [connect()] or [disconnect()] made by an observer is answered with
    a promise rejected with the loop error: the call is refused, not
    queued. *)
Theorem flag_held_during_transition (n : nat) (newState : TransportState)
    (error : option Exn) (t : Transport) :
  transitioningState t = false ->
  match run (S (S n)) newState error t with
  | (r, t1, evs) =>
      Forall held evs /\ Forall socketless evs /\
      (consistent t -> Forall refused evs) /\
      match r with
      | Normal _ => transitioningState t1 = false /\ _state t1 = newState
      | Throw _ => transitioningState t1 = true
      | OutOfFuel => False
      end
  end.
Proof.
  intros Hflag.
  pose proof (wp_body (run (S n)) (transitionState_guarded n) (consistent t)
                newState error t Hflag (fun c => c)) as H.
  unfold wp in H. rewrite run_unfold.
  destruct (body (run (S n)) newState error t) as [[[u|ex|] t1] evs];
    [| |contradiction].
  - destruct H as (Hev & _ & Hf & Hs & _).
    split; [eapply List.Forall_impl; [apply during_held | exact Hev]|].
    split; [eapply List.Forall_impl; [apply during_socketless | exact Hev]|].
    split; [|split; assumption].
    intros Hc. eapply List.Forall_impl; [|exact Hev].
    intros ev Hd. exact (during_refused _ ev Hc Hd).
  - destruct H as (Hev & Hf & _).
    split; [eapply List.Forall_impl; [apply during_held | exact Hev]|].
    split; [eapply List.Forall_impl; [apply during_socketless | exact Hev]|].
    split; [|exact Hf].
    intros Hc. eapply List.Forall_impl; [|exact Hev].
    intros ev Hd. exact (during_refused _ ev Hc Hd).
Qed.

(** *** The promise fields agree with the state on every reachable
    transport *)

Lemma wp_tryTransition (nested : TransportState -> option Exn -> M unit)
    (s : TransportState) (Q : option PromiseRef -> Transport -> Prop)
    (X : Transport -> Prop) (G : Event -> Prop) (t : Transport) :
  wp (nested s None) (fun _ t1 => Q None t1)
     (fun t1 => X t1 /\ forall m, Q (Some (Rejected (StateTransitionError m))) t1)
     G t ->
  wp (tryTransition nested s) Q X G t.
Proof.
  unfold wp, tryTransition.
  destruct (nested s None t) as [[[u|[m|m]|] t1] evs]; try tauto.
  intros (H1 & H2 & H3). split; [exact H1 | apply H3].
Qed.

Lemma wp_run_consistent (n : nat) (newState : TransportState)
    (error : option Exn) (t : Transport) :
  consistent t ->
  wp (run (S (S n)) newState error)
     (fun _ t1 => quiet t1 /\ _state t1 = newState)
     consistent (fun _ => True) t.
Proof.
  intros Hc. destruct (transitioningState t) eqn:Hflag.
  - unfold wp. rewrite (transitionState_guarded (S n) newState error t Hflag).
    split; [constructor | exact Hc].
  - rewrite run_unfold.
    eapply wp_mono;
      [| | | exact (wp_body (run (S n)) (transitionState_guarded n) True
                      newState error t Hflag (fun _ => Hc))]; cbn beta.
    + intros _ t1 (_ & _ & Hs & Hq). split; [apply Hq, I | exact Hs].
    + intros t1 (_ & Hq & _). apply Hq, I.
    + intros ev _. exact I.
Qed.

Lemma quiet_consistent (t : Transport) : quiet t -> consistent t.
Proof. intros [H1 H2]. split; intros H; [rewrite H1 in H | rewrite H2 in H]; now elim H. Qed.

Lemma wp_connect_consistent (n : nat) (t : Transport) :
  consistent t ->
  wp (connect keepAliveConfigured webSocketThrows stateChangeListener onConnect
        onDisconnect legacyListener (S (S n)))
     (fun _ t1 => consistent t1) consistent (fun _ => True) t.
Proof.
  intros Hc. unfold connect, _connect.
  apply wp_bind, wp_get.
  assert (Hopen : forall t1 : Transport, quiet t1 /\ _state t1 = Connecting ->
            wp (openWebSocket webSocketThrows) (fun _ t2 => consistent t2)
               consistent (fun _ => True) t1).
  { intros t1 [[Hq1 Hq2] Hs]. unfold openWebSocket.
    apply wp_bind, wp_get. destruct webSocketThrows as [ex|].
    - apply wp_bind, wp_modify, wp_ret. apply quiet_consistent. split; assumption.
    - apply wp_bind, wp_modify, wp_bind, wp_emit; [exact I|].
      apply wp_bind, wp_get, wp_bind, wp_modify, wp_bind, wp_modify,
        wp_bind, wp_modify, wp_ret.
      split; cbn; intros H; [exact Hs | now elim H]. }
  assert (Htry :
            wp (early <- tryTransition (run (S (S n))) Connecting ;;
                match early with
                | Some p => ret p
                | None => openWebSocket webSocketThrows
                end)
               (fun _ t1 => consistent t1) consistent (fun _ => True) t).
  { apply wp_bind, wp_tryTransition.
    eapply wp_mono; [| | | exact (wp_run_consistent n Connecting None t Hc)];
      cbn beta.
    - intros _ t1 H. apply Hopen, H.
    - intros t1 H. split; [exact H|]. intros m. apply wp_ret, H.
    - trivial. }
  destruct (_state t) eqn:Hs.
  - destruct (transitioningState t); [apply wp_ret, Hc|].
    destruct (connectPromise t); [apply wp_ret | apply wp_throw]; exact Hc.
  - destruct (transitioningState t); [apply wp_ret, Hc|].
    destruct (isSome (connectPromise t)); [apply wp_throw | apply wp_ret]; exact Hc.
  - destruct (isSome (connectPromise t)) eqn:Hp; [apply wp_throw, Hc | apply Htry].
  - destruct (isSome (connectPromise t)) eqn:Hp; [apply wp_throw, Hc | apply Htry].
Qed.

Lemma wp_disconnect_consistent (n : nat) (t : Transport) :
  consistent t ->
  wp (disconnect keepAliveConfigured webSocketThrows stateChangeListener onConnect
        onDisconnect legacyListener (S (S n)))
     (fun _ t1 => consistent t1) consistent (fun _ => True) t.
Proof.
  intros Hc. unfold disconnect, _disconnect.
  apply wp_bind, wp_get.
  assert (Hclose : forall t1 : Transport, quiet t1 /\ _state t1 = Disconnecting ->
            wp closeWebSocket (fun _ t2 => consistent t2)
               consistent (fun _ => True) t1).
  { intros t1 [[Hq1 Hq2] Hs]. unfold closeWebSocket.
    apply wp_bind, wp_get. destruct (_ws t1) as [ws|].
    - apply wp_bind, wp_modify, wp_bind, wp_modify, wp_bind, wp_emit; [exact I|].
      apply wp_ret. split; cbn; intros H; [now elim H | exact Hs].
    - apply wp_throw. apply quiet_consistent. split; assumption. }
  assert (Htry :
            wp (early <- tryTransition (run (S (S n))) Disconnecting ;;
                match early with
                | Some p => ret p
                | None => closeWebSocket
                end)
               (fun _ t1 => consistent t1) consistent (fun _ => True) t).
  { apply wp_bind, wp_tryTransition.
    eapply wp_mono; [| | | exact (wp_run_consistent n Disconnecting None t Hc)];
      cbn beta.
    - intros _ t1 H. apply Hclose, H.
    - intros t1 H. split; [exact H|]. intros m. apply wp_ret, H.
    - trivial. }
  destruct (_state t) eqn:Hs.
  - destruct (isSome (disconnectPromise t)) eqn:Hp; [apply wp_throw, Hc | apply Htry].
  - destruct (isSome (disconnectPromise t)) eqn:Hp; [apply wp_throw, Hc | apply Htry].
  - destruct (transitioningState t); [apply wp_ret, Hc|].
    destruct (disconnectPromise t); [apply wp_ret | apply wp_throw]; exact Hc.
  - destruct (transitioningState t); [apply wp_ret, Hc|].
    destruct (isSome (disconnectPromise t)); [apply wp_throw | apply wp_ret]; exact Hc.
Qed.

Lemma wp_final {A} (m : M A) (P : Transport -> Prop) (t : Transport) :
  wp m (fun _ t1 => P t1) P (fun _ => True) t -> P (snd (fst (m t))).
Proof.
  unfold wp. destruct (m t) as [[[a|ex|] t1] evs]; cbn; tauto.
Qed.

Lemma reachable_consistent (t : Transport) :
  reachable keepAliveConfigured webSocketThrows stateChangeListener onConnect
    onDisconnect legacyListener t ->
  consistent t.
Proof.
  induction 1 as [|n t _ IH|n t _ IH|n ws t _ IH|n ws message t _ IH|n error t _ IH].
  - split; intros H; now elim H.
  - apply wp_final, wp_connect_consistent, IH.
  - apply wp_final, wp_disconnect_consistent, IH.
  - apply wp_final. unfold onWebSocketOpen.
    apply wp_bind, wp_get.
    destruct (negb (bool_decide (Some ws = _ws t))); [apply wp_ret, IH|].
    destruct (state_eqb (_state t) Connecting); [|apply wp_ret, IH].
    eapply wp_mono; [| | | exact (wp_run_consistent n Connected None t IH)];
      cbn beta; [intros _ t1 [H _]; apply quiet_consistent, H | trivial | trivial].
  - apply wp_final. unfold onWebSocketClose.
    apply wp_bind, wp_get.
    destruct (negb (bool_decide (Some ws = _ws t))); [apply wp_ret, IH|].
    apply wp_bind, wp_modify.
    eapply wp_mono; [| | | apply (wp_run_consistent n Disconnected)];
      cbn beta; [intros _ t1 [H _]; apply quiet_consistent, H | trivial | trivial |].
    destruct IH as [H1 H2]. split; cbn; assumption.
  - apply wp_final. unfold constructionFailed.
    apply wp_bind.
    eapply wp_mono; [| | | exact (wp_run_consistent n Disconnected (Some error) t IH)];
      cbn beta; [| trivial | trivial].
    intros _ t1 [H _]. apply wp_throw, quiet_consistent, H.
Qed.

End WithEnvironment.

Lemma transitions_are_legal_witness :
  match transitionState false None eager_listener None None silent 2
          Connected None constructor with
  | (r, t1, _) =>
      _state t1 = Disconnected /\
      r = Throw (Error "Invalid state transition from Disconnected to Connected")
  end.
Proof.
  pose proof (transitions_are_legal false None eager_listener None None silent 0
                Connected None constructor) as H.
  destruct (transitionState false None eager_listener None None silent 2
              Connected None constructor) as [[r t1] evs].
  destruct H as (_ & _ & _ & H). apply H. intros L. inversion L.
Defined.

Lemma call_in_flight_rejected_witness :
  transitioningState sample_in_flight = true /\ consistent sample_in_flight /\
  connect false None eager_listener None None silent 1 sample_in_flight
  = (Normal (Rejected (StateTransitionError "Loop detected.")), sample_in_flight, []) /\
  disconnect false None eager_listener None None silent 1 sample_in_flight
  = (Normal (Rejected (StateTransitionError "Loop detected.")), sample_in_flight, []).
Proof.
  assert (Hc : consistent sample_in_flight)
    by (split; intros H; exfalso; apply H; reflexivity).
  split; [reflexivity|]. split; [exact Hc|].
  exact (call_in_flight_rejected false None eager_listener None None silent 0
           sample_in_flight eq_refl Hc).
Defined.

Lemma flag_held_during_transition_witness :
  transitioningState constructor = false /\
  match transitionState false None eager_listener None None silent 2
          Connecting None constructor with
  | (r, t1, evs) =>
      Forall held evs /\ Forall socketless evs /\ Forall refused evs /\
      match r with
      | Normal _ => transitioningState t1 = false /\ _state t1 = Connecting
      | Throw _ => transitioningState t1 = true
      | OutOfFuel => False
      end
  end.
Proof.
  assert (Hc : consistent constructor)
    by (split; intros H; exfalso; apply H; reflexivity).
  split; [reflexivity|].
  pose proof (flag_held_during_transition false None eager_listener None None silent 0
                Connecting None constructor eq_refl) as H.
  destruct (transitionState false None eager_listener None None silent 2
              Connecting None constructor) as [[r t1] evs].
  destruct H as (H1 & H2 & H3 & H4).
  split; [exact H1|]. split; [exact H2|]. split; [exact (H3 Hc) | exact H4].
Defined.

(** Claim C1 as worded fails: on a fresh transport whose state-change
    listener calls [connect()] when told the transport is connecting,
    the listener is notified with the flag still set and its call is
    answered with the rejected promise. *)
Lemma reentrant_connect_counterexample :
  eager_run =
    (Normal (Handle 0),
     set_connectTimeout (Some 0)
       (set_connect (Some 0) (Some 0) (Some 0)
          (set_promises [Pending]
             (set_ws (Some 0) 1 (set_state Connecting constructor)))),
     [StateChangeEmitted Connecting true;
      ObserverCalled CallConnect (Normal (Rejected (StateTransitionError "Loop detected.")));
      LegacyEmitted Connecting true;
      WebSocketCreated 0]) /\
  ~ Forall cleared (snd eager_run) /\
  ~ Forall accepted (snd eager_run).
Proof.
  assert (E : eager_run =
    (Normal (Handle 0),
     set_connectTimeout (Some 0)
       (set_connect (Some 0) (Some 0) (Some 0)
          (set_promises [Pending]
             (set_ws (Some 0) 1 (set_state Connecting constructor)))),
     [StateChangeEmitted Connecting true;
      ObserverCalled CallConnect (Normal (Rejected (StateTransitionError "Loop detected.")));
      LegacyEmitted Connecting true;
      WebSocketCreated 0])) by (vm_compute; reflexivity).
  split; [exact E|]. rewrite E. cbn [snd]. split.
  - intros H. inversion H as [|ev evs H1 _]; subst. apply H1. reflexivity.
  - intros H. inversion H as [|ev evs _ H2]; subst.
    inversion H2 as [|ev' evs' H3 _]; subst.
    destruct (H3 _ _ eq_refl) as (p & Hp & Hne).
    injection Hp as <-. exact (Hne _ eq_refl).
Qed.

End TransportFacts.

(** ** PUBLISH client *)

Module PublisherFacts.

Import Eff Publisher PublisherSpec.
Local Open Scope eff_scope.

Lemma is2xx_not_1xx (c : Z) : is2xx c = true -> is1xx c = false.
Proof. unfold is2xx, is1xx. lia. Qed.

(** The first response of the scenario is handled as the specification
    says: the tag is stored, the refresh is armed at 3240000 ms and the
    publisher is Published. *)
Lemma first_response_accepted :
  receiveResponse JS.NumberDec ok_response sent
  = (Normal tt, published, [StateChangeEmitted Published]) /\
  _state published = Published /\
  pubRequestEtag published = Some "abc" /\
  pubRequestExpires published = JS.of_Z 3600 /\
  publishRefreshTimer published = Some (JS.of_Z 3240000).
Proof. vm_compute. repeat split. Qed.

(** The refresh sent by the timer carries the tag and no body. *)
Lemma refresh_sent :
  refreshRequest published
  = (Normal tt, refreshing, [PublishSent (JS.of_Z 3600) (Some "abc") None]) /\
  _state refreshing = Published.
Proof. vm_compute. repeat split. Qed.

(** Claim C6, the failing input.  The 200 response to the refresh of
    the scenario (SIP-ETag "abc", Expires 3600, publisher Published):
    the tag is stored and the timer armed, then the transition to
    Published is refused because the publisher is already Published;
    [receiveResponse] throws, and its cleanup is skipped. *)
Theorem refresh_response_throws :
  receiveResponse JS.NumberDec ok_response refreshing
  = (Throw (Error "Invalid state transition from Published to Published"),
     set_publishRefreshTimer (Some (JS.of_Z 3240000)) refreshing,
     []).
Proof. vm_compute. reflexivity. Qed.

Section WithNumber.

Variable Number : string -> JS.number.

Local Opaque JS.ge JS.le JS.strict_eq JS.scale JS.of_Z.

Ltac run_response :=
  cbv [accepted cleanup stateTransition clearRefreshTimer dispose
       bind get modify emit ret throw when];
  cbn.

(** From Initial or Unpublished, a 200-class response whose effective
    expires is not zero does what the specification says. *)
Lemma accepted_schedules_refresh (response : IncomingResponseMessage)
    (p : Publisher) (c : Z) :
  statusCode response = Some c -> is2xx c = true ->
  _state p = Initial \/ _state p = Unpublished ->
  JS.strict_eq (effective Number response (pubRequestExpires p)) (JS.of_Z 0) = false ->
  receiveResponse Number response p
  = (Normal tt,
     set_state Published
       (set_publishRefreshTimer
          (Some (JS.scale (effective Number response (pubRequestExpires p)) 900))
          (set_pubRequestExpires (effective Number response (pubRequestExpires p))
             (set_pubRequestEtag (stored response p) p))),
     (warnings Number response (pubRequestExpires p) ++ [StateChangeEmitted Published])%list).
Proof.
  intros Hc H2 Hst Hne. unfold receiveResponse. rewrite Hc.
  rewrite (is2xx_not_1xx c H2), H2.
  unfold effective in *. unfold warnings, stored.
  destruct p as [st dis bd ex et tm ob oe ou]. cbn in Hst, Hne |- *.
  revert Hne. run_response.
  destruct (hasHeader response "SIP-ETag");
    destruct (hasHeader response "Expires"); cbn;
    try destruct (JS.ge _ _ && JS.le _ _); cbn;
    intros Hne; destruct Hst as [-> | ->]; cbn;
    rewrite ?Hne; cbn; rewrite ?Hne; cbn; rewrite ?Hne; cbn; reflexivity.
Qed.

(** While Published, the same response makes [receiveResponse] throw:
    the transition Published to Published is not in the switch of
    [stateTransition]. *)
Lemma accepted_while_published_throws (response : IncomingResponseMessage)
    (p : Publisher) (c : Z) :
  statusCode response = Some c -> is2xx c = true ->
  _state p = Published ->
  JS.strict_eq (effective Number response (pubRequestExpires p)) (JS.of_Z 0) = false ->
  fst (fst (receiveResponse Number response p))
  = Throw (Error "Invalid state transition from Published to Published").
Proof.
  intros Hc H2 Hst Hne. unfold receiveResponse. rewrite Hc.
  rewrite (is2xx_not_1xx c H2), H2.
  unfold effective in *.
  destruct p as [st dis bd ex et tm ob oe ou]. cbn in Hst, Hne |- *. subst st.
  revert Hne. run_response.
  destruct (hasHeader response "SIP-ETag");
    destruct (hasHeader response "Expires"); cbn;
    try destruct (JS.ge _ _ && JS.le _ _); cbn;
    intros Hne; rewrite ?Hne; cbn; rewrite ?Hne; cbn; rewrite ?Hne; cbn; reflexivity.
Qed.

(** From Initial or Published, a 200-class response whose effective
    expires is zero leaves the publisher Unpublished, its timer, body
    and tag cleared by the cleanup. *)
Lemma accepted_unpublishes (response : IncomingResponseMessage)
    (p : Publisher) (c : Z) :
  statusCode response = Some c -> is2xx c = true ->
  _state p = Initial \/ _state p = Published ->
  JS.strict_eq (effective Number response (pubRequestExpires p)) (JS.of_Z 0) = true ->
  receiveResponse Number response p
  = (Normal tt,
     set_pubRequestEtag None
       (set_pubRequestBody None
          (set_publishRefreshTimer None
             (set_state Unpublished
                (set_pubRequestExpires (effective Number response (pubRequestExpires p))
                   p)))),
     (warnings Number response (pubRequestExpires p) ++ [StateChangeEmitted Unpublished])%list).
Proof.
  intros Hc H2 Hst Hne. unfold receiveResponse. rewrite Hc.
  rewrite (is2xx_not_1xx c H2), H2.
  unfold effective in *. unfold warnings.
  destruct p as [st dis bd ex et tm ob oe ou]. cbn in Hst, Hne |- *.
  revert Hne. run_response.
  destruct (hasHeader response "SIP-ETag");
    destruct (hasHeader response "Expires"); cbn;
    try destruct (JS.ge _ _ && JS.le _ _); cbn;
    intros Hne; destruct Hst as [-> | ->]; cbn;
    rewrite ?Hne; cbn; rewrite ?Hne; cbn; rewrite ?Hne; cbn; reflexivity.
Qed.

End WithNumber.

End PublisherFacts.

(** ** User agent *)

Module UserAgentFacts.

Import Eff UserAgent UserAgentSpec.
Local Open Scope eff_scope.

Lemma bind_get {A} (k : UserAgent -> M A) (u : UserAgent) :
  bind get k u = k u u.
Proof. unfold bind, get. destruct (k u u) as [[r u1] evs]. reflexivity. Qed.

(** *** Shutdown *)











(** *** Incoming requests *)

Section WithNumber.

Variable Number : string -> JS.number.

Lemma mandatory_spec (m : IncomingRequestMessage) :
  forallb (hasHeader m) mandatoryHeaders = false <-> missingMandatory m.
Proof.
  unfold missingMandatory, mandatoryHeaders. split.
  - intros H. apply not_true_iff_false in H.
    destruct (hasHeader m "from") eqn:H1; [|exists "from"; split; [cbn; auto 10 | assumption]].
    destruct (hasHeader m "to") eqn:H2; [|exists "to"; split; [cbn; auto 10 | assumption]].
    destruct (hasHeader m "call_id") eqn:H3; [|exists "call_id"; split; [cbn; auto 10 | assumption]].
    destruct (hasHeader m "cseq") eqn:H4; [|exists "cseq"; split; [cbn; auto 10 | assumption]].
    destruct (hasHeader m "via") eqn:H5; [|exists "via"; split; [cbn; auto 10 | assumption]].
    elim H. cbn. rewrite H1, H2, H3, H4, H5. reflexivity.
  - intros (name & Hin & Hn). cbn in Hin |- *.
    repeat (destruct Hin as [<- | Hin]; [rewrite Hn; cbn; rewrite ?andb_false_r; reflexivity|]).
    contradiction.
Qed.

Lemma selfLoop_spec (u : UserAgent) (m : IncomingRequestMessage) :
  negb (JS.truthy (toTag m))
  && String.eqb (String.substring 0 5 (callId m)) (sipjsId u) = true
  <-> selfLoop u m.
Proof.
  unfold selfLoop. rewrite andb_true_iff, negb_true_iff, String.eqb_eq. tauto.
Qed.

Lemma tooShort_spec (m : IncomingRequestMessage) :
  lengthMismatch Number (body m) (getHeader m "content-length") = true
  <-> tooShort Number m.
Proof.
  unfold tooShort, lengthMismatch.
  destruct (getHeader m "content-length") as [v|]; cbn [JS.truthy].
  - rewrite andb_true_iff, negb_true_iff, String.eqb_neq. split.
    + intros [H1 H2]. exists v. auto.
    + intros (d & [= <-] & H1 & H2). auto.
  - split; [discriminate | intros (d & Hd & _); discriminate].
Qed.

(** Claim C7, amended.  A request received while the user agent is
    Stopped is dropped, whatever it carries.  Otherwise: if one of
    From, To, Call-ID, CSeq, Via is missing it is dropped; otherwise,
    if it has no to-tag and the first five characters of its Call-ID
    are this instance's id, 482 is sent statelessly; otherwise, if a
    Content-Length is declared and exceeds the UTF-8 byte length of
    the body, 400 is sent statelessly; otherwise it is handed to the
    user agent core.  Only a request received while not Stopped and
    passing the three checks reaches the core. *)
Theorem request_path (u : UserAgent) (m : IncomingRequestMessage) :
  (_state u = Stopped ->
   isDropped (onTransportMessage Number u (Some (Request m)))) /\
  (_state u = Started ->
   (missingMandatory m ->
    isDropped (onTransportMessage Number u (Some (Request m)))) /\
   (~ missingMandatory m -> selfLoop u m ->
    onTransportMessage Number u (Some (Request m)) = RepliedStateless 482) /\
   (~ missingMandatory m -> ~ selfLoop u m -> tooShort Number m ->
    onTransportMessage Number u (Some (Request m)) = RepliedStateless 400) /\
   (~ missingMandatory m -> ~ selfLoop u m -> ~ tooShort Number m ->
    onTransportMessage Number u (Some (Request m)) = RequestToCore)) /\
  (onTransportMessage Number u (Some (Request m)) = RequestToCore ->
   _state u = Started /\ ~ missingMandatory m /\ ~ selfLoop u m
   /\ ~ tooShort Number m).
Proof.
  unfold onTransportMessage.
  pose proof (mandatory_spec m) as Hm.
  pose proof (selfLoop_spec u m) as Hl.
  pose proof (tooShort_spec m) as Ht.
  destruct (forallb (hasHeader m) mandatoryHeaders);
    destruct (negb (JS.truthy (toTag m))
              && String.eqb (String.substring 0 5 (callId m)) (sipjsId u));
    destruct (lengthMismatch Number (body m) (getHeader m "content-length"));
    destruct (_state u); cbn [state_eqb negb];
    (split; [intros Hs; try discriminate Hs; eexists; reflexivity|]);
    (split; [intros Hs; try discriminate Hs;
             repeat split; intros; try reflexivity; try (eexists; reflexivity);
             exfalso; intuition congruence
            | intros Hs; try discriminate Hs;
              repeat split; intuition congruence]).
Qed.

End WithNumber.

Lemma request_path_witness :
  isDropped (onTransportMessage JS.NumberDec (agent Stopped []) (Some (Request looped))) /\
  onTransportMessage JS.NumberDec (agent Started []) (Some (Request looped))
  = RepliedStateless 482.
Proof.
  assert (Hm : ~ missingMandatory looped).
  { intros (name & Hin & Hn). cbn in Hin.
    repeat (destruct Hin as [<- | Hin]; [discriminate Hn|]). exact Hin. }
  assert (Hl : selfLoop (agent Started []) looped) by (split; reflexivity).
  split.
  - apply (proj1 (request_path JS.NumberDec (agent Stopped []) looped)). reflexivity.
  - destruct (request_path JS.NumberDec (agent Started []) looped) as (_ & H & _).
    destruct (H eq_refl) as (_ & H482 & _). exact (H482 Hm Hl).
Defined.

(** Claim C7 as worded fails: a request that carries every mandatory
    header, has no to-tag and whose Call-ID starts with this instance's
    id is dropped, not answered with 482, when the user agent is
    Stopped. *)
Lemma request_path_counterexample :
  ~ missingMandatory looped /\
  selfLoop (agent Stopped []) looped /\
  onTransportMessage JS.NumberDec (agent Stopped []) (Some (Request looped))
  = Dropped "Received request while stopped. Dropping." /\
  onTransportMessage JS.NumberDec (agent Stopped []) (Some (Request looped))
  <> RepliedStateless 482.
Proof.
  split.
  { intros (name & Hin & Hn). cbn in Hin.
    repeat (destruct Hin as [<- | Hin]; [discriminate Hn|]). exact Hin. }
  split; [split; reflexivity|]. split; [reflexivity | discriminate].
Qed.

(** *** Incoming INVITE *)

(** The Replaces checks read the user agent and never change it. *)
Lemma replacesChecks_reads (request : IncomingInviteRequest) (u : UserAgent) :
  snd (fst (replacesChecks request u)) = u.
Proof.
  unfold replacesChecks, checkReplaces, bind, get, emit, ret, throw.
  destruct (negb (extension_eqb (sipExtensionReplaces u) Unsupported)); [|reflexivity].
  destruct (replaces request) as [header|]; [|reflexivity].
  destruct (call_id header); [|reflexivity].
  destruct (replaces_to_tag header); [|reflexivity].
  destruct (replaces_from_tag header); [|reflexivity].
  destruct (dialogs u !! _) as [d|]; [|reflexivity].
  destruct (negb (early d) && bool_decide (early_only header = Some true));
    [reflexivity|].
  destruct (lookup _ (_sessions u)); [reflexivity|].
  destruct (lookup _ (_sessions u)); reflexivity.
Qed.

(** Claim C8, amended.  With the Replaces extension enabled
    (Supported or Required) and an INVITE that carries a Replaces
    header: when the header has a call-id, a to-tag and a from-tag,
    the invitation constructed on entry is sent 100 Trying and then
    rejected with 481 if the dialog table has no dialog under
    call-id + to-tag + from-tag, and rejected with 486 if it has one
    that is confirmed (not early) and the header carries the
    early-only flag; in both cases the handler returns there, so no
    replaced session is recorded and nothing is delivered to the
    delegate.  When the header lacks the call-id or one of the tags,
    the handler throws after the 100 Trying and rejects nothing. *)
Theorem replaces_rejections (u : UserAgent) (request : IncomingInviteRequest)
    (header : Replaces) :
  sipExtensionReplaces u <> Unsupported ->
  replaces request = Some header ->
  let r := onInvite request u in
  (forall callId toTag fromTag : string,
     call_id header = Some callId ->
     replaces_to_tag header = Some toTag ->
     replaces_from_tag header = Some fromTag ->
     (dialogs u !! (callId ++ toTag ++ fromTag) = None ->
      fst (fst r) = Normal tt /\
      snd r = [InvitationConstructed; TryingSent; InvitationRejected 481]) /\
     (forall d : Dialog,
        dialogs u !! (callId ++ toTag ++ fromTag) = Some d ->
        early d = false -> early_only header = Some true ->
        fst (fst r) = Normal tt /\
        snd r = [InvitationConstructed; TryingSent; InvitationRejected 486])) /\
  (call_id header = None \/ replaces_to_tag header = None
   \/ replaces_from_tag header = None ->
   (exists e, fst (fst r) = Throw e) /\
   snd r = [InvitationConstructed; TryingSent]).
Proof.
  intros Hext Hh r.
  assert (Hon : negb (extension_eqb (sipExtensionReplaces u) Unsupported) = true)
    by (destruct (sipExtensionReplaces u); [reflexivity | reflexivity | now elim Hext]).
  split.
  - intros callId toTag fromTag Hc Ht Hf. split.
    + intros Hd. unfold r, onInvite, replacesChecks, checkReplaces, bind, get, emit, ret.
      rewrite Hon, Hh, Hc, Ht, Hf, Hd. split; reflexivity.
    + intros d Hd He Ho.
      unfold r, onInvite, replacesChecks, checkReplaces, bind, get, emit, ret.
      rewrite Hon, Hh, Hc, Ht, Hf, Hd, He, Ho. split; reflexivity.
  - intros Hmiss.
    unfold r, onInvite, replacesChecks, checkReplaces, bind, get, emit, ret, throw.
    rewrite Hon, Hh.
    destruct (call_id header) as [callId|]; [|split; [eexists|]; reflexivity].
    destruct (replaces_to_tag header) as [toTag|]; [|split; [eexists|]; reflexivity].
    destruct (replaces_from_tag header) as [fromTag|]; [|split; [eexists|]; reflexivity].
    destruct Hmiss as [H | [H | H]]; discriminate H.
Qed.

Lemma replaces_rejections_witness :
  snd (onInvite (invite (Some unknown_target)) (agent Started []))
  = [InvitationConstructed; TryingSent; InvitationRejected 481] /\
  snd (onInvite (invite (Some confirmed_target)) (agent Started []))
  = [InvitationConstructed; TryingSent; InvitationRejected 486] /\
  snd (onInvite (invite (Some untagged_target)) (agent Started []))
  = [InvitationConstructed; TryingSent].
Proof.
  split; [|split].
  - apply (proj1 (proj1 (replaces_rejections (agent Started [])
                           (invite (Some unknown_target)) unknown_target
                           ltac:(discriminate) eq_refl)
                    "call9" "a" "b" eq_refl eq_refl eq_refl)).
    reflexivity.
  - apply (proj2 (proj1 (replaces_rejections (agent Started [])
                           (invite (Some confirmed_target)) confirmed_target
                           ltac:(discriminate) eq_refl)
                    "call1" "tag2" "tag1" eq_refl eq_refl eq_refl)
             {| early := false |}); reflexivity.
  - apply (proj2 (replaces_rejections (agent Started [])
                    (invite (Some untagged_target)) untagged_target
                    ltac:(discriminate) eq_refl)).
    right. left. reflexivity.
Defined.

(** Claim C8 as worded fails twice over.  An INVITE whose Replaces
    header names a call but carries no to-tag matches no dialog, yet
    it is not rejected with 481: the handler throws after the 100
    Trying.  And where the 481 is sent, for a header with both tags
    and no dialog under them, the handler has by then constructed the
    invitation for the INVITE, which is the session object it
    rejects. *)
Lemma replaces_counterexample :
  onInvite (invite (Some untagged_target)) (agent Started [])
  = (Throw (Error "Type of to tag is not string"), agent Started [],
     [InvitationConstructed; TryingSent]) /\
  onInvite (invite (Some unknown_target)) (agent Started [])
  = (Normal tt, agent Started [],
     [InvitationConstructed; TryingSent; InvitationRejected 481]).
Proof. split; reflexivity. Qed.

(** Claim C10.  When the user agent has no delegate, or a delegate
    without an onInvite handler: an INVITE that passes the Replaces
    checks (they end without a rejection or an exception) is rejected
    with 486; and whatever the INVITE, nothing is delivered to a
    delegate. *)
Theorem no_handler_busy (u : UserAgent) (request : IncomingInviteRequest) :
  (delegate u = None \/
   exists d, delegate u = Some d /\ onInvite_defined d = false) ->
  (forall (u1 : UserAgent) (evs : list Event),
     replacesChecks request u = (Normal None, u1, evs) ->
     onInvite request u
     = (Normal tt, u1,
        ([InvitationConstructed; TryingSent] ++ evs ++ [InvitationRejected 486])%list)) /\
  ~ In DelegateOnInvite (snd (onInvite request u)).
Proof.
  intros Hno.
  assert (Hhandler : forall u1, u1 = u ->
            match delegate u1 with
            | Some d => onInvite_defined d
            | None => false
            end = false).
  { intros u1 ->. destruct Hno as [-> | (d & -> & Hd)]; [reflexivity | exact Hd]. }
  assert (Hrun : forall r u1 evs, replacesChecks request u = (r, u1, evs) ->
            u1 = u /\ ~ In DelegateOnInvite evs).
  { intros r u1 evs Hr. split.
    - rewrite <- (replacesChecks_reads request u), Hr. reflexivity.
    - revert Hr.
      unfold replacesChecks, checkReplaces, bind, get, emit, ret, throw.
      destruct (negb (extension_eqb (sipExtensionReplaces u) Unsupported));
        [|intros [= <- <- <-]; intros []].
      destruct (replaces request) as [header|]; [|intros [= <- <- <-]; intros []].
      destruct (call_id header); [|intros [= <- <- <-]; intros []].
      destruct (replaces_to_tag header); [|intros [= <- <- <-]; intros []].
      destruct (replaces_from_tag header); [|intros [= <- <- <-]; intros []].
      destruct (dialogs u !! _) as [d|];
        [|intros [= <- <- <-]; cbn; intros [H|[]]; discriminate H].
      destruct (negb (early d) && bool_decide (early_only header = Some true));
        [intros [= <- <- <-]; cbn; intros [H|[]]; discriminate H|].
      destruct (lookup _ (_sessions u));
        [intros [= <- <- <-]; cbn; intros [H|[]]; discriminate H|].
      destruct (lookup _ (_sessions u));
        [intros [= <- <- <-]; cbn; intros [H|[]]; discriminate H
        |intros [= <- <- <-]; intros []]. }
  split.
  - intros u1 evs Hr. destruct (Hrun _ _ _ Hr) as [-> _].
    unfold onInvite, bind at 1, emit at 1. unfold bind at 1, emit at 1.
    unfold bind at 1. rewrite Hr. rewrite bind_get, (Hhandler u eq_refl).
    cbn. reflexivity.
  - unfold onInvite, bind at 1, emit at 1. unfold bind at 1, emit at 1.
    unfold bind at 1.
    destruct (replacesChecks request u) as [[r u1] evs] eqn:Hr.
    destruct (Hrun _ _ _ eq_refl) as [-> Hnot].
    destruct r as [[code|]|e|]; cbn.
    + intros [H|[H|H]]; [discriminate H | discriminate H|].
      rewrite app_nil_r in H. exact (Hnot H).
    + rewrite (Hhandler u eq_refl). cbn.
      intros [H|[H|H]]; [discriminate H | discriminate H|].
      apply in_app_or in H as [H|[H|[]]]; [exact (Hnot H) | discriminate H].
    + intros [H|[H|H]]; [discriminate H | discriminate H | exact (Hnot H)].
    + intros [H|[H|H]]; [discriminate H | discriminate H | exact (Hnot H)].
Qed.

Lemma no_handler_busy_witness :
  onInvite (invite None) (agent Started [])
  = (Normal tt, agent Started [],
     [InvitationConstructed; TryingSent; InvitationRejected 486]) /\
  ~ In DelegateOnInvite (snd (onInvite (invite None) (agent Started []))).
Proof.
  destruct (no_handler_busy (agent Started []) (invite None) (or_introl eq_refl))
    as [H1 H2].
  split; [exact (H1 (agent Started []) [] eq_refl) | exact H2].
Defined.

End UserAgentFacts.

(** ** Digest authentication: the object over a series of challenges *)

Module DigestUseFacts.

Import Eff Digest DigestSpec DigestHeader DigestUse DigestFacts.

Lemma authenticate_failure (MD5 : string -> string) (d d' : DigestAuthentication)
    (request : OutgoingRequestMessage) (challenge : Challenge)
    (body : option string) (token : string) :
  authenticate MD5 d request challenge body token = (false, d') ->
  untouched d d'.
Proof.
  unfold authenticate, untouched. cbv zeta.
  repeat match goal with
         | |- context [if ?c then _ else _] => destruct c
         | |- context [match ?c with Some _ => _ | None => _ end] => destruct c
         end; intros E; try discriminate E; injection E as <-;
    cbn; repeat split; reflexivity.
Qed.

(** X1.  A call of [authenticate] that returns false consumes no nonce
    count and computes nothing: the count, its rendering, the client
    nonce, the selected qop, the method, the URI, the credentials and
    the stored response are what they were before the call. *)
Theorem failed_call_consumes_nothing (MD5 : string -> string)
    (d : DigestAuthentication) (request : OutgoingRequestMessage)
    (challenge : Challenge) (body : option string) (token : string) :
  fst (authenticate MD5 d request challenge body token) = false ->
  untouched d (snd (authenticate MD5 d request challenge body token)).
Proof.
  destruct (authenticate MD5 d request challenge body token) as [ok d'] eqn:E.
  cbn [fst snd]. intros ->.
  exact (authenticate_failure MD5 d d' request challenge body token E).
Qed.

Lemma failed_call_consumes_nothing_witness :
  fst (authenticate sample_MD5 sample_last sample_request sample_challenge_sha
         None "token") = false /\
  nc (snd (authenticate sample_MD5 sample_last sample_request sample_challenge_sha
             None "token")) = 4294967295%N.
Proof.
  assert (H : fst (authenticate sample_MD5 sample_last sample_request
                     sample_challenge_sha None "token") = false) by reflexivity.
  split; [exact H|].
  destruct (failed_call_consumes_nothing sample_MD5 sample_last sample_request
              sample_challenge_sha None "token" H) as (Hnc & _).
  rewrite Hnc. reflexivity.
Defined.

Lemma next_nc_countAfter (k : N) : next_nc (countAfter k) = countAfter (k + 1).
Proof.
  unfold next_nc, countAfter.
  destruct (N.eqb_spec k 0) as [->|Hk]; [reflexivity|].
  destruct (N.eqb_spec (k + 1) 0) as [H0|_]; [lia|].
  replace (k + 1 - 1)%N with k by lia.
  destruct (N.eqb_spec ((k - 1) mod 4294967295 + 1 + 1) 4294967296) as [H|H];
    zify; Z.to_euclidean_division_equations; lia.
Qed.

Lemma countAfter_bound (k : N) : (countAfter k < 4294967296)%N.
Proof.
  unfold countAfter. destruct (N.eqb_spec k 0); [lia|].
  zify; Z.to_euclidean_division_equations; lia.
Qed.

Lemma successes_cons (ok : bool) (oks : list bool) :
  successes (ok :: oks) = ((if ok then 1 else 0) + successes oks)%N.
Proof. reflexivity. Qed.

(** The count and its rendering along a series of calls. *)
Lemma authenticateAll_count (MD5 : string -> string) (calls : list Call) :
  forall (d : DigestAuthentication) (k : N),
    nc d = countAfter k -> String.length (ncHex d) = 8 ->
    hexValue (ncHex d) = Some (nc d) ->
    let r := authenticateAll MD5 d calls in
    nc (snd r) = countAfter (k + successes (fst r)) /\
    String.length (ncHex (snd r)) = 8 /\
    hexValue (ncHex (snd r)) = Some (nc (snd r)).
Proof.
  induction calls as [|c rest IH]; intros d k Hnc Hlen Hhex; cbn [authenticateAll].
  - cbn. rewrite N.add_0_r. auto.
  - destruct (authenticate MD5 d (call_request c) (call_challenge c)
                (call_body c) (call_token c)) as [ok d1] eqn:E.
    destruct (authenticateAll MD5 d1 rest) as [oks d2] eqn:E2.
    cbn [fst snd]. rewrite successes_cons.
    assert (Hstep : nc d1 = countAfter (k + (if ok then 1 else 0))
                    /\ String.length (ncHex d1) = 8
                    /\ hexValue (ncHex d1) = Some (nc d1)).
    { destruct ok.
      - destruct (authenticate_success MD5 d d1 _ _ _ _ E) as (pre & Hpre & ->).
        destruct (calculateResponse_keeps MD5 (call_body c) (counted pre))
          as (K1 & K2 & _).
        destruct (counted_spec pre) as (C1 & C2 & C3 & _).
        { rewrite Hpre, Hnc. apply countAfter_bound. }
        rewrite K1, K2, C1, Hpre, Hnc, next_nc_countAfter.
        split; [reflexivity|]. split; [exact C2|].
        rewrite C3, C1, Hpre, Hnc, next_nc_countAfter. reflexivity.
      - destruct (authenticate_failure MD5 d d1 _ _ _ _ E) as (F1 & F2 & _).
        rewrite F1, F2, N.add_0_r. auto. }
    destruct Hstep as (S1 & S2 & S3).
    specialize (IH d1 _ S1 S2 S3). rewrite E2 in IH. cbn [fst snd] in IH.
    rewrite N.add_assoc. exact IH.
Qed.

(** X2.  Over any series of challenges answered with one object, the
    nonce count is the number of calls that succeeded (1, 2, ... up to
    2^32 - 1, then 1 again: after the first success it is never 0),
    and [ncHex] is always that count written as exactly eight
    hexadecimal digits. *)
Theorem count_is_number_of_successes (MD5 : string -> string)
    (user pass : option string) (calls : list Call) :
  let r := authenticateAll MD5 (constructor user pass) calls in
  nc (snd r) = countAfter (successes (fst r)) /\
  (successes (fst r) <> 0%N -> (1 <= nc (snd r) <= 4294967295)%N) /\
  String.length (ncHex (snd r)) = 8 /\
  hexValue (ncHex (snd r)) = Some (nc (snd r)).
Proof.
  intros r.
  destruct (authenticateAll_count MD5 calls (constructor user pass) 0
              eq_refl eq_refl eq_refl) as (H1 & H2 & H3).
  fold r in H1, H2, H3. rewrite N.add_0_l in H1.
  split; [exact H1|]. split; [|split; assumption].
  intros Hne. rewrite H1. unfold countAfter.
  destruct (N.eqb_spec (successes (fst r)) 0); [contradiction|].
  zify; Z.to_euclidean_division_equations; lia.
Qed.

Lemma calculateResponse_sets (MD5 : string -> string) (body : option string)
    (d : DigestAuthentication) :
  qop d = Some "auth" \/ qop d = Some "auth-int" \/ qop d = None ->
  isSome (response (calculateResponse MD5 body d)) = true.
Proof.
  unfold calculateResponse. intros [H | [H | H]]; rewrite H; reflexivity.
Qed.

Lemma counted_qop (d : DigestAuthentication) : qop (counted d) = qop d.
Proof. unfold counted. cbv zeta. destruct (_ =? _)%N; reflexivity. Qed.

(** A successful call leaves a response. *)
Lemma authenticate_success_response (MD5 : string -> string)
    (d d' : DigestAuthentication) (request : OutgoingRequestMessage)
    (challenge : Challenge) (body : option string) (token : string) :
  authenticate MD5 d request challenge body token = (true, d') ->
  isSome (response d') = true /\ algorithm d' = Some "MD5".
Proof.
  unfold authenticate. cbv zeta. intros H.
  set (d1 := set_challenge challenge d) in *.
  destruct (JS.truthy (algorithm d1) && negb (JS.show (algorithm d1) =? "MD5"))
    eqn:Ealg; [discriminate H|].
  set (d2 := if JS.truthy (algorithm d1) then d1 else set_algorithm (Some "MD5") d1) in *.
  assert (Ha : algorithm d2 = Some "MD5").
  { unfold d2. destruct (JS.truthy (algorithm d1)) eqn:Et; [|reflexivity].
    cbn [andb] in Ealg. apply negb_false_iff, String.eqb_eq in Ealg.
    destruct (algorithm d1) as [a|]; [|discriminate Et].
    cbn in Ealg. congruence. }
  destruct (negb (JS.truthy (realm d2))); [discriminate H|].
  destruct (negb (JS.truthy (nonce d2))); [discriminate H|].
  assert (Hgen : forall pre : DigestAuthentication,
            qop pre = Some "auth" \/ qop pre = Some "auth-int" \/ qop pre = None ->
            algorithm pre = Some "MD5" ->
            isSome (response (calculateResponse MD5 body (counted pre))) = true /\
            algorithm (calculateResponse MD5 body (counted pre)) = Some "MD5").
  { intros pre Hq Hal. split.
    - apply calculateResponse_sets. rewrite counted_qop. exact Hq.
    - assert (Hc : algorithm (counted pre) = algorithm pre)
        by (unfold counted; cbv zeta; destruct (_ =? _)%N; reflexivity).
      rewrite <- Hal, <- Hc. unfold calculateResponse.
      destruct (qop (counted pre)) as [q|];
        [destruct (String.eqb q "auth"); [|destruct (String.eqb q "auth-int")]|];
        reflexivity. }
  destruct (ch_qop challenge) as [q|].
  - destruct (qop_present (Some q)).
    + destruct (qop_contains q "auth").
      * injection H as <-.
        apply (Hgen (set_request request token (set_qop (Some "auth") d2)));
          [left; reflexivity | exact Ha].
      * destruct (qop_contains q "auth-int"); [|discriminate H].
        injection H as <-.
        apply (Hgen (set_request request token (set_qop (Some "auth-int") d2)));
          [right; left; reflexivity | exact Ha].
    + injection H as <-.
      apply (Hgen (set_request request token (set_qop None d2)));
        [right; right; reflexivity | exact Ha].
  - injection H as <-.
    apply (Hgen (set_request request token (set_qop None d2)));
      [right; right; reflexivity | exact Ha].
Qed.

(** The response is set by the first success and kept from then on. *)
Lemma authenticateAll_response (MD5 : string -> string) (calls : list Call) :
  forall d : DigestAuthentication,
    let r := authenticateAll MD5 d calls in
    isSome (response (snd r)) = isSome (response d) || existsb (fun ok => ok) (fst r).
Proof.
  induction calls as [|c rest IH]; intros d; cbn [authenticateAll].
  - cbn. rewrite orb_false_r. reflexivity.
  - destruct (authenticate MD5 d (call_request c) (call_challenge c)
                (call_body c) (call_token c)) as [ok d1] eqn:E.
    specialize (IH d1).
    destruct (authenticateAll MD5 d1 rest) as [oks d2] eqn:E2.
    cbn [fst snd existsb] in *. rewrite IH.
    destruct ok.
    + destruct (authenticate_success_response MD5 d d1 _ _ _ _ E) as [-> _].
      cbn. rewrite orb_true_r. reflexivity.
    + destruct (authenticate_failure MD5 d d1 _ _ _ _ E) as (_ & _ & _ & F & _).
      rewrite F. reflexivity.
Qed.

(** X3.  [toString()] throws as long as no call of [authenticate] has
    succeeded on the object, however many have failed, and returns a
    header value from the first success on, whatever calls follow. *)
Theorem header_available_after_first_success (MD5 : string -> string)
    (user pass : option string) (calls : list Call) :
  let r := authenticateAll MD5 (constructor user pass) calls in
  if existsb (fun ok => ok) (fst r)
  then toString (snd r) = Normal ("Digest " ++ String.concat ", " (authParams (snd r)))
  else toString (snd r)
       = Throw (Error "response field does not exist, cannot generate Authorization header").
Proof.
  intros r. pose proof (authenticateAll_response MD5 calls (constructor user pass)) as H.
  fold r in H. cbn [constructor response isSome orb] in H.
  unfold toString. rewrite H.
  destruct (existsb (fun ok => ok) (fst r)); reflexivity.
Qed.

Lemma calculateResponse_body (MD5 : string -> string) (body body' : option string)
    (d : DigestAuthentication) :
  qop d <> Some "auth-int" ->
  calculateResponse MD5 body d = calculateResponse MD5 body' d.
Proof.
  unfold calculateResponse. intros Hq. destruct (qop d) as [q|]; [|reflexivity].
  destruct (String.eqb q "auth"); [reflexivity|].
  destruct (String.eqb_spec q "auth-int") as [->|_]; [now elim Hq | reflexivity].
Qed.

Lemma calculateResponse_absent_body (MD5 : string -> string)
    (d : DigestAuthentication) :
  calculateResponse MD5 None d = calculateResponse MD5 (Some "") d.
Proof. reflexivity. Qed.

(** X4.  The message body enters the digest only when qop "auth-int"
    is selected: a call that fails does the same whatever the body
    is, whatever qop an earlier call left on the object, and so does
    a call that ends with another qop than "auth-int"; and an absent
    body counts as the empty one in every case. *)
Theorem body_matters_only_for_auth_int (MD5 : string -> string)
    (d : DigestAuthentication) (request : OutgoingRequestMessage)
    (challenge : Challenge) (body body' : option string) (token : string) :
  authenticate MD5 d request challenge None token
  = authenticate MD5 d request challenge (Some "") token /\
  (fst (authenticate MD5 d request challenge body token) = false ->
   authenticate MD5 d request challenge body' token
   = authenticate MD5 d request challenge body token) /\
  (qop (snd (authenticate MD5 d request challenge body token)) <> Some "auth-int" ->
   authenticate MD5 d request challenge body' token
   = authenticate MD5 d request challenge body token).
Proof.
  unfold authenticate. cbv zeta.
  set (d1 := set_challenge challenge d).
  destruct (JS.truthy (algorithm d1) && negb (JS.show (algorithm d1) =? "MD5"));
    [repeat split|].
  set (d2 := if JS.truthy (algorithm d1) then d1 else set_algorithm (Some "MD5") d1).
  destruct (negb (JS.truthy (realm d2))); [repeat split|].
  destruct (negb (JS.truthy (nonce d2))); [repeat split|].
  assert (Hgen : forall pre : DigestAuthentication,
            (true, calculateResponse MD5 None (counted pre))
            = (true, calculateResponse MD5 (Some "") (counted pre)) /\
            (fst (true, calculateResponse MD5 body (counted pre)) = false ->
             (true, calculateResponse MD5 body' (counted pre))
             = (true, calculateResponse MD5 body (counted pre))) /\
            (qop (snd (true, calculateResponse MD5 body (counted pre))) <> Some "auth-int" ->
             (true, calculateResponse MD5 body' (counted pre))
             = (true, calculateResponse MD5 body (counted pre)))).
  { intros pre. split; [reflexivity|]. split; [discriminate|].
    cbn [snd]. intros Hq. f_equal.
    apply calculateResponse_body.
    destruct (calculateResponse_keeps MD5 body (counted pre)) as (_ & _ & K).
    rewrite <- K. exact Hq. }
  destruct (ch_qop challenge) as [q|].
  - destruct (qop_present (Some q)).
    + destruct (qop_contains q "auth"); [apply Hgen|].
      destruct (qop_contains q "auth-int"); [apply Hgen | repeat split].
    + apply Hgen.
  - apply Hgen.
Qed.

Lemma hexDigitValue_bound (c : ascii) (v : N) :
  hexDigitValue c = Some v -> (v < 16)%N.
Proof.
  unfold hexDigitValue. cbv zeta.
  destruct ((48 <=? N_of_ascii c) && (N_of_ascii c <=? 57))%N eqn:E1.
  - intros [= <-]. apply andb_true_iff in E1 as [H1 H2].
    apply N.leb_le in H1, H2. lia.
  - destruct ((97 <=? N_of_ascii c) && (N_of_ascii c <=? 102))%N eqn:E2;
      [|discriminate].
    intros [= <-]. apply andb_true_iff in E2 as [H1 H2].
    apply N.leb_le in H1, H2. lia.
Qed.

(** A string of [k] hexadecimal digits denotes a number below [16^k]. *)
Lemma hexValue_aux_bound (s : string) : forall acc v : N,
  hexValue_aux acc s = Some v ->
  (v < (acc + 1) * 16 ^ N.of_nat (String.length s))%N.
Proof.
  induction s as [|c s IH]; intros acc v; cbn [hexValue_aux String.length].
  - intros [= <-]. cbn. lia.
  - destruct (hexDigitValue c) as [dv|] eqn:Ed; [|discriminate].
    intros H. specialize (IH _ _ H).
    pose proof (hexDigitValue_bound c dv Ed) as Hd.
    replace (N.of_nat (S (String.length s))) with (N.succ (N.of_nat (String.length s)))
      by lia.
    rewrite N.pow_succ_r'.
    assert (Hp : (0 < 16 ^ N.of_nat (String.length s))%N)
      by (apply N.neq_0_lt_0, N.pow_nonzero; lia).
    nia.
Qed.

(** X5.  [updateNcHex] pads but never truncates: for every count the
    digits stored in [ncHex] denote that count, in at least eight
    characters, and in exactly eight precisely when the count is below
    2^32. *)
Theorem updateNcHex_round_trip (d : DigestAuthentication) :
  nc (updateNcHex d) = nc d /\
  hexValue (ncHex (updateNcHex d)) = Some (nc d) /\
  8 <= String.length (ncHex (updateNcHex d)) /\
  (String.length (ncHex (updateNcHex d)) = 8 <-> (nc d < 4294967296)%N).
Proof.
  split; [reflexivity|].
  assert (Hv : hexValue (ncHex (updateNcHex d)) = Some (nc d)).
  { unfold updateNcHex, hexValue. cbn [ncHex set_ncHex].
    rewrite hexValue_aux_zeros by lia. apply toString16_value. }
  split; [exact Hv|].
  assert (Hlen : String.length (ncHex (updateNcHex d))
                 = 8 - String.length (toString16 (nc d))
                   + String.length (toString16 (nc d))).
  { unfold updateNcHex. cbn [ncHex set_ncHex].
    rewrite string_length_app, zeros_length by lia. reflexivity. }
  split; [lia|]. split.
  - intros H8. pose proof (hexValue_aux_bound _ 0 _ Hv) as Hb.
    rewrite H8 in Hb. cbn in Hb. lia.
  - intros Hn. destruct (updateNcHex_spec d Hn) as (_ & H & _). exact H.
Qed.

End DigestUseFacts.

(** ** PUBLISH client: disposal, failures, recovery and refresh *)

Module PublisherUseFacts.

Import Eff Publisher PublisherSpec PublisherUse.
Local Open Scope eff_scope.

Lemma zero_is_zero : JS.strict_eq (JS.of_Z 0) (JS.of_Z 0) = true.
Proof. reflexivity. Qed.

Local Opaque JS.ge JS.le JS.strict_eq JS.scale JS.of_Z.

Ltac run :=
  cbv [receiveResponse accepted cleanup giveUp stateTransition clearRefreshTimer
       dispose unpublish publish refreshRequest sendPublishRequest
       bind get modify emit ret throw when];
  cbn.

(** X6.  [dispose()] never throws and acts once: the first call
    removes the publisher from the user agent and, when
    [unpublishOnClose] is set and the publisher is Published and holds
    a tag, sends one removal PUBLISH (Expires 0, If-Match the tag, no
    body); a call on a disposed publisher does nothing. *)
Theorem dispose_acts_once (p : Publisher) :
  let r := dispose p in
  fst (fst r) = Normal tt /\
  disposed (after r) = true /\
  dispose (after r) = (Normal tt, after r, []) /\
  snd r = (if disposed p then []
           else RemovedFromUserAgent ::
                (if options_unpublishOnClose p && state_eqb (_state p) Published
                    && isSome (pubRequestEtag p)
                 then [PublishSent (JS.of_Z 0) (pubRequestEtag p) None]
                 else [])).
Proof.
  destruct p as [st dis bd ex et tm ob oe ou]. unfold after. run.
  destruct dis; cbn; [repeat split|].
  destruct ou; cbn; [|repeat split].
  destruct st; cbn; try (repeat split; fail).
  destruct et; cbn; repeat split.
Qed.

Section WithNumber.

Variable Number : string -> JS.number.



(** X9.  After a 200-class response accepted from Initial or
    Unpublished with a non-zero effective expires, the refresh sent
    when the timer fires carries the effective expires, the tag held
    after that response as If-Match, and no body; if no tag is held
    (the response had no SIP-ETag and none was held before), the
    refresh throws "Etag undefined" and sends nothing. *)
Theorem refresh_carries_last_tag (response : IncomingResponseMessage)
    (p : Publisher) (c : Z) :
  statusCode response = Some c -> is2xx c = true ->
  _state p = Initial \/ _state p = Unpublished ->
  JS.strict_eq (effective Number response (pubRequestExpires p)) (JS.of_Z 0) = false ->
  let p1 := after (receiveResponse Number response p) in
  match stored response p with
  | Some tag =>
      fst (fst (refreshRequest p1)) = Normal tt /\
      snd (refreshRequest p1)
      = [PublishSent (effective Number response (pubRequestExpires p)) (Some tag) None]
  | None =>
      refreshRequest p1 = (Throw (Error "Etag undefined"),
                           set_pubRequestBody None (set_publishRefreshTimer None p1), [])
  end.
Proof.
  intros Hc H2 Hst Hne p1. unfold p1, after.
  rewrite (PublisherFacts.accepted_schedules_refresh Number response p c Hc H2 Hst Hne).
  cbn [fst snd]. destruct (stored response p) as [tag|] eqn:Es.
  - run. rewrite ?Hne. cbn. rewrite ?Hne. cbn. split; reflexivity.
  - run. reflexivity.
Qed.

End WithNumber.



Lemma refresh_carries_last_tag_witness :
  let p1 := after (receiveResponse JS.NumberDec ok_response sent) in
  fst (fst (refreshRequest p1)) = Normal tt /\
  snd (refreshRequest p1) = [PublishSent (JS.of_Z 3600) (Some "abc") None].
Proof.
  exact (refresh_carries_last_tag JS.NumberDec ok_response sent 200
           eq_refl eq_refl (or_introl eq_refl) eq_refl).
Defined.

(** X10.  [unpublish()] sends a removal (Expires 0, If-Match the tag,
    no body) exactly when a tag is held; a [publish] that follows it
    starts a new publication: it carries the configured expires, the
    new content and no If-Match. *)
Theorem publish_after_unpublish_is_initial (p : Publisher) (content : option string) :
  let r := unpublish p in
  fst (fst r) = Normal tt /\
  snd r = (if isSome (pubRequestEtag p)
           then [PublishSent (JS.of_Z 0) (pubRequestEtag p) None] else []) /\
  fst (fst (publish content (after r))) = Normal tt /\
  snd (publish content (after r)) = [PublishSent (options_expires p) None content].
Proof.
  destruct p as [st dis bd ex et tm ob oe ou]. unfold after.
  destruct et; run; rewrite ?zero_is_zero; cbn; repeat split.
Qed.

End PublisherUseFacts.

(** ** User agent: responses, invitations and repeated shutdown *)

Module UserAgentUseFacts.

Import Eff UserAgent UserAgentSpec UserAgentUse UserAgentFacts.
Local Open Scope eff_scope.

Section WithNumber.
Variable Number : string -> JS.number.

Lemma responseLacksHeader_spec (m : IncomingResponseMessage) :
  forallb (r_hasHeader m) mandatoryHeaders = false <-> responseLacksHeader m.
Proof.
  unfold responseLacksHeader, mandatoryHeaders. split.
  - intros H. cbn in H.
    repeat match type of H with
           | (?b && _)%bool = false =>
               let E := fresh in destruct b eqn:E;
                 [cbn in H | eexists; split; [|exact E]; cbn; auto 10]
           end.
    discriminate H.
  - intros (name & Hin & Hn). cbn in Hin.
    repeat (destruct Hin as [<- | Hin]; [cbn; rewrite Hn, ?andb_false_r; reflexivity|]).
    contradiction.
Qed.

Lemma responseTooShort_spec (m : IncomingResponseMessage) :
  lengthMismatch Number (r_body m) (r_getHeader m "content-length") = true
  <-> responseTooShort Number m.
Proof.
  unfold lengthMismatch, responseTooShort.
  destruct (r_getHeader m "content-length") as [d|].
  - split.
    + intros H. apply andb_true_iff in H as [Ht Hl].
      exists d. split; [reflexivity|]. split; [|exact Hl].
      intros ->. discriminate Ht.
    + intros (d' & [= <-] & Hne & Hl). apply andb_true_iff. split; [|exact Hl].
      cbn. destruct (String.eqb_spec d ""); [contradiction | reflexivity].
  - split; [discriminate | intros (d & Hd & _); discriminate].
Qed.

(** X11.  An inbound response is never answered.  It is handed to
  the core exactly when the five mandatory headers are present, it
  counts no more than one Via, the host of its Via is the
  configured one, without a port, and it declares no
  Content-Length above the UTF-8 length of its body; otherwise it
  is dropped.  The state of the user
  agent plays no part: a response is processed while Stopped as
  while Started. *)
Theorem response_path (u : UserAgent) (m : IncomingResponseMessage) :
  let h := onTransportMessage Number u (Some (Response m)) in
  (h = ResponseToCore \/ isDropped h) /\
  (h = ResponseToCore <->
   ~ responseLacksHeader m /\ ownVia u m /\ ~ responseTooShort Number m) /\
  (forall s, onTransportMessage Number (set_state s u) (Some (Response m)) = h).
Proof.
  unfold onTransportMessage, ownVia.
  pose proof (responseLacksHeader_spec m) as Hm.
  pose proof (responseTooShort_spec m) as Ht.
  cbn [viaHost set_state].
  destruct (forallb (r_hasHeader m) mandatoryHeaders).
  2:{ cbn. split; [right; eexists; reflexivity|]. split; [|reflexivity].
      split; [discriminate|]. intros (H & _). elim H. apply Hm. reflexivity. }
  cbn [negb].
  destruct (Nat.ltb_spec 1 (r_viaCount m)) as [Hv|Hv].
  { split; [right; eexists; reflexivity|]. split; [|reflexivity].
    split; [discriminate|]. intros (_ & (H & _) & _). lia. }
  destruct (String.eqb_spec (r_viaHost m) (viaHost u)) as [Hh|Hh]; cbn [negb orb].
  2:{ split; [right; eexists; reflexivity|]. split; [|reflexivity].
      split; [discriminate|]. intros (_ & (_ & H & _) & _). contradiction. }
  destruct (r_viaPort m) as [port|]; cbn [isSome].
  { split; [right; eexists; reflexivity|]. split; [|reflexivity].
    split; [discriminate|]. intros (_ & (_ & _ & H) & _). discriminate. }
  destruct (lengthMismatch Number (r_body m) (r_getHeader m "content-length")).
  { split; [right; eexists; reflexivity|]. split; [|reflexivity].
    split; [discriminate|]. intros (_ & _ & H). elim H. apply Ht. reflexivity. }
  split; [left; reflexivity|]. split; [|reflexivity].
  split; [|reflexivity]. intros _.
  split; [intros H; apply Hm in H; discriminate|].
  split; [auto|]. intros H; apply Ht in H; discriminate.
Qed.
End WithNumber.

Lemma onInvite_run (request : IncomingInviteRequest) (u : UserAgent) :
  onInvite request u =
  match replacesChecks request u with
  | (Normal (Some _), u1, evs) =>
      (Normal tt, u1, InvitationConstructed :: TryingSent :: evs)
  | (Normal None, u1, evs) =>
      match afterChecks request u1 with
      | (r2, u2, evs2) =>
          (r2, u2, InvitationConstructed :: TryingSent :: (evs ++ evs2)%list)
      end
  | (Throw e, u1, evs) => (Throw e, u1, InvitationConstructed :: TryingSent :: evs)
  | (OutOfFuel, u1, evs) => (OutOfFuel, u1, InvitationConstructed :: TryingSent :: evs)
  end.
Proof.
  unfold onInvite. unfold bind at 1, emit at 1. unfold bind at 1, emit at 1.
  unfold bind at 1.
  destruct (replacesChecks request u) as [[[[code|]|e|] u1] evs]; cbn [app];
    try reflexivity.
  - unfold ret. rewrite app_nil_r. reflexivity.
  - fold (afterChecks request).
    destruct (afterChecks request u1) as [[r2 u2] evs2]. reflexivity.
Qed.

(** What the Replaces checks leave behind: the user agent as it was,
    and one rejection exactly when they end the handling. *)
Lemma replacesChecks_count (request : IncomingInviteRequest) (u : UserAgent) :
  match replacesChecks request u with
  | (Normal (Some _), u1, evs) => u1 = u /\ rejections evs = 1 /\ deliveries evs = 0
  | (Normal None, u1, evs) => u1 = u /\ rejections evs = 0 /\ deliveries evs = 0
  | (Throw _, u1, evs) => u1 = u /\ rejections evs = 0 /\ deliveries evs = 0
  | (OutOfFuel, _, _) => False
  end.
Proof.
  unfold replacesChecks, checkReplaces, bind, get, emit, ret, throw.
  destruct (negb (extension_eqb (sipExtensionReplaces u) Unsupported));
    [|repeat split].
  destruct (replaces request) as [header|]; [|repeat split].
  destruct (call_id header); [|repeat split].
  destruct (replaces_to_tag header); [|repeat split].
  destruct (replaces_from_tag header); [|repeat split].
  destruct (dialogs u !! _) as [d|]; [|repeat split].
  destruct (negb (early d) && bool_decide (early_only header = Some true));
    [repeat split|].
  destruct (lookup _ (_sessions u)); [repeat split|].
  destruct (lookup _ (_sessions u)); repeat split.
Qed.

Lemma afterChecks_count (request : IncomingInviteRequest) (u : UserAgent) :
  match afterChecks request u with
  | (r, _, evs) =>
      rejections evs + deliveries evs <= 1 /\
      forall e, r = Throw e ->
        rejections evs = 0 /\ deliveries evs = 1 /\
        autoSendAnInitialProvisionalResponse request = false /\
        exists d, delegate u = Some d /\ onInvite_defined d = true
                  /\ onInvite_raises d = Some e
  end.
Proof.
  unfold afterChecks. rewrite UserAgentFacts.bind_get. cbv zeta.
  unfold bind, emit, ret, throw, when, rejections, deliveries.
  destruct (delegate u) as [dl|]; [destruct (onInvite_defined dl) eqn:Hd|];
    cbn [negb]; try (cbn; split; [lia | discriminate]).
  destruct (autoSendAnInitialProvisionalResponse request) eqn:Ha; cbn [negb].
  - destruct (progressResolves request); cbn; split; try lia; discriminate.
  - destruct (onInvite_raises dl) as [e0|] eqn:Hr; cbn; (split; [lia|]);
      [|discriminate].
    intros e [= <-]. repeat split. exists dl. repeat split; assumption.
Qed.

Lemma rejections_app (a b : list Event) :
  rejections (a ++ b) = rejections a + rejections b.
Proof. unfold rejections. rewrite List.filter_app, length_app. reflexivity. Qed.

Lemma deliveries_app (a b : list Event) :
  deliveries (a ++ b) = deliveries a + deliveries b.
Proof. unfold deliveries. rewrite List.filter_app, length_app. reflexivity. Qed.

(** X12.  Every incoming INVITE is first given an invitation and a
    100 Trying; after that [onInvite] itself rejects it at most once
    or hands it to the delegate at most once, never both.  When
    [onInvite] throws it has sent no rejection, and it has handed the
    invitation over only if the exception is the one raised by the
    delegate's handler, called directly. *)
Theorem invite_has_one_outcome (request : IncomingInviteRequest) (u : UserAgent) :
  let r := onInvite request u in
  firstn 2 (snd r) = [InvitationConstructed; TryingSent] /\
  rejections (snd r) + deliveries (snd r) <= 1 /\
  (forall e, fst (fst r) = Throw e ->
     rejections (snd r) = 0 /\
     (deliveries (snd r) = 1 ->
      autoSendAnInitialProvisionalResponse request = false /\
      exists d, delegate u = Some d /\ onInvite_defined d = true
                /\ onInvite_raises d = Some e)).
Proof.
  cbv zeta. rewrite onInvite_run.
  pose proof (replacesChecks_count request u) as Hc.
  destruct (replacesChecks request u) as [[[[code|]|e0|] u1] evs];
    [| | |contradiction].
  - destruct Hc as (-> & H1 & H2). cbn [fst snd firstn].
    split; [reflexivity|]. split; [|intros e H; discriminate H].
    change (InvitationConstructed :: TryingSent :: evs)
      with ([InvitationConstructed; TryingSent] ++ evs)%list.
    rewrite rejections_app, deliveries_app, H1, H2. cbn. lia.
  - destruct Hc as (-> & H1 & H2).
    pose proof (afterChecks_count request u) as Ha.
    destruct (afterChecks request u) as [[r2 u2] evs2]. cbn [fst snd firstn].
    destruct Ha as [Hle Hthrow].
    change (InvitationConstructed :: TryingSent :: (evs ++ evs2)%list)
      with ([InvitationConstructed; TryingSent] ++ (evs ++ evs2))%list.
    rewrite !rejections_app, !deliveries_app, H1, H2.
    split; [reflexivity|]. split; [cbn; lia|].
    intros e He. destruct (Hthrow e He) as (Hr & Hd & Hauto & Hdel).
    split; [cbn; lia|]. intros _. split; assumption.
  - destruct Hc as (-> & H1 & H2). cbn [fst snd firstn].
    change (InvitationConstructed :: TryingSent :: evs)
      with ([InvitationConstructed; TryingSent] ++ evs)%list.
    rewrite rejections_app, deliveries_app, H1, H2.
    split; [reflexivity|]. split; [cbn; lia|].
    intros e _. split; [reflexivity|]. cbn. discriminate.
Qed.

(** A handler that throws: the invitation has been handed over, and
    [onInvite] throws what the handler threw. *)
Example handler_throws_after_delivery :
  onInvite plain_invite attended
  = (Throw (Error "handler failed"), attended,
     [InvitationConstructed; TryingSent; DelegateOnInvite]).
Proof. reflexivity. Qed.



End UserAgentUseFacts.

(** ** Transport: observers, the shape between turns, promises *)

Module TransportDriverFacts.

Import Eff EffFacts Transport TransportSpec TransportFacts TransportDriver.
Local Open Scope eff_scope.

Lemma fst_bind {S E A B} (m m' : Eff.M S E A) (k : A -> Eff.M S E B) (s : S) :
  fst (m s) = fst (m' s) -> fst (bind m k s) = fst (bind m' k s).
Proof.
  unfold bind. destruct (m s) as [[r s1] ev], (m' s) as [[r' s1'] ev'].
  cbn. intros [= -> ->]. destruct r' as [a|e|]; [|reflexivity|reflexivity].
  destruct (k a s1') as [[r2 s2] ev2]. reflexivity.
Qed.

Lemma bind_get_run {S E A} (k : S -> Eff.M S E A) (s : S) : bind get k s = k s s.
Proof.
  unfold bind, get. destruct (k s s) as [[[a|e|] s1] ev]; reflexivity.
Qed.

Lemma bind_modify_run {S E A} (f : S -> S) (k : unit -> Eff.M S E A) (s : S) :
  bind (modify f) k s = k tt (f s).
Proof.
  unfold bind, modify. destruct (k tt (f s)) as [[[a|e|] s1] ev]; reflexivity.
Qed.

Section Harmless.
Variable webSocketThrows : option Exn.
Variable nested : TransportState -> option Exn -> M unit.
Hypothesis Hguard : guarded nested.

Lemma runObserver_harmless (script : list Action) (t : Transport) :
  transitioningState t = true -> consistent t -> harmless script ->
  runObserver webSocketThrows nested script t = (Normal tt, t, answers script).
Proof.
  intros Hflag Hc. induction 1 as [|a script Ha _ IH]; [reflexivity|].
  cbn [runObserver answers map]. unfold bind, perform.
  destruct a as [| |e]; [| |contradiction].
  - destruct (connect_in_transition webSocketThrows nested Hguard t Hflag)
      as (answer & -> & _ & Hans).
    rewrite (Hans Hc). fold (answers script). rewrite IH. reflexivity.
  - destruct (disconnect_in_transition nested Hguard t Hflag)
      as (answer & -> & _ & Hans).
    rewrite (Hans Hc). fold (answers script). rewrite IH. reflexivity.
Qed.
End Harmless.

Section Outcome.
Variable keepAliveConfigured : bool.
Variable webSocketThrows : option Exn.
Variable stateChangeListener : TransportState -> list Action.
Variable onConnect : option (list Action).
Variable onDisconnect : option (option Exn -> list Action).
Variable legacyListener : TransportState -> list Action.
Hypothesis Hwell : wellBehaved stateChangeListener onConnect onDisconnect legacyListener.

Variable nested nested' : TransportState -> option Exn -> M unit.
Hypothesis Hguard : guarded nested.

Lemma body_outcome (newState : TransportState) (error : option Exn) (t : Transport) :
  transitioningState t = false -> consistent t ->
  fst (transitionStateBody keepAliveConfigured webSocketThrows stateChangeListener
         onConnect onDisconnect legacyListener nested newState error t)
  = fst (transitionStateBody keepAliveConfigured webSocketThrows silent None None
           silent nested' newState error t).
Proof.
  intros Hflag Hc. destruct Hwell as (H1 & H2 & H3 & H4).
  unfold transitionStateBody.
  cbv [bind get modify emit ret throw when]. rewrite Hflag.
  destruct t as [st fl ws cp cr cj ct dp dr dj ki kd pr so].
  cbn in Hflag. subst fl. destruct Hc as [Hc1 Hc2]. cbn in Hc1, Hc2.
  assert (Hcp : st <> Connecting -> cp = None).
  { intros Hne. destruct cp; [|reflexivity]. elim Hne. apply Hc1. discriminate. }
  assert (Hdp : st <> Disconnecting -> dp = None).
  { intros Hne. destruct dp; [|reflexivity]. elim Hne. apply Hc2. discriminate. }
  clear Hc1 Hc2.
  destruct st, newState; cbn; try reflexivity;
    try (rewrite (Hcp ltac:(discriminate)) in * );
    try (rewrite (Hdp ltac:(discriminate)) in * );
    clear Hcp Hdp;
    destruct keepAliveConfigured, ki; cbn;
    destruct onConnect as [oc|]; destruct onDisconnect as [od|]; cbn;
    repeat (rewrite (runObserver_harmless webSocketThrows nested Hguard) by
              first [ reflexivity | apply H1 | apply H4
                    | apply H2; reflexivity | apply H3; reflexivity
                    | split; cbn; intros H; exfalso; apply H; reflexivity ];
            cbn).
  all: try reflexivity.
  all: repeat match goal with
              | |- context [match ?x with Some _ => _ | None => _ end] =>
                  is_var x; destruct x; cbn
              end; reflexivity.
Qed.
End Outcome.

Section Outcome2.
Variable keepAliveConfigured : bool.
Variable webSocketThrows : option Exn.
Variable stateChangeListener : TransportState -> list Action.
Variable onConnect : option (list Action).
Variable onDisconnect : option (option Exn -> list Action).
Variable legacyListener : TransportState -> list Action.
Hypothesis Hwell : wellBehaved stateChangeListener onConnect onDisconnect legacyListener.

Local Abbreviation run :=
  (transitionState keepAliveConfigured webSocketThrows stateChangeListener
     onConnect onDisconnect legacyListener).
Local Abbreviation runQuietly :=
  (transitionState keepAliveConfigured webSocketThrows silent None None silent 1).

Lemma run_outcome (n : nat) (newState : TransportState) (error : option Exn)
    (t : Transport) :
  consistent t ->
  fst (run (S (S n)) newState error t) = fst (runQuietly newState error t).
Proof.
  intros Hc. destruct (transitioningState t) eqn:Hflag.
  - rewrite (transitionState_guarded keepAliveConfigured webSocketThrows
               stateChangeListener onConnect onDisconnect legacyListener (S n)
               newState error t Hflag).
    rewrite (transitionState_guarded keepAliveConfigured webSocketThrows
               silent None None silent 0 newState error t Hflag).
    reflexivity.
  - cbn [transitionState]. apply body_outcome; try assumption.
    apply transitionState_guarded.
Qed.

Lemma tryTransition_outcome (nested nested' : TransportState -> option Exn -> M unit)
    (s : TransportState) (t : Transport) :
  fst (nested s None t) = fst (nested' s None t) ->
  fst (tryTransition nested s t) = fst (tryTransition nested' s t).
Proof.
  unfold tryTransition.
  destruct (nested s None t) as [[r t1] ev], (nested' s None t) as [[r' t1'] ev'].
  cbn. intros [= -> ->]. destruct r' as [u|[m|m]|]; reflexivity.
Qed.

Lemma fire_outcome (n : nat) (s : Stimulus) (t : Transport) :
  consistent t ->
  fst (fire keepAliveConfigured webSocketThrows stateChangeListener onConnect
         onDisconnect legacyListener (S (S n)) s t)
  = fst (fireQuietly keepAliveConfigured webSocketThrows s t).
Proof.
  intros Hc. unfold fireQuietly.
  destruct s as [| |ws|ws message|error]; cbn [fire]; apply fst_bind.
  - unfold connect, _connect. rewrite !bind_get_run.
    destruct (_state t); try reflexivity;
      (destruct (isSome (connectPromise t)); [reflexivity|]);
      apply fst_bind, tryTransition_outcome, run_outcome, Hc.
  - unfold disconnect, _disconnect. rewrite !bind_get_run.
    destruct (_state t); try reflexivity;
      (destruct (isSome (disconnectPromise t)); [reflexivity|]);
      apply fst_bind, tryTransition_outcome, run_outcome, Hc.
  - unfold onWebSocketOpen. rewrite !bind_get_run.
    destruct (negb (bool_decide (Some ws = _ws t))); [reflexivity|].
    destruct (state_eqb (_state t) Connecting); [|reflexivity].
    apply run_outcome, Hc.
  - unfold onWebSocketClose. rewrite !bind_get_run.
    destruct (negb (bool_decide (Some ws = _ws t))); [reflexivity|].
    rewrite !bind_modify_run. apply run_outcome.
    destruct Hc as [H1 H2]. split; assumption.
  - unfold constructionFailed. apply fst_bind, run_outcome, Hc.
Qed.

Lemma fire_consistent (n : nat) (s : Stimulus) (t : Transport) :
  consistent t ->
  consistent (snd (fst (fire keepAliveConfigured webSocketThrows stateChangeListener
                          onConnect onDisconnect legacyListener (S (S n)) s t))).
Proof.
  intros Hc. apply wp_final.
  destruct s as [| |ws|ws message|error]; cbn [fire]; apply wp_bind.
  - eapply wp_mono; [| | | apply wp_connect_consistent, Hc]; cbn beta; trivial.
    intros p t1 H. apply wp_ret, H.
  - eapply wp_mono; [| | | apply wp_disconnect_consistent, Hc]; cbn beta; trivial.
    intros p t1 H. apply wp_ret, H.
  - unfold onWebSocketOpen. apply wp_bind, wp_get.
    destruct (negb (bool_decide (Some ws = _ws t))); [apply wp_ret, wp_ret, Hc|].
    destruct (state_eqb (_state t) Connecting); [|apply wp_ret, wp_ret, Hc].
    eapply wp_mono; [| | | exact (wp_run_consistent _ _ _ _ _ _ n Connected None t Hc)];
      cbn beta; [|trivial|trivial].
    intros _ t1 [H _]. apply wp_ret, quiet_consistent, H.
  - unfold onWebSocketClose. apply wp_bind, wp_get.
    destruct (negb (bool_decide (Some ws = _ws t))); [apply wp_ret, wp_ret, Hc|].
    apply wp_bind, wp_modify.
    eapply wp_mono; [| | | apply (wp_run_consistent _ _ _ _ _ _ n Disconnected)];
      cbn beta; [|trivial|trivial|].
    + intros _ t1 [H _]. apply wp_ret, quiet_consistent, H.
    + destruct Hc as [H1 H2]. split; cbn; assumption.
  - unfold constructionFailed. apply wp_bind.
    eapply wp_mono;
      [| | | exact (wp_run_consistent _ _ _ _ _ _ n Disconnected (Some error) t Hc)];
      cbn beta; [|trivial|trivial].
    intros _ t1 [H _]. apply wp_throw, quiet_consistent, H.
Qed.

Lemma fireAll_outcome (n : nat) (series : list Stimulus) : forall t : Transport,
  consistent t ->
  fireAll keepAliveConfigured webSocketThrows stateChangeListener onConnect
    onDisconnect legacyListener (S (S n)) series t
  = fireAll keepAliveConfigured webSocketThrows silent None None silent 1 series t.
Proof.
  induction series as [|s rest IH]; intros t Hc; [reflexivity|].
  cbn [fireAll].
  pose proof (fire_outcome n s t Hc) as Hf.
  pose proof (fire_consistent n s t Hc) as Hc1.
  unfold fireQuietly in Hf.
  destruct (fire keepAliveConfigured webSocketThrows stateChangeListener onConnect
              onDisconnect legacyListener (S (S n)) s t) as [[r t1] ev].
  destruct (fire keepAliveConfigured webSocketThrows silent None None silent 1 s t)
    as [[r' t1'] ev'].
  cbn in Hf, Hc1. injection Hf as -> ->. rewrite (IH _ Hc1). reflexivity.
Qed.
End Outcome2.

Lemma sound_consistent (t : Transport) : sound t -> consistent t.
Proof.
  intros (_ & _ & _ & H). unfold consistent.
  destruct (_state t); destruct H as (H1 & H2 & _);
    repeat match goal with
           | H : noPromise _ _ _ |- _ => destruct H as (-> & _ & _)
           end; split; intros Hne; try reflexivity; now elim Hne.
Qed.

Ltac crunch :=
  cbv [fireQuietly fire connect disconnect _connect _disconnect onWebSocketOpen
       onWebSocketClose tryTransition transitionState transitionStateBody
       openWebSocket closeWebSocket runObserver silent
       bind get modify emit ret throw when];
  cbn.

Lemma keep_settled (pr : list PromiseState) (id i : nat) (x o : PromiseState) :
  pr !! id = Some Pending -> pr !! i = Some o -> o <> Pending ->
  <[id:=x]> pr !! i = Some o.
Proof.
  intros Hid Hi Ho. rewrite list_lookup_insert_ne; [exact Hi|].
  intros ->. rewrite Hid in Hi. injection Hi as <-. now elim Ho.
Qed.

Lemma set_settled (pr : list PromiseState) (id : nat) (x : PromiseState) :
  pr !! id = Some Pending -> <[id:=x]> pr !! id = Some x.
Proof. intros Hid. apply list_lookup_insert_eq. eapply lookup_lt_Some, Hid. Qed.

Ltac decide_sockets :=
  repeat first
    [ rewrite bool_decide_eq_true_2 by reflexivity
    | rewrite bool_decide_eq_false_2 by congruence ].

Lemma quiet_turn (keepAliveConfigured : bool) (s : Stimulus) (t : Transport) :
  sound t -> ordinary s ->
  match fireQuietly keepAliveConfigured None s t with
  | (r, t1, _) => turn t s r t1
  end.
Proof.
  intros (Hflag & Hka & Hws & Hshape) Hs.
  destruct t as [st fl ws cp cr cj ct dp dr dj ki kd pr so].
  cbn in Hflag, Hka, Hws, Hshape. subst fl.
  assert (Hki : st <> Connected -> ki = false).
  { intros Hne. destruct ki; [|reflexivity]. elim Hne. apply Hka. reflexivity. }
  destruct st;
    [ destruct Hshape as ((id & -> & -> & -> & Hid) & (-> & -> & ->) & Hw)
    | destruct Hshape as ((-> & -> & ->) & (-> & -> & ->) & Hw)
    | destruct Hshape as ((-> & -> & ->) & (id & -> & -> & -> & Hid) & Hw)
    | destruct Hshape as ((-> & -> & ->) & (-> & -> & ->) & ->) ];
    try (rewrite (Hki ltac:(discriminate)) in * ); clear Hki;
    try (destruct ws as [sock|]; [|now elim Hw]);
    cbn in *;
    (destruct s as [| |w|w message|error]; [| | | |contradiction]); clear Hs;
    try (destruct (decide (w = sock)) as [->|Hne]);
    destruct keepAliveConfigured;
    match goal with
    | |- match ?m with _ => _ end =>
        let E := fresh "E" in
        eassert (E : m = _)
          by (crunch; decide_sockets; cbn; unfold settle; cbn; rewrite ?Hid; cbn;
              reflexivity);
        rewrite E; clear E
    end;
    unfold turn, react;
    cbn [_state _ws promises connectPromise disconnectPromise state_eqb
         set_state set_transitioningState set_ws set_connect set_connectTimeout
         set_disconnect set_keepAlive set_promises];
    decide_sockets.
  all: (split; [unfold sound, pendingPromise, noPromise; cbn;
    repeat match goal with
           | |- _ /\ _ => split
           | |- exists _, _ => eexists
           | |- _ <> _ => discriminate
           | |- false = true -> _ => discriminate
           | |- _ = true -> _ => reflexivity
           | |- forall ws, None = Some ws -> _ => discriminate
           | |- forall ws, Some _ = Some ws -> _ < S _ =>
               let x := fresh in let E := fresh in
               intros x E; injection E as <-; lia
           | |- forall ws, Some _ = Some ws -> _ => exact Hws
           | |- (_ ++ [Pending])%list !! _ = Some Pending =>
               apply list_lookup_middle; reflexivity
           | |- _ = _ => first [reflexivity | exact Hid]
           end|]).
  all: (split; [reflexivity|]).
  all: (split; [first [reflexivity | eexists; split; reflexivity]|]).
  all: repeat split; intros;
    repeat match goal with
           | H : Some _ = Some _ |- _ => injection H as <-
           | H : None = Some _ |- _ => discriminate H
           | H : ?x <> ?x |- _ => now elim H
           end;
    try assumption;
    repeat match goal with
           | |- (_ ++ _)%list !! _ = Some _ => apply lookup_app_l_Some
           end;
    first [ assumption
          | eapply keep_settled; eassumption
          | apply set_settled; assumption ].
Qed.

Section Env.
Variable keepAliveConfigured : bool.
Variable webSocketThrows : option Exn.
Variable stateChangeListener : TransportState -> list Action.
Variable onConnect : option (list Action).
Variable onDisconnect : option (option Exn -> list Action).
Variable legacyListener : TransportState -> list Action.

Local Abbreviation fireEnv :=
  (fire keepAliveConfigured None stateChangeListener onConnect onDisconnect
     legacyListener).
Local Abbreviation fireAny :=
  (fire keepAliveConfigured webSocketThrows stateChangeListener onConnect
     onDisconnect legacyListener).
Local Abbreviation run :=
  (transitionState keepAliveConfigured webSocketThrows stateChangeListener
     onConnect onDisconnect legacyListener).

(** One turn with well-behaved observers. *)
Lemma turn_with_observers (n : nat) (s : Stimulus) (t : Transport) :
  wellBehaved stateChangeListener onConnect onDisconnect legacyListener ->
  sound t -> ordinary s ->
  turn t s (fst (fst (fireEnv (S (S n)) s t))) (snd (fst (fireEnv (S (S n)) s t))).
Proof.
  intros Hwell Hs Ho.
  rewrite (fire_outcome keepAliveConfigured None _ _ _ _ Hwell n s t
             (sound_consistent t Hs)).
  pose proof (quiet_turn keepAliveConfigured s t Hs Ho) as H.
  destruct (fireQuietly keepAliveConfigured None s t) as [[r t1] ev]. exact H.
Qed.

(** X14.  Observers that raise no exception cannot change what the
    transport does: whatever they are and whatever calls of
    [connect()] and [disconnect()] they make while being notified,
    every series of calls and WebSocket events leaves the transport
    with the same fields, and each turn with the same result, as on
    a transport that has no observers at all. *)
Theorem observers_cannot_interfere (n : nat) (series : list Stimulus)
    (t : Transport) :
  wellBehaved stateChangeListener onConnect onDisconnect legacyListener ->
  consistent t ->
  fireAll keepAliveConfigured webSocketThrows stateChangeListener onConnect
    onDisconnect legacyListener (S (S n)) series t
  = fireAll keepAliveConfigured webSocketThrows silent None None silent 1 series t.
Proof. intros Hwell Hc. apply fireAll_outcome; assumption. Qed.

(** X16.  On a transport in its shape between turns, with observers
    that raise no exception and a WebSocket constructor that does
    not throw, each call and each WebSocket event ends without an
    exception and leaves the state the table [react] gives: [connect()]
    moves Disconnected and Disconnecting to Connecting, [disconnect()]
    moves Connecting and Connected to Disconnecting, the opening of
    the current socket moves Connecting to Connected, its closing
    moves any state to Disconnected, and the events of a socket that
    is not the current one change nothing. *)
Theorem state_follows_the_table (n : nat) (s : Stimulus) (t : Transport) :
  wellBehaved stateChangeListener onConnect onDisconnect legacyListener ->
  sound t -> ordinary s ->
  endedNormally (fst (fst (fireEnv (S (S n)) s t))) /\
  _state (snd (fst (fireEnv (S (S n)) s t))) = react t s.
Proof.
  intros Hwell Hs Ho.
  destruct (turn_with_observers n s t Hwell Hs Ho) as (_ & Hst & Hr & _).
  split; [|exact Hst].
  destruct s; try contradiction;
    try (eexists; exact Hr);
    destruct (_state (snd (fst (fireEnv (S (S n)) _ t))));
    first [ destruct Hr as (id & -> & _); eexists; reflexivity
          | eexists; exact Hr ].
Qed.

(** X18.  [connect()] and [disconnect()] are idempotent: called a
    second time straight after the first, each hands back the same
    promise as the first call, changes no field and notifies
    nobody. *)
Theorem repeated_call_changes_nothing (n : nat) (s : Stimulus) (t : Transport) :
  wellBehaved stateChangeListener onConnect onDisconnect legacyListener ->
  sound t -> s = Connect \/ s = Disconnect ->
  match fireEnv (S (S n)) s t with
  | (r, t1, _) => endedNormally r /\ fireEnv (S (S n)) s t1 = (r, t1, [])
  end.
Proof.
  intros Hwell Hs Hor.
  assert (Ho : ordinary s) by (destruct Hor as [-> | ->]; exact I).
  pose proof (turn_with_observers n s t Hwell Hs Ho) as H.
  destruct (fireEnv (S (S n)) s t) as [[r t1] ev]. cbn [fst snd] in H.
  destruct H as ((Hflag & _ & _ & Hshape) & Hst & Hr & _).
  destruct Hor as [-> | ->];
    cbv [fire connect disconnect _connect _disconnect bind get ret].
  - destruct (_state t1) eqn:E1.
    + destruct Hr as (id & -> & Hp). split; [eexists; reflexivity|].
      cbn; rewrite Hflag; cbn; rewrite Hp; reflexivity.
    + subst r. split; [eexists; reflexivity|].
      destruct Hshape as ((Hp & _) & _).
      cbn; rewrite Hflag; cbn; rewrite Hp; reflexivity.
    + exfalso. revert Hst. unfold react. destruct (_state t); discriminate.
    + exfalso. revert Hst. unfold react. destruct (_state t); discriminate.
  - destruct (_state t1) eqn:E1.
    + exfalso. revert Hst. unfold react. destruct (_state t); discriminate.
    + exfalso. revert Hst. unfold react. destruct (_state t); discriminate.
    + destruct Hr as (id & -> & Hp). split; [eexists; reflexivity|].
      cbn; rewrite Hflag; cbn; rewrite Hp; reflexivity.
    + subst r. split; [eexists; reflexivity|].
      destruct Hshape as (_ & (Hp & _) & _).
      cbn; rewrite Hflag; cbn; rewrite Hp; reflexivity.
Qed.

(** X19.  The promise of [connect()] is settled by whatever ends the
    Connecting state: fulfilled when the socket opens, rejected with
    the close message when the socket closes, rejected with
    "Connect aborted." when [disconnect()] is called.  The promise
    of [disconnect()] is fulfilled when the socket closes and
    rejected with "Disconnect aborted." when [connect()] is
    called. *)
Theorem pending_promise_is_settled (n : nat) (t : Transport) (id ws : nat)
    (message : string) :
  wellBehaved stateChangeListener onConnect onDisconnect legacyListener ->
  sound t -> _ws t = Some ws ->
  let left s := promises (snd (fst (fireEnv (S (S n)) s t))) !! id in
  (_state t = Connecting -> connectPromise t = Some id ->
   left (SocketOpened ws) = Some Fulfilled /\
   left (SocketClosed ws message) = Some (RejectedWith (Error message)) /\
   left Disconnect = Some (RejectedWith (Error "Connect aborted."))) /\
  (_state t = Disconnecting -> disconnectPromise t = Some id ->
   left (SocketClosed ws message) = Some Fulfilled /\
   left Connect = Some (RejectedWith (Error "Disconnect aborted."))).
Proof.
  intros Hwell Hs Hw left.
  assert (Hturn : forall s, ordinary s ->
            turn t s (fst (fst (fireEnv (S (S n)) s t)))
              (snd (fst (fireEnv (S (S n)) s t))))
    by (intros s Ho; apply turn_with_observers; assumption).
  split; intros Hst Hp.
  - pose proof (Hturn (SocketOpened ws) I) as (_ & H1 & _ & _ & P1 & _).
    pose proof (Hturn (SocketClosed ws message) I) as (_ & H2 & _ & _ & P2 & _).
    pose proof (Hturn Disconnect I) as (_ & H3 & _ & _ & P3 & _).
    unfold react in H1, H2, H3. rewrite Hst, ?Hw in *.
    rewrite bool_decide_eq_true_2 in H1, H2 by reflexivity.
    specialize (P1 id Hp). specialize (P2 id Hp). specialize (P3 id Hp).
    rewrite H1 in P1. rewrite H2 in P2. rewrite H3 in P3.
    unfold left. repeat split; [apply P1 | apply P2 | apply P3]; discriminate.
  - pose proof (Hturn (SocketClosed ws message) I) as (_ & H2 & _ & _ & _ & P2).
    pose proof (Hturn Connect I) as (_ & H3 & _ & _ & _ & P3).
    unfold react in H2, H3. rewrite ?Hst, ?Hw in *.
    rewrite bool_decide_eq_true_2 in H2 by reflexivity.
    specialize (P2 id Hp). specialize (P3 id Hp).
    rewrite H2 in P2. rewrite H3 in P3.
    unfold left. repeat split; [apply P2 | apply P3]; discriminate.
Qed.

Lemma series_with_observers (n : nat) (series : list Stimulus) :
  wellBehaved stateChangeListener onConnect onDisconnect legacyListener ->
  forall t : Transport, sound t -> Forall ordinary series ->
  match fireAll keepAliveConfigured None stateChangeListener onConnect
          onDisconnect legacyListener (S (S n)) series t with
  | (t1, rs) =>
      Forall endedNormally rs /\ sound t1 /\
      forall i o, promises t !! i = Some o -> o <> Pending ->
                  promises t1 !! i = Some o
  end.
Proof.
  intros Hwell. induction series as [|s rest IH]; intros t Hs Hord; cbn [fireAll].
  - split; [constructor|]. split; [exact Hs | auto].
  - inversion Hord as [|? ? Ho Hrest]; subst.
    pose proof (turn_with_observers n s t Hwell Hs Ho) as Ht.
    destruct (fire keepAliveConfigured None stateChangeListener onConnect
                onDisconnect legacyListener (S (S n)) s t) as [[r t1] ev].
    cbn [fst snd] in Ht. destruct Ht as (Hs1 & _ & Hr & Hkeep & _).
    specialize (IH t1 Hs1 Hrest).
    destruct (fireAll keepAliveConfigured None stateChangeListener onConnect
                onDisconnect legacyListener (S (S n)) rest t1) as [t2 rs].
    destruct IH as (Hrs & Hs2 & Hkeep2).
    split; [|split; [exact Hs2|]].
    + constructor; [|exact Hrs].
      destruct s; try contradiction; try (eexists; exact Hr);
        destruct (_state t1);
        first [ destruct Hr as (id & -> & _); eexists; reflexivity
              | eexists; exact Hr ].
    + intros i o Hi Hne. apply Hkeep2; [|exact Hne]. apply Hkeep; assumption.
Qed.

(** X15.  The defensive errors of the transport ("Connect promise
    must be defined.", "Connect resolve undefined.", "Invalid state
    transition ..." and the like) are unreachable as long as the
    WebSocket constructor does not throw and no observer raises:
    from a transport in its shape between turns, every turn of
    every series of calls and WebSocket events ends without an
    exception. *)
Theorem no_internal_error (n : nat) (series : list Stimulus) (t : Transport) :
  wellBehaved stateChangeListener onConnect onDisconnect legacyListener ->
  sound t -> Forall ordinary series ->
  Forall endedNormally
    (snd (fireAll keepAliveConfigured None stateChangeListener onConnect
            onDisconnect legacyListener (S (S n)) series t)).
Proof.
  intros Hwell Hs Hord.
  pose proof (series_with_observers n series Hwell t Hs Hord) as H.
  destruct (fireAll _ _ _ _ _ _ _ _ _) as [t1 rs]. apply H.
Qed.

Lemma constructor_sound : sound constructor.
Proof.
  unfold sound, noPromise. cbn. repeat split; try discriminate.
Qed.

(** X17.  After any series of calls and WebSocket events on a newly
    constructed transport (observers raising no exception, the
    WebSocket constructor not throwing), no transition is in
    flight, a connect promise is held exactly in state Connecting,
    a disconnect promise exactly in state Disconnecting, no
    WebSocket exactly in state Disconnected, and the keep-alive
    timer runs only in state Connected. *)
Theorem fields_tell_the_state (n : nat) (series : list Stimulus) :
  wellBehaved stateChangeListener onConnect onDisconnect legacyListener ->
  Forall ordinary series ->
  let t := fst (fireAll keepAliveConfigured None stateChangeListener onConnect
                  onDisconnect legacyListener (S (S n)) series constructor) in
  transitioningState t = false /\
  (connectPromise t <> None <-> _state t = Connecting) /\
  (disconnectPromise t <> None <-> _state t = Disconnecting) /\
  (_ws t = None <-> _state t = Disconnected) /\
  (keepAliveInterval t = true -> _state t = Connected).
Proof.
  intros Hwell Hord.
  pose proof (series_with_observers n series Hwell constructor constructor_sound Hord)
    as H.
  destruct (fireAll _ _ _ _ _ _ _ _ _) as [t rs]. cbn [fst].
  destruct H as (_ & (Hflag & Hka & _ & Hshape) & _).
  split; [exact Hflag|].
  destruct (_state t); unfold pendingPromise, noPromise in Hshape;
    destruct Hshape as (H1 & H2 & H3);
    repeat match goal with
           | H : exists _, _ |- _ => destruct H as (? & H)
           | H : _ /\ _ |- _ => destruct H as [? H]
           end;
    repeat split; intros; subst; try congruence; try discriminate;
    try (apply Hka; assumption).
Qed.

(** *** A transition that throws *)

Lemma stuck_step (n : nat) (s : Stimulus) (t : Transport) :
  transitioningState t = true ->
  match fireAny (S n) s t with
  | (r, t1, _) =>
      _state t1 = _state t /\ transitioningState t1 = true /\
      forall p, r = Normal (Some p) -> p = Rejected loopDetected
  end.
Proof.
  intros Hflag.
  pose proof (transitionState_guarded keepAliveConfigured webSocketThrows
                stateChangeListener onConnect onDisconnect legacyListener n) as Hg.
  destruct s as [| |ws|ws message|error]; cbn [fire].
  - unfold connect.
    destruct (connect_in_transition webSocketThrows _ Hg t Hflag)
      as (answer & Heq & Hor & _).
    unfold bind. rewrite Heq.
    destruct Hor as [-> | [m ->]]; cbn; repeat split; auto; try discriminate.
    intros p [= <-]. reflexivity.
  - unfold disconnect.
    destruct (disconnect_in_transition _ Hg t Hflag) as (answer & Heq & Hor & _).
    unfold bind. rewrite Heq.
    destruct Hor as [-> | [m ->]]; cbn; repeat split; auto; try discriminate.
    intros p [= <-]. reflexivity.
  - unfold bind at 1. unfold onWebSocketOpen. rewrite bind_get_run.
    destruct (negb (bool_decide (Some ws = _ws t)));
      [cbn; repeat split; auto; discriminate|].
    destruct (state_eqb (_state t) Connecting);
      [|cbn; repeat split; auto; discriminate].
    rewrite (Hg Connected None t Hflag). repeat split; auto; discriminate.
  - unfold bind at 1. unfold onWebSocketClose. rewrite bind_get_run.
    destruct (negb (bool_decide (Some ws = _ws t)));
      [cbn; repeat split; auto; discriminate|].
    rewrite bind_modify_run.
    rewrite (Hg Disconnected _ (set_ws None (sockets t) t) Hflag).
    repeat split; auto; discriminate.
  - unfold constructionFailed. unfold bind.
    rewrite (Hg Disconnected (Some error) t Hflag). repeat split; auto; discriminate.
Qed.

(** X21.  [transitionState] has no handler that resets the
    transition flag: if a transition throws (an observer raised, or
    the transition was invalid), the flag stays set, and from then
    on no call or WebSocket event changes the state again, and
    every promise handed back by [connect()] or [disconnect()] is
    rejected with "Loop detected.". *)
Theorem throwing_transition_disables_the_transport (n : nat)
    (newState : TransportState) (error : option Exn) (ex : Exn)
    (series : list Stimulus) (t : Transport) :
  transitioningState t = false ->
  fst (fst (run (S (S n)) newState error t)) = Throw ex ->
  let t1 := snd (fst (run (S (S n)) newState error t)) in
  transitioningState t1 = true /\
  match fireAll keepAliveConfigured webSocketThrows stateChangeListener onConnect
          onDisconnect legacyListener (S (S n)) series t1 with
  | (t2, rs) =>
      _state t2 = _state t1 /\ transitioningState t2 = true /\
      Forall (fun r => forall p, r = Normal (Some p) -> p = Rejected loopDetected) rs
  end.
Proof.
  intros Hflag Hthrow t1.
  assert (H1 : transitioningState t1 = true).
  { pose proof (wp_body keepAliveConfigured webSocketThrows stateChangeListener
                  onConnect onDisconnect legacyListener (run (S n))
                  (transitionState_guarded _ _ _ _ _ _ n) False newState error t
                  Hflag ltac:(tauto)) as H.
    unfold wp in H. unfold t1. cbn [transitionState] in Hthrow |- *.
    destruct (transitionStateBody _ _ _ _ _ _ _ _ _ t) as [[[u|e|] t'] evs];
      cbn in Hthrow |- *; try discriminate Hthrow.
    apply H. }
  split; [exact H1|].
  clearbody t1. clear Hflag Hthrow. revert t1 H1.
  induction series as [|s rest IH]; intros t1 H1; cbn [fireAll].
  - repeat split; auto.
  - pose proof (stuck_step (S n) s t1 H1) as Hs.
    destruct (fireAny (S (S n)) s t1) as [[r t2] ev].
    destruct Hs as (Hst & Hfl & Hr). specialize (IH t2 Hfl).
    destruct (fireAll _ _ _ _ _ _ _ rest t2) as [t3 rs].
    destruct IH as (Hst3 & Hfl3 & Hrs).
    split; [congruence|]. split; [exact Hfl3|]. constructor; assumption.
Qed.

(** X22.  When the WebSocket constructor throws, [connect()] hands
    back a promise and its continuation then fails inside the
    transition to Disconnected: no completion of a connect promise
    was stored, so the transition throws "Connect resolve
    undefined." in place of the constructor's error, leaving the
    transport Disconnected with the transition flag set. *)
Theorem failed_construction_disables_the_transport (n : nat) (error : Exn)
    (t : Transport) :
  wellBehaved stateChangeListener onConnect onDisconnect legacyListener ->
  sound t -> _state t = Disconnected ->
  match fireAll keepAliveConfigured (Some error) stateChangeListener onConnect
          onDisconnect legacyListener (S (S n))
          [Connect; ConstructionFailed error] t with
  | (t2, rs) =>
      rs = [Normal (Some (FailsLater error));
            Throw (Error "Connect resolve undefined.")] /\
      _state t2 = Disconnected /\ transitioningState t2 = true
  end.
Proof.
  intros Hwell Hs Hst.
  rewrite (fireAll_outcome keepAliveConfigured (Some error) _ _ _ _ Hwell n _ t
             (sound_consistent t Hs)).
  destruct Hs as (Hflag & Hka & _ & Hshape). rewrite Hst in Hshape.
  destruct t as [st fl ws cp cr cj ct dp dr dj ki kd pr so].
  cbn in Hflag, Hst, Hshape, Hka. subst fl st.
  destruct Hshape as ((-> & -> & ->) & (-> & -> & ->) & ->).
  destruct ki; [specialize (Hka eq_refl); discriminate Hka|].
  cbv [fireAll fire connect _connect constructionFailed tryTransition
       transitionState transitionStateBody openWebSocket runObserver silent
       bind get modify emit ret throw when].
  cbn. repeat split.
Qed.

End Env.

(** *** The samples satisfy the hypotheses *)

Lemma hasty_wellBehaved : wellBehaved hasty_listener None None silent.
Proof.
  repeat split; try discriminate.
  - intros s. destruct s; repeat constructor.
  - intros s. constructor.
Qed.

Lemma constructor_consistent : consistent constructor.
Proof. split; intros H; exfalso; apply H; reflexivity. Qed.

Lemma connecting_sound : sound connecting.
Proof.
  unfold sound, pendingPromise, noPromise. cbn.
  repeat split; try discriminate.
  - intros ws [= <-]. lia.
  - exists 0. repeat split.
Qed.

Lemma session_ordinary : Forall ordinary session.
Proof. repeat constructor. Qed.

Lemma observers_cannot_interfere_witness :
  fireAll true None hasty_listener None None silent 2 session constructor
  = fireAll true None silent None None silent 1 session constructor.
Proof.
  exact (observers_cannot_interfere true None hasty_listener None None silent 0
           session constructor hasty_wellBehaved constructor_consistent).
Defined.

Lemma no_internal_error_witness :
  Forall endedNormally
    (snd (fireAll true None hasty_listener None None silent 2 session constructor)).
Proof.
  exact (no_internal_error true hasty_listener None None silent 0 session constructor
           hasty_wellBehaved constructor_sound session_ordinary).
Defined.

Lemma state_follows_the_table_witness :
  endedNormally (fst (fst (fire false None hasty_listener None None silent 2
                             (SocketOpened 0) connecting))) /\
  _state (snd (fst (fire false None hasty_listener None None silent 2
                      (SocketOpened 0) connecting))) = Connected.
Proof.
  exact (state_follows_the_table false hasty_listener None None silent 0
           (SocketOpened 0) connecting hasty_wellBehaved connecting_sound I).
Defined.

Lemma fields_tell_the_state_witness :
  let t := fst (fireAll true None hasty_listener None None silent 2 session
                  constructor) in
  transitioningState t = false /\
  (connectPromise t <> None <-> _state t = Connecting) /\
  (disconnectPromise t <> None <-> _state t = Disconnecting) /\
  (_ws t = None <-> _state t = Disconnected) /\
  (keepAliveInterval t = true -> _state t = Connected).
Proof.
  exact (fields_tell_the_state true hasty_listener None None silent 0 session
           hasty_wellBehaved session_ordinary).
Defined.

Lemma repeated_call_changes_nothing_witness :
  match fire false None hasty_listener None None silent 2 Connect constructor with
  | (r, t1, _) =>
      endedNormally r /\
      fire false None hasty_listener None None silent 2 Connect t1 = (r, t1, [])
  end.
Proof.
  exact (repeated_call_changes_nothing false hasty_listener None None silent 0
           Connect constructor hasty_wellBehaved constructor_sound (or_introl eq_refl)).
Defined.

Lemma pending_promise_is_settled_witness :
  let left s :=
    promises (snd (fst (fire false None hasty_listener None None silent 2 s
                          connecting))) !! 0 in
  left (SocketOpened 0) = Some Fulfilled /\
  left (SocketClosed 0 "refused") = Some (RejectedWith (Error "refused")) /\
  left Disconnect = Some (RejectedWith (Error "Connect aborted.")).
Proof.
  exact (proj1 (pending_promise_is_settled false hasty_listener None None silent 0
                  connecting 0 0 "refused" hasty_wellBehaved connecting_sound eq_refl)
           eq_refl eq_refl).
Defined.

Lemma throwing_transition_disables_the_transport_witness :
  let t1 := snd (fst (transitionState false None raising_listener None None silent 2
                        Connecting None constructor)) in
  transitioningState t1 = true /\
  match fireAll false None raising_listener None None silent 2 session t1 with
  | (t2, rs) =>
      _state t2 = _state t1 /\ transitioningState t2 = true /\
      Forall (fun r => forall p, r = Normal (Some p) -> p = Rejected loopDetected) rs
  end.
Proof.
  exact (throwing_transition_disables_the_transport false None raising_listener None
           None silent 0 Connecting None (Error "observer failed") session constructor
           eq_refl eq_refl).
Defined.

Lemma failed_construction_disables_the_transport_witness :
  match fireAll false (Some (Error "bad url")) hasty_listener None None silent 2
          [Connect; ConstructionFailed (Error "bad url")] constructor with
  | (t2, rs) =>
      rs = [Normal (Some (FailsLater (Error "bad url")));
            Throw (Error "Connect resolve undefined.")] /\
      _state t2 = Disconnected /\ transitioningState t2 = true
  end.
Proof.
  exact (failed_construction_disables_the_transport false hasty_listener None None
           silent 0 (Error "bad url") constructor hasty_wellBehaved constructor_sound
           eq_refl).
Defined.

End TransportDriverFacts.

(** ** Transport: sending and keep-alives *)

Module TransportIOFacts.

Import Eff EffFacts Transport TransportSpec TransportFacts TransportDriver
       TransportDriverFacts TransportIO.
Local Open Scope eff_scope.

Lemma send_on_sound (wsSend : nat -> string -> SendOutcome) (message : string)
    (t : Transport) :
  sound t ->
  (_state t <> Connected ->
   send wsSend message t = (Normal (Rejected (Error "Not connected.")), t, [])) /\
  (_state t = Connected ->
   exists ws, _ws t = Some ws /\
     send wsSend message t
     = (Normal (sendPromise (wsSend ws message)), t, [WebSocketSendCalled ws message])).
Proof.
  intros (_ & _ & _ & Hshape). unfold send, _send, bind, get, emit, ret, throw.
  split; intros Hst.
  - destruct (_state t); try reflexivity. now elim Hst.
  - rewrite Hst in *. cbn. destruct Hshape as (_ & _ & Hws).
    destruct (_ws t) as [ws|]; [|now elim Hws].
    exists ws. split; [reflexivity|].
    destruct (wsSend ws message); reflexivity.
Qed.

(** X23.  [send] never throws on a transport reached by calls and
    WebSocket events (observers raising no exception, the WebSocket
    constructor not throwing): "WebSocket undefined." is unreachable.
    Unless the state is Connected it returns a promise rejected with
    "Not connected." and touches no WebSocket; when Connected it
    hands the message to the current WebSocket once, and the promise
    is resolved, or rejected with what the WebSocket threw.  The
    transport itself is left as it was. *)
Theorem send_never_throws (keepAliveConfigured : bool)
    (stateChangeListener : TransportState -> list Action)
    (onConnect : option (list Action))
    (onDisconnect : option (option Exn -> list Action))
    (legacyListener : TransportState -> list Action)
    (wsSend : nat -> string -> SendOutcome) (n : nat) (series : list Stimulus)
    (message : string) (t0 : Transport) :
  wellBehaved stateChangeListener onConnect onDisconnect legacyListener ->
  sound t0 -> Forall ordinary series ->
  let t := fst (fireAll keepAliveConfigured None stateChangeListener onConnect
                  onDisconnect legacyListener (S (S n)) series t0) in
  (_state t <> Connected ->
   send wsSend message t = (Normal (Rejected (Error "Not connected.")), t, [])) /\
  (_state t = Connected ->
   exists ws, _ws t = Some ws /\
     send wsSend message t
     = (Normal (sendPromise (wsSend ws message)), t, [WebSocketSendCalled ws message])).
Proof.
  intros Hwell Hs Hord t. apply send_on_sound.
  pose proof (series_with_observers keepAliveConfigured stateChangeListener onConnect
                onDisconnect legacyListener n series Hwell t0 Hs Hord) as H.
  unfold t. destruct (fireAll _ _ _ _ _ _ _ _ _) as [t1 rs]. apply H.
Qed.

Lemma send_never_throws_witness :
  let t := fst (fireAll true None hasty_listener None None silent 2
                  [Connect; SocketOpened 0] constructor) in
  exists ws, _ws t = Some ws /\
    send accepting "OPTIONS" t
    = (Normal (sendPromise (accepting ws "OPTIONS")), t,
       [WebSocketSendCalled ws "OPTIONS"]).
Proof.
  refine (proj2 (send_never_throws true hasty_listener None None silent accepting 0
                   [Connect; SocketOpened 0] "OPTIONS" constructor hasty_wellBehaved
                   constructor_sound _) eq_refl).
  repeat constructor.
Defined.

(** *** Keep-alives *)

Lemma keepAlivesSent_app (evs more : list Traffic) :
  keepAlivesSent (evs ++ more) = keepAlivesSent evs + keepAlivesSent more.
Proof. unfold keepAlivesSent. rewrite List.filter_app, length_app. reflexivity. Qed.

Section Beats.
Variable keepAliveConfigured : bool.
Variable wsSend : nat -> string -> SendOutcome.
Variable onMessage : option (string -> IO unit).
Variable messageListener : string -> IO unit.
Hypothesis HonMessage : forall callback, onMessage = Some callback -> detached callback.
Hypothesis Hlistener : detached messageListener.

Lemma one_beat (b : Beat) (t : Transport) :
  match beat keepAliveConfigured wsSend onMessage messageListener b t with
  | (_, t1, evs) =>
      _ws t1 = _ws t /\
      keepAlivesSent evs + free t1 <= free t + (if clears t b then 1 else 0)
  end.
Proof.
  destruct t as [st fl ws cp cr cj ct dp dr dj ki kd pr so].
  destruct b as [| |w data]; cbn [beat clears].
  - unfold keepAliveDue, sendKeepAlive, send, _send, startSendingKeepAlives,
      set_debounce, bind, get, modify, emit, ret, throw, free.
    cbn. destruct kd; cbn.
    + destruct (keepAliveConfigured && negb ki); cbn; split; auto.
    + destruct st; cbn; try (destruct (keepAliveConfigured && negb ki); cbn; split; auto).
      destruct ws as [sock|]; cbn; [|split; auto].
      destruct (wsSend sock keepAlive); cbn;
        destruct (keepAliveConfigured && negb ki); cbn; split; auto.
  - unfold debounceElapsed, clearKeepAliveTimeout, set_debounce, modify, free.
    cbn. split; [reflexivity|]. destruct kd; cbn; lia.
  - unfold onWebSocketMessage, clearKeepAliveTimeout, set_debounce, free.
    rewrite bind_get_run. cbn [_ws _state keepAliveDebounceTimeout].
    destruct (bool_decide (Some w = ws)); cbn [negb andb];
      [|cbn; split; [reflexivity|lia]].
    destruct (isKeepAliveResponse (shownAs data));
      [cbn; split; [reflexivity|destruct kd; cbn; lia]|].
    destruct (isFalsy data); [cbn; split; [reflexivity|lia]|].
    destruct (finished data) as [finishedData|]; [|cbn; split; [reflexivity|lia]].
    destruct (negb (state_eqb st Connected)); [cbn; split; [reflexivity|lia]|].
    destruct (Hlistener finishedData
                {| _state := st; transitioningState := fl; _ws := ws;
                   connectPromise := cp; connectResolve := cr; connectReject := cj;
                   connectTimeout := ct; disconnectPromise := dp;
                   disconnectResolve := dr; disconnectReject := dj;
                   keepAliveInterval := ki; keepAliveDebounceTimeout := kd;
                   promises := pr; sockets := so |}) as [r2 E2].
    destruct onMessage as [callback|].
    + destruct (HonMessage callback eq_refl finishedData
                  {| _state := st; transitioningState := fl; _ws := ws;
                     connectPromise := cp; connectResolve := cr; connectReject := cj;
                     connectTimeout := ct; disconnectPromise := dp;
                     disconnectResolve := dr; disconnectReject := dj;
                     keepAliveInterval := ki; keepAliveDebounceTimeout := kd;
                     promises := pr; sockets := so |}) as [r1 E1].
      unfold bind, emit, ret. rewrite E1.
      destruct r1; cbn; rewrite ?E2; try (destruct r2); cbn; split; auto; lia.
    + unfold bind, emit, ret. rewrite E2.
      destruct r2; cbn; split; auto; lia.
Qed.

Lemma clears_same (t t1 : Transport) (series : list Beat) :
  _ws t1 = _ws t ->
  List.filter (clears t1) series = List.filter (clears t) series.
Proof.
  intros Hws. apply List.filter_ext. intros [| |w data]; cbn; rewrite ?Hws; reflexivity.
Qed.

Lemma beats_bound (series : list Beat) : forall t : Transport,
  keepAlivesSent (snd (beats keepAliveConfigured wsSend onMessage messageListener
                         series t))
  <= free t + length (List.filter (clears t) series).
Proof.
  induction series as [|b rest IH]; intros t; cbn [beats].
  - cbn. lia.
  - pose proof (one_beat b t) as H1.
    destruct (beat keepAliveConfigured wsSend onMessage messageListener b t)
      as [[r t1] evs].
    destruct H1 as [Hws H1]. specialize (IH t1).
    destruct (beats keepAliveConfigured wsSend onMessage messageListener rest t1)
      as [t2 more].
    cbn [snd] in *. rewrite keepAlivesSent_app.
    rewrite (clears_same t t1 rest Hws) in IH.
    cbn [List.filter]. destruct (clears t b); cbn [length]; lia.
Qed.
End Beats.

(** X24.  Keep-alives are debounced.  However often the keep-alive
    timer fires and whatever messages arrive (the callbacks not
    calling back into the transport), the keep-alives handed to the
    WebSocket number at most one more than the times the debounce
    timeout was cleared, by its expiry or by a CRLF-only message of
    the current WebSocket; and none is sent first while a timeout is
    already armed. *)
Theorem keep_alives_are_debounced (keepAliveConfigured : bool)
    (wsSend : nat -> string -> SendOutcome)
    (onMessage : option (string -> IO unit)) (messageListener : string -> IO unit)
    (series : list Beat) (t : Transport) :
  (forall callback, onMessage = Some callback -> detached callback) ->
  detached messageListener ->
  keepAlivesSent (snd (beats keepAliveConfigured wsSend onMessage messageListener
                         series t))
  <= (if keepAliveDebounceTimeout t then 0 else 1)
     + length (List.filter (clears t) series).
Proof.
  intros H1 H2. apply (beats_bound keepAliveConfigured wsSend onMessage
                         messageListener H1 H2 series t).
Qed.

Lemma fussy_detached : detached fussy.
Proof.
  intros message t. unfold fussy. destruct (String.eqb message "bad"); eexists; reflexivity.
Qed.

Lemma quietly_detached : detached quietly.
Proof. intros message t. eexists. reflexivity. Qed.

Lemma keep_alives_are_debounced_witness :
  keepAlivesSent (snd (beats true accepting (Some fussy) quietly heartbeat settled))
  <= (if keepAliveDebounceTimeout settled then 0 else 1)
     + length (List.filter (clears settled) heartbeat).
Proof.
  refine (keep_alives_are_debounced true accepting (Some fussy) quietly heartbeat
            settled _ quietly_detached).
  intros callback [= <-]. exact fussy_detached.
Defined.

End TransportIOFacts.

(** ** Mock session description handler *)

Module MockSDHFacts.

Import Eff MockSDH.

Lemma closed_call (c : Call) (m : Mock) :
  closed m = true -> call c m = (refusal m c, m).
Proof.
  intros Hc. destruct m as [nm i cl st g u s]. cbn in Hc. subst cl.
  destruct c; reflexivity.
Qed.

Lemma closed_calls (series : list Call) (m : Mock) :
  closed m = true -> calls series m = (map (refusal m) series, m).
Proof.
  intros Hc. induction series as [|c rest IH]; [reflexivity|].
  cbn [calls map]. rewrite (closed_call c m Hc), IH. reflexivity.
Qed.

(** X25.  [close()] is final.  Whatever state the mock is in, after
    [close()] every call of [getDescription], [hasDescription],
    [rollbackDescription] and [setDescription] throws
    "SDH.<method>[name][id] SDH closed", a further [close()] returns,
    and no call changes the mock again: the signalling state and the
    failures still to be injected stay as [close()] found them. *)
Theorem closed_is_final (m : Mock) (series : list Call) :
  calls (Close :: series) m
  = (Returns Undefined :: map (refusal m) series, set_closed true m) /\
  state (set_closed true m) = state m.
Proof.
  split; [|reflexivity].
  cbn [calls call close]. rewrite (closed_calls series (set_closed true m) eq_refl).
  reflexivity.
Qed.

Lemma call_balance (c : Call) (m : Mock) :
  ~ isRollback c ->
  balanceOf (state (snd (call c m)))
  = (balanceOf (state m) + produced [c] [fst (call c m)]
     - applied [c] [fst (call c m)])%Z.
Proof.
  intros Hc. destruct m as [nm i cl st g u s].
  destruct c; try (now elim Hc); destruct cl, g, u, s, st; reflexivity.
Qed.

Lemma produced_cons (c : Call) (o : Outcome) (cs : list Call) (os : list Outcome) :
  produced (c :: cs) (o :: os) = (produced [c] [o] + produced cs os)%Z.
Proof. destruct c, o; cbn; lia. Qed.

Lemma applied_cons (c : Call) (o : Outcome) (cs : list Call) (os : list Outcome) :
  applied (c :: cs) (o :: os) = (applied [c] [o] + applied cs os)%Z.
Proof. destruct c, o; cbn; lia. Qed.

Lemma balance (series : list Call) : forall m : Mock,
  Forall (fun c => ~ isRollback c) series ->
  balanceOf (state (snd (calls series m)))
  = (balanceOf (state m) + produced series (fst (calls series m))
     - applied series (fst (calls series m)))%Z.
Proof.
  induction series as [|c rest IH]; intros m Hall; [cbn; lia|].
  inversion Hall as [|? ? Hc Hrest]; subst.
  cbn [calls]. pose proof (call_balance c m Hc) as H1.
  destruct (call c m) as [o m1]. specialize (IH m1 Hrest).
  destruct (calls rest m1) as [os m2]. cbn [fst snd] in *.
  rewrite produced_cons, applied_cons. lia.
Qed.

(** X26.  Offers and answers alternate.  Over any series of calls
    without a rollback, on a mock in any condition, the descriptions
    produced (fulfilled [getDescription]) less the descriptions
    applied (fulfilled [setDescription]) move the signalling state
    as a balance: has-local-offer is one produced ahead,
    has-remote-offer one applied ahead, stable is level.  So from a
    stable mock the two counts never differ by more than one, and
    they are equal exactly when the mock is stable again. *)
Theorem offers_and_answers_alternate (series : list Call) (m : Mock) :
  Forall (fun c => ~ isRollback c) series ->
  let r := calls series m in
  balanceOf (state (snd r))
  = (balanceOf (state m) + produced series (fst r) - applied series (fst r))%Z /\
  (state m = Stable ->
   (-1 <= produced series (fst r) - applied series (fst r) <= 1)%Z /\
   (produced series (fst r) = applied series (fst r) <-> state (snd r) = Stable)).
Proof.
  intros Hall r. pose proof (balance series m Hall) as H. fold r in H.
  split; [exact H|]. intros Hst. rewrite Hst in H. cbn [balanceOf] in H.
  destruct (state (snd r)); cbn [balanceOf] in H; split; try lia;
    split; intros; try discriminate; try reflexivity; lia.
Qed.

Lemma offers_and_answers_alternate_witness :
  let r := calls negotiation
             (set_setDescriptionRejectOnce true
                (makeMockSessionDescriptionHandler "alice" "0")) in
  (-1 <= produced negotiation (fst r) - applied negotiation (fst r) <= 1)%Z /\
  (produced negotiation (fst r) = applied negotiation (fst r)
   <-> state (snd r) = Stable).
Proof.
  refine (proj2 (offers_and_answers_alternate negotiation
                   (set_setDescriptionRejectOnce true
                      (makeMockSessionDescriptionHandler "alice" "0")) _) eq_refl).
  repeat constructor; intros [].
Defined.

End MockSDHFacts.

(** ** User agent: restarting *)

Module UserAgentLifeFacts.

Import Eff UserAgent UserAgentLife.
Local Open Scope eff_scope.

Lemma lift_keeps {A : Type} (m : UserAgent.M A) (a : Agent) :
  _stateInitial (snd (fst (lift m a))) = _stateInitial a /\
  Forall (fun s => ~ initialises s) (snd (lift m a)).
Proof.
  unfold lift. destruct (m (agent a)) as [[r u] evs]. cbn. split; [reflexivity|].
  induction evs as [|e evs IH]; constructor; [intros []|exact IH].
Qed.

Lemma discard {S E A : Type} (m : Eff.M S E A) (s : S) :
  snd (fst ((m ;; ret tt) s)) = snd (fst (m s)) /\
  snd ((m ;; ret tt) s) = snd (m s).
Proof.
  unfold bind, ret. destruct (m s) as [[[v|e|] s1] evs]; cbn;
    rewrite ?app_nil_r; split; reflexivity.
Qed.

Lemma start_keeps (a : Agent) :
  _stateInitial a = true ->
  _stateInitial (snd (fst (start a))) = true /\
  Forall (fun s => ~ initialises s) (snd (start a)).
Proof.
  intros Hflag. unfold start. rewrite TransportDriverFacts.bind_get_run.
  destruct (state_eqb (_state (agent a)) Started).
  - cbn. split; [exact Hflag|]. repeat constructor; intros [].
  - rewrite Hflag. cbn [negb when].
    destruct (lift_keeps (transitionState Started) a) as [H1 H2].
    unfold bind, ret, emit.
    destruct (lift (transitionState Started) a) as [[[v|e|] a1] evs];
      cbn in H1, H2 |- *; (split; [congruence|]); try exact H2.
    apply Forall_app. split; [exact H2|]. repeat constructor; intros [].
Qed.

Lemma reconnect_keeps (a : Agent) :
  _stateInitial a = true ->
  _stateInitial (snd (fst (reconnect a))) = true /\
  Forall (fun s => ~ initialises s) (snd (reconnect a)).
Proof.
  intros Hflag. unfold reconnect. rewrite TransportDriverFacts.bind_get_run.
  destruct (state_eqb (_state (agent a)) Stopped); cbn;
    (split; [exact Hflag|]); repeat constructor; intros [].
Qed.

Lemma call_keeps (c : Call) (a : Agent) :
  _stateInitial a = true ->
  _stateInitial (snd (fst (call c a))) = true /\
  Forall (fun s => ~ initialises s) (snd (call c a)).
Proof.
  intros Hflag. destruct c; cbn [call].
  - destruct (discard start a) as [-> ->]. apply start_keeps, Hflag.
  - unfold stop. destruct (lift_keeps UserAgent.stop a) as [H1 H2].
    split; [congruence | exact H2].
  - destruct (discard reconnect a) as [-> ->]. apply reconnect_keeps, Hflag.
Qed.

(** X27.  [start()] never makes a new transport, contact or core.
    The field [_stateInitial] is declared true and is cleared only
    inside the branch that runs when it is already false, so over
    any series of [start()], [stop()] and [reconnect()] calls it
    stays true and the initialisation in [start()] never runs: a
    user agent started again after [stop()] calls [connect()] on the
    transport, and uses the core, that [stop()] disposed of. *)
Theorem start_never_reinitialises (u : UserAgent) (series : list Call) :
  let r := calls series (constructed u) in
  _stateInitial (fst r) = true /\
  Forall (fun s => ~ initialises s) (snd r).
Proof.
  cbv zeta. generalize (constructed u) (eq_refl : _stateInitial (constructed u) = true).
  induction series as [|c rest IH]; intros a Hflag; cbn [calls].
  - split; [exact Hflag | constructor].
  - destruct (call_keeps c a Hflag) as [H1 H2].
    destruct (call c a) as [[r a1] evs]. cbn [fst snd] in H1, H2.
    specialize (IH a1 H1). destruct (calls rest a1) as [a2 more].
    cbn [fst snd] in *. destruct IH as [H3 H4].
    split; [exact H3|]. apply Forall_app. split; assumption.
Qed.

End UserAgentLifeFacts.

(** ** User agent: the option tags given to the core *)

Module CoreOptionsFacts.

Import UserAgent CoreOptions.

Lemma existsb_eqb (tag : string) (seen : list string) :
  existsb (String.eqb tag) seen = true <-> In tag seen.
Proof.
  rewrite existsb_exists. split.
  - intros (x & Hin & Heq). apply String.eqb_eq in Heq. now subst.
  - intros Hin. exists tag. split; [exact Hin | apply String.eqb_refl].
Qed.

Lemma unique_In (tags : list string) : forall (seen : list string) (tag : string),
  In tag (unique seen tags) <-> In tag tags /\ ~ In tag seen.
Proof.
  induction tags as [|x rest IH]; intros seen tag; cbn [unique].
  - cbn. tauto.
  - destruct (existsb (String.eqb x) seen) eqn:E.
    + apply existsb_eqb in E. rewrite IH. cbn. split.
      * intros [H1 H2]. tauto.
      * intros [[-> | H1] H2]; [contradiction | tauto].
    + assert (Hx : ~ In x seen).
      { intros H. apply existsb_eqb in H. congruence. }
      cbn [In]. rewrite IH. cbn [In]. split.
      * intros [-> | [H1 H2]]; [tauto|]. split; [tauto|]. intros H. apply H2. tauto.
      * intros [[-> | H1] H2]; [tauto|].
        destruct (String.eqb_spec x tag) as [->|Hne]; [tauto|].
        right. split; [exact H1|]. intros [H | H]; [congruence | contradiction].
Qed.

Lemma unique_NoDup (tags : list string) : forall seen : list string,
  NoDup (unique seen tags).
Proof.
  induction tags as [|x rest IH]; intros seen; cbn [unique]; [constructor|].
  destruct (existsb (String.eqb x) seen); [apply IH|].
  apply NoDup_cons_2; [|apply IH].
  rewrite list_elem_of_In, unique_In. cbn. tauto.
Qed.

Lemma pushed_In (o : Options) (tag : string) :
  In tag (pushed o) <->
  tag = "outbound"
  \/ (tag = "100rel" /\ sipExtension100rel o = Supported)
  \/ (tag = "replaces" /\ sipExtensionReplaces o = Supported)
  \/ In tag (extras o).
Proof.
  unfold pushed, extras. rewrite !in_app_iff. cbn [In].
  destruct (sipExtension100rel o), (sipExtensionReplaces o); cbn;
    intuition (try discriminate; auto).
Qed.

Lemma registered_spec (inherited : string -> bool) (tag : string) :
  registered inherited tag = true <->
  In tag UserAgentRegisteredOptionTags \/ inherited tag = true.
Proof.
  unfold registered. rewrite orb_true_iff, existsb_eqb. reflexivity.
Qed.

(** X28.  The option tags the user agent declares as supported never
    repeat a tag, and name exactly: "outbound"; "100rel" and
    "replaces" when the extension is set to Supported (not when it is
    Required); and the extra tags configured; each only if the lookup
    in [UserAgentRegisteredOptionTags] finds it, that is, if it is a
    key of that table or the name of a property the table inherits
    from [Object.prototype], unless [hackAllowUnregisteredOptionTags]
    is set.  "outbound" is always among them.  The list used in
    responses is the same list: [initCore] reads the GRUUs of the
    contact that [initContact] has just made, which are undefined, so
    "gruu" is never appended. *)
Theorem supported_option_tags (inherited : string -> bool) (o : Options) :
  let tags := supportedOptionTags inherited o in
  NoDup tags /\
  (forall tag,
     In tag tags <->
     (tag = "outbound"
      \/ (tag = "100rel" /\ sipExtension100rel o = Supported)
      \/ (tag = "replaces" /\ sipExtensionReplaces o = Supported)
      \/ In tag (extras o))
     /\ (hackAllowUnregisteredOptionTags o = true
         \/ In tag UserAgentRegisteredOptionTags \/ inherited tag = true)) /\
  In "outbound" tags /\
  supportedOptionTagsResponse inherited o initContact = tags.
Proof.
  cbv zeta.
  assert (Hmem : forall tag,
    In tag (supportedOptionTags inherited o) <->
    (tag = "outbound"
     \/ (tag = "100rel" /\ sipExtension100rel o = Supported)
     \/ (tag = "replaces" /\ sipExtensionReplaces o = Supported)
     \/ In tag (extras o))
    /\ (hackAllowUnregisteredOptionTags o = true
        \/ In tag UserAgentRegisteredOptionTags \/ inherited tag = true)).
  { intros tag. unfold supportedOptionTags. rewrite unique_In. cbn [In].
    rewrite <- pushed_In.
    destruct (hackAllowUnregisteredOptionTags o); cbn [negb].
    - tauto.
    - rewrite filter_In, registered_spec. intuition discriminate. }
  split; [apply unique_NoDup|]. split; [exact Hmem|]. split.
  - apply Hmem. split; [left; reflexivity|].
    right. left. cbn. tauto.
  - unfold supportedOptionTagsResponse, initContact. cbn. apply app_nil_r.
Qed.

(** With the properties of the standard [Object.prototype], an extra
    tag named after one of them passes the filter though it is no
    registered option tag, where another unregistered tag is
    dropped. *)
Example inherited_name_passes_the_filter :
  supportedOptionTags standardPrototype curious = ["outbound"; "timer"; "constructor"].
Proof. reflexivity. Qed.

End CoreOptionsFacts.
